(** * Task management backend: identity layer and owner-scoped task routes

    A shallow embedding of
      - backend/src/config/config.ts        (the [config] object),
      - backend/src/middleware/auth.ts      ([authenticate]),
      - the auth router                     (register / login),
      - backend/src/routes/tasks.ts         (list / create / get / patch / delete),
      - database/migrations/001_initial.sql (the [users] and [tasks] tables),
    followed by the properties of the specification settled against it.

    Conventions.
    - A JavaScript string is a Rocq [string] read as a sequence of code units
      below 256; [trim] removes the ECMAScript white space of that range.
    - A JavaScript number that the routes compute with is an integer; it is
      modelled in [Z].  Numbers are exact up to [MAX_SAFE_INTEGER], and the
      statements about page numbers carry that bound.
    - The PostgreSQL store is a pair of row lists.  The place of a row in its
      list is not the place of the row in the table's storage; where a
      property needs an order it takes the one [ORDER BY] gives.
      The input functions of the column types ([uuid], [timestamptz]), the
      bcrypt and jsonwebtoken packages are interfaces ([Class]es below).
    - Request bodies have the types the handlers declare for them
      ([title?: string], [due_date?: string | null], ...); [login_json] and
      [create_task_json] are the handlers of POST /login and POST /tasks on
      a parsed body of any type. *)

From Stdlib Require Import ZArith String Ascii List Lia Permutation Sorted.
From stdpp Require Import base option list gmap strings.

Local Open Scope string_scope.
Local Open Scope Z_scope.

(** ** JavaScript primitives used by the handlers *)

Module JS.

(** ECMAScript WhiteSpace and LineTerminator code units below 256:
    TAB, LF, VT, FF, CR, SP and NBSP. *)
Definition isWhiteSpace (a : ascii) : bool :=
  let c := N_of_ascii a in
  ((c =? 9) || (c =? 10) || (c =? 11) || (c =? 12) || (c =? 13)
   || (c =? 32) || (c =? 160))%N.

Fixpoint trimStart (s : string) : string :=
  match s with
  | EmptyString => EmptyString
  | String a s' => if isWhiteSpace a then trimStart s' else s
  end.

Fixpoint trimEnd (s : string) : string :=
  match s with
  | EmptyString => EmptyString
  | String a s' =>
      match trimEnd s' with
      | EmptyString => if isWhiteSpace a then EmptyString else String a EmptyString
      | t => String a t
      end
  end.

(** [String.prototype.trim] *)
Definition trim (s : string) : string := trimEnd (trimStart s).

(** ToBoolean on a string: only the empty string is falsy. *)
Definition truthy (s : string) : bool := negb (String.eqb s "").

(** ToBoolean on [string | undefined] (and [string | null | undefined]). *)
Definition truthy_opt (o : option string) : bool :=
  match o with
  | Some s => truthy s
  | None => false
  end.

(** [String.prototype.startsWith] *)
Definition startsWith (s p : string) : bool := String.prefix p s.

(** [s.slice(n)] for [0 <= n]. *)
Fixpoint slice (n : nat) (s : string) : string :=
  match n, s with
  | O, _ => s
  | S n', String _ s' => slice n' s'
  | S _, EmptyString => EmptyString
  end.

(** [Array.prototype.includes] on an array of strings. *)
Definition includes (l : list string) (x : string) : bool :=
  existsb (String.eqb x) l.

(** [String(v)] for [v : string | undefined]. *)
Definition String_ (v : option string) : string :=
  match v with
  | Some s => s
  | None => "undefined"
  end.

Definition digit (a : ascii) : option Z :=
  let c := Z.of_N (N_of_ascii a) in
  if (48 <=? c) && (c <=? 57) then Some (c - 48) else None.

(** Value of the longest prefix of decimal digits, most significant first. *)
Fixpoint digits (acc : Z) (s : string) : Z :=
  match s with
  | EmptyString => acc
  | String a s' =>
      match digit a with
      | Some d => digits (10 * acc + d) s'
      | None => acc
      end
  end.

(** [parseInt(s, 10)]; [None] is NaN.  Leading white space is skipped, one
    sign is read, then the longest run of decimal digits. *)
Definition parseInt (s : string) : option Z :=
  let t := trimStart s in
  let '(sign, r) :=
    match t with
    | String "-"%char r => (-1, r)
    | String "+"%char r => (1, r)
    | _ => (1, t)
    end in
  match r with
  | EmptyString => None
  | String a _ =>
      match digit a with
      | Some _ => Some (sign * digits 0 r)
      | None => None
      end
  end.

(** [n || d] on numbers: NaN and 0 are falsy. *)
Definition num_or (n : option Z) (d : Z) : Z :=
  match n with
  | Some v => if v =? 0 then d else v
  | None => d
  end.

(** [s || d] on [string | undefined]. *)
Definition str_or (s : option string) (d : string) : string :=
  match s with
  | Some v => if truthy v then v else d
  | None => d
  end.

Definition MAX_SAFE_INTEGER : Z := 2 ^ 53 - 1.

(** Values held by the properties of a plain object such as [config]. *)
Inductive value :=
| VUndefined
| VNaN
| VNum (n : Z)
| VStr (s : string).

Definition truthy_value (v : value) : bool :=
  match v with
  | VUndefined | VNaN => false
  | VNum n => negb (n =? 0)
  | VStr s => truthy s
  end.

(** [o.k] on a plain object: a missing property reads as [undefined]. *)
Definition get (o : gmap string value) (k : string) : value :=
  match o !! k with
  | Some v => v
  | None => VUndefined
  end.

End JS.

(** ** The store: database/migrations/001_initial.sql *)

(** A row of [users]. *)
Module User.
Record row := {
  id : string;
  email : string;
  password_hash : string;
  name : option string;
  created_at : Z;
  updated_at : Z
}.
End User.

(** A row of [tasks]; also the shape of the task objects sent to clients. *)
Module Task.
Record row := {
  id : string;
  user_id : string;
  title : string;
  description : option string;
  status : string;
  priority : string;
  due_date : option Z;
  created_at : Z;
  updated_at : Z
}.
End Task.

Record Db := {
  users : list User.row;
  tasks : list Task.row
}.

(** Input functions of the column types: the canonical text of the uuid a
    text denotes, and the instant a text denotes; [None] when the server
    rejects the text. *)
Class Pg := {
  uuid_in : string -> option string;
  timestamptz_in : string -> option Z
}.

(** Result of one statement: rows or an error with its SQLSTATE. *)
Inductive pg (A : Type) :=
| PgOk (a : A)
| PgErr (sqlstate : string).
Arguments PgOk {A} a.
Arguments PgErr {A} sqlstate.

Definition invalid_text_representation := "22P02".
Definition invalid_datetime_format := "22007".
Definition string_data_right_truncation := "22001".
Definition check_violation := "23514".
Definition unique_violation := "23505".
Definition foreign_key_violation := "23503".

Definition strlen (s : string) : Z := Z.of_nat (String.length s).

(** VARCHAR lengths and CHECK constraints of [tasks]. *)
Definition task_row_error (r : Task.row) : option string :=
  if (500 <? strlen (Task.title r)) || (20 <? strlen (Task.status r))
     || (20 <? strlen (Task.priority r))
  then Some string_data_right_truncation
  else if negb (JS.includes ["todo"; "in_progress"; "done"] (Task.status r))
          || negb (JS.includes ["low"; "medium"; "high"] (Task.priority r))
  then Some check_violation
  else None.

(** VARCHAR lengths of [users]. *)
Definition user_row_error (r : User.row) : option string :=
  if (255 <? strlen (User.email r)) || (255 <? strlen (User.password_hash r))
     || (255 <? match User.name r with Some n => strlen n | None => 0 end)
  then Some string_data_right_truncation
  else None.

(** WHERE conjuncts of the task queries, with their bound parameter. *)
Inductive condition :=
| IdEq (v : string)
| UserIdEq (v : string)
| StatusEq (v : string)
| PriorityEq (v : string).

(** SET clauses of the PATCH statement that carry a parameter. *)
Inductive assignment :=
| SetTitle (v : string)
| SetDescription (v : string)
| SetStatus (v : string)
| SetPriority (v : string)
| SetDueDate (v : option string).

(** The first error a list of checks reports, if any. *)
Fixpoint first_error {A : Type} (f : A -> option string) (l : list A) : option string :=
  match l with
  | [] => None
  | x :: l' =>
      match f x with
      | Some e => Some e
      | None => first_error f l'
      end
  end.

Section Store.
Context `{Pg}.

(** Binding a parameter compared with a uuid column casts it. *)
Definition bind_condition (c : condition) : option condition :=
  match c with
  | IdEq v => IdEq <$> uuid_in v
  | UserIdEq v => UserIdEq <$> uuid_in v
  | StatusEq v => Some (StatusEq v)
  | PriorityEq v => Some (PriorityEq v)
  end.

Fixpoint bind_conditions (cs : list condition) : option (list condition) :=
  match cs with
  | [] => Some []
  | c :: cs' =>
      match bind_condition c, bind_conditions cs' with
      | Some c', Some cs'' => Some (c' :: cs'')
      | _, _ => None
      end
  end.

Definition holds (r : Task.row) (c : condition) : bool :=
  match c with
  | IdEq v => String.eqb (Task.id r) v
  | UserIdEq v => String.eqb (Task.user_id r) v
  | StatusEq v => String.eqb (Task.status r) v
  | PriorityEq v => String.eqb (Task.priority r) v
  end.

(** The WHERE clause is the conjunction of its conditions. *)
Definition where_ (cs : list condition) (r : Task.row) : bool :=
  forallb (holds r) cs.

(** [SELECT * FROM tasks WHERE ...] (no ORDER BY: heap order). *)
Definition select_tasks (cs : list condition) (db : Db) : pg (list Task.row) :=
  match bind_conditions cs with
  | None => PgErr invalid_text_representation
  | Some cs' => PgOk (List.filter (where_ cs') (tasks db))
  end.

(** [SELECT COUNT( * )::int AS total FROM tasks WHERE ...] *)
Definition select_count (cs : list condition) (db : Db) : pg Z :=
  match select_tasks cs db with
  | PgOk rows => PgOk (Z.of_nat (length rows))
  | PgErr e => PgErr e
  end.

(** [SELECT * FROM tasks WHERE ... ORDER BY created_at DESC LIMIT l OFFSET o].
    [order_by] is the order in which this execution emits the matching rows. *)
Definition select_page (order_by : list Task.row -> list Task.row)
    (cs : list condition) (limit offset : Z) (db : Db) : pg (list Task.row) :=
  match select_tasks cs db with
  | PgOk rows => PgOk (take (Z.to_nat limit) (drop (Z.to_nat offset) (order_by rows)))
  | PgErr e => PgErr e
  end.

(** [INSERT INTO tasks (user_id, title, description, status, priority,
    due_date) VALUES (...) RETURNING *]; [fresh] is the value of
    [gen_random_uuid()] and [now] the value of [now()]. *)
Definition insert_task (fresh : string) (now : Z) (user_id title : string)
    (description : option string) (status priority : string)
    (due_date : option string) (db : Db) : pg (Task.row * Db) :=
  match uuid_in user_id with
  | None => PgErr invalid_text_representation
  | Some uid =>
      match (match due_date with
             | None => Some None
             | Some d => Some <$> timestamptz_in d
             end) with
      | None => PgErr invalid_datetime_format
      | Some due =>
          let r := {| Task.id := fresh; Task.user_id := uid; Task.title := title;
                      Task.description := description; Task.status := status;
                      Task.priority := priority; Task.due_date := due;
                      Task.created_at := now; Task.updated_at := now |} in
          match task_row_error r with
          | Some e => PgErr e
          | None =>
              if existsb (fun t => String.eqb (Task.id t) fresh) (tasks db)
              then PgErr unique_violation
              else if negb (existsb (fun u => String.eqb (User.id u) uid) (users db))
              then PgErr foreign_key_violation
              else PgOk (r, {| users := users db; tasks := tasks db ++ [r] |})
          end
      end
  end.

(** Parameters of SET clauses are coerced to their column types when the
    statement is bound: over-long texts and unreadable timestamps fail. *)
Definition assignment_error (a : assignment) : option string :=
  match a with
  | SetTitle v =>
      if 500 <? strlen v then Some string_data_right_truncation else None
  | SetDescription _ => None
  | SetStatus v | SetPriority v =>
      if 20 <? strlen v then Some string_data_right_truncation else None
  | SetDueDate (Some d) =>
      match timestamptz_in d with
      | Some _ => None
      | None => Some invalid_datetime_format
      end
  | SetDueDate None => None
  end.

Definition assign (r : Task.row) (a : assignment) : Task.row :=
  match a with
  | SetTitle v =>
      {| Task.id := Task.id r; Task.user_id := Task.user_id r; Task.title := v;
         Task.description := Task.description r; Task.status := Task.status r;
         Task.priority := Task.priority r; Task.due_date := Task.due_date r;
         Task.created_at := Task.created_at r; Task.updated_at := Task.updated_at r |}
  | SetDescription v =>
      {| Task.id := Task.id r; Task.user_id := Task.user_id r; Task.title := Task.title r;
         Task.description := Some v; Task.status := Task.status r;
         Task.priority := Task.priority r; Task.due_date := Task.due_date r;
         Task.created_at := Task.created_at r; Task.updated_at := Task.updated_at r |}
  | SetStatus v =>
      {| Task.id := Task.id r; Task.user_id := Task.user_id r; Task.title := Task.title r;
         Task.description := Task.description r; Task.status := v;
         Task.priority := Task.priority r; Task.due_date := Task.due_date r;
         Task.created_at := Task.created_at r; Task.updated_at := Task.updated_at r |}
  | SetPriority v =>
      {| Task.id := Task.id r; Task.user_id := Task.user_id r; Task.title := Task.title r;
         Task.description := Task.description r; Task.status := Task.status r;
         Task.priority := v; Task.due_date := Task.due_date r;
         Task.created_at := Task.created_at r; Task.updated_at := Task.updated_at r |}
  | SetDueDate v =>
      {| Task.id := Task.id r; Task.user_id := Task.user_id r; Task.title := Task.title r;
         Task.description := Task.description r; Task.status := Task.status r;
         Task.priority := Task.priority r; Task.due_date := v ≫= timestamptz_in;
         Task.created_at := Task.created_at r; Task.updated_at := Task.updated_at r |}
  end.

(** [updated_at = now()], the first SET clause of every PATCH statement. *)
Definition touch (now : Z) (r : Task.row) : Task.row :=
  {| Task.id := Task.id r; Task.user_id := Task.user_id r; Task.title := Task.title r;
     Task.description := Task.description r; Task.status := Task.status r;
     Task.priority := Task.priority r; Task.due_date := Task.due_date r;
     Task.created_at := Task.created_at r; Task.updated_at := now |}.

(** The new version of a row under [SET updated_at = now(), a1, ..., an]. *)
Definition set_row (now : Z) (sets : list assignment) (r : Task.row) : Task.row :=
  fold_left assign sets (touch now r).

(** [UPDATE tasks SET updated_at = now(), ... WHERE ... RETURNING *]:
    the new versions of the matched rows, and the table after the statement.
    A new version that breaks a column constraint aborts the statement. *)
Definition update_tasks (now : Z) (sets : list assignment) (cs : list condition)
    (db : Db) : pg (list Task.row * Db) :=
  match bind_conditions cs with
  | None => PgErr invalid_text_representation
  | Some cs' =>
      match first_error assignment_error sets with
      | Some e => PgErr e
      | None =>
          let updated := map (set_row now sets) (List.filter (where_ cs') (tasks db)) in
          match first_error task_row_error updated with
          | Some e => PgErr e
          | None =>
              PgOk (updated,
                    {| users := users db;
                       tasks := map (fun r => if where_ cs' r then set_row now sets r else r)
                                    (tasks db) |})
          end
      end
  end.

(** [DELETE FROM tasks WHERE ...]: [rowCount] and the table afterwards. *)
Definition delete_tasks (cs : list condition) (db : Db) : pg (Z * Db) :=
  match bind_conditions cs with
  | None => PgErr invalid_text_representation
  | Some cs' =>
      PgOk (Z.of_nat (length (List.filter (where_ cs') (tasks db))),
            {| users := users db;
               tasks := List.filter (fun r => negb (where_ cs' r)) (tasks db) |})
  end.

(** [SELECT id, email, password_hash, name FROM users WHERE email = $1] *)
Definition select_users_by_email (e : string) (db : Db) : list User.row :=
  List.filter (fun u => String.eqb (User.email u) e) (users db).

(** [INSERT INTO users (email, password_hash, name) VALUES (...) RETURNING ...] *)
Definition insert_user (fresh : string) (now : Z) (email password_hash : string)
    (name : option string) (db : Db) : pg (User.row * Db) :=
  let r := {| User.id := fresh; User.email := email;
              User.password_hash := password_hash; User.name := name;
              User.created_at := now; User.updated_at := now |} in
  match user_row_error r with
  | Some e => PgErr e
  | None =>
      if existsb (fun u => String.eqb (User.id u) fresh
                           || String.eqb (User.email u) email) (users db)
      then PgErr unique_violation
      else PgOk (r, {| users := users db ++ [r]; tasks := tasks db |})
  end.

End Store.

(** ** Responses *)

Inductive body :=
| JError (error : string)
| JTask (task : Task.row)
| JTaskList (data : list Task.row) (total page limit : Z)
| JUser (id email : string) (name : option string) (created_at updated_at : Z)
| JLogin (token : string) (id email : string) (name : option string)
| JTokenExpired (error : string) (expiredAt : Z) (code : string)
| JTokenNotActive (error : string) (validFrom : Z) (code : string)
| JTokenInvalid (error message code : string)
| NoBody.

Record response := {
  status : Z;
  payload : body
}.

(** What a route handler wrapped in [asyncHandler] does with a request:
    it sends a response, or the rejected promise reaches [next(err)]. *)
Inductive outcome :=
| Sent (r : response)
| NextErr (sqlstate : string).

Definition json (st : Z) (b : body) : outcome :=
  Sent {| status := st; payload := b |}.

(** ** routes/tasks.ts *)

(** [req.query] of GET /tasks. *)
Module Query.
Record t := {
  page : option string;
  limit : option string;
  status : option string;
  priority : option string
}.
End Query.

(** [req.body] of POST /tasks and PATCH /tasks/:id, as the handlers type it.
    For [due_date], [None] is undefined and [Some None] is null. *)
Module Body.
Record t := {
  title : option string;
  description : option string;
  status : option string;
  priority : option string;
  due_date : option (option string)
}.
End Body.

Definition STATUSES : list string := ["todo"; "in_progress"; "done"].
Definition PRIORITIES : list string := ["low"; "medium"; "high"].

Definition rowToTask (row : Task.row) : Task.row :=
  {| Task.id := Task.id row;
     Task.title := Task.title row;
     Task.description := Some (default "" (Task.description row));
     Task.status := Task.status row;
     Task.priority := Task.priority row;
     Task.due_date := Task.due_date row;
     Task.created_at := Task.created_at row;
     Task.updated_at := Task.updated_at row;
     Task.user_id := Task.user_id row |}.

(** [const page = ...] of GET /. *)
Definition page_of (q : Query.t) : Z :=
  Z.max 1 (JS.num_or (JS.parseInt (JS.String_ (Query.page q))) 1).

(** [const limit = ...] of GET /. *)
Definition limit_of (q : Query.t) : Z :=
  Z.min 100 (Z.max 1 (JS.num_or (JS.parseInt (JS.String_ (Query.limit q))) 20)).

Definition offset_of (q : Query.t) : Z :=
  (page_of q - 1) * limit_of q.

(** [conditions] / [values] of GET /. *)
Definition list_conditions (userId : string) (q : Query.t) : list condition :=
  [UserIdEq userId]
  ++ (if JS.truthy_opt (Query.status q) then [StatusEq (JS.String_ (Query.status q))] else [])
  ++ (if JS.truthy_opt (Query.priority q) then [PriorityEq (JS.String_ (Query.priority q))] else []).

(** [updates] / [values] of PATCH /:id, in the order they are pushed. *)
Definition patch_values (b : Body.t) : list assignment :=
  (match Body.title b with Some v => [SetTitle (JS.trim v)] | None => [] end)
  ++ (match Body.description b with Some v => [SetDescription (JS.trim v)] | None => [] end)
  ++ (match Body.status b with Some v => [SetStatus v] | None => [] end)
  ++ (match Body.priority b with Some v => [SetPriority v] | None => [] end)
  ++ (match Body.due_date b with
      | Some (Some v) => [SetDueDate (if String.eqb v "" then None else Some v)]
      | Some None => [SetDueDate None]
      | None => []
      end).

Definition task_not_found : outcome := json 404 (JError "Task not found").

Section TaskRoutes.
Context `{Pg}.

(** GET / *)
Definition list_tasks (order_by : list Task.row -> list Task.row)
    (userId : string) (q : Query.t) (db : Db) : outcome :=
  let page := page_of q in
  let limit := limit_of q in
  let offset := (page - 1) * limit in
  let status := Query.status q in
  let priority := Query.priority q in
  if JS.truthy_opt status && negb (JS.includes STATUSES (JS.String_ status))
  then json 400 (JError "Invalid status")
  else if JS.truthy_opt priority && negb (JS.includes PRIORITIES (JS.String_ priority))
  then json 400 (JError "Invalid priority")
  else
    let conditions := list_conditions userId q in
    match select_count conditions db with
    | PgErr e => NextErr e
    | PgOk total =>
        match select_page order_by conditions limit offset db with
        | PgErr e => NextErr e
        | PgOk rows => json 200 (JTaskList (map rowToTask rows) total page limit)
        end
    end.

(** POST / *)
Definition create_task (fresh : string) (now : Z) (userId : string)
    (b : Body.t) (db : Db) : outcome * Db :=
  match Body.title b with
  | None => (json 400 (JError "Title is required"), db)
  | Some title =>
      if negb (JS.truthy title) || negb (JS.truthy (JS.trim title))
      then (json 400 (JError "Title is required"), db)
      else
        let taskStatus := JS.str_or (JS.trim <$> Body.status b) "todo" in
        let taskPriority := JS.str_or (JS.trim <$> Body.priority b) "medium" in
        if negb (JS.includes STATUSES taskStatus)
        then (json 400 (JError "Invalid status"), db)
        else if negb (JS.includes PRIORITIES taskPriority)
        then (json 400 (JError "Invalid priority"), db)
        else
          let dueDate : option string :=
            match Body.due_date b with
            | Some (Some v) => if String.eqb v "" then None else Some v
            | Some None => None
            | None => None
            end in
          match insert_task fresh now userId (JS.trim title)
                  (match JS.trim <$> Body.description b with
                   | Some d => if JS.truthy d then Some d else None
                   | None => None
                   end)
                  taskStatus taskPriority
                  (match dueDate with
                   | Some d => if JS.truthy d then Some d else None
                   | None => None
                   end) db with
          | PgErr e => (NextErr e, db)
          | PgOk (row, db') => (json 201 (JTask (rowToTask row)), db')
          end
  end.

(** GET /:id *)
Definition get_task (userId id : string) (db : Db) : outcome :=
  match select_tasks [IdEq id; UserIdEq userId] db with
  | PgErr e => NextErr e
  | PgOk [] => task_not_found
  | PgOk (row :: _) => json 200 (JTask (rowToTask row))
  end.

(** PATCH /:id *)
Definition update_task (now : Z) (userId id : string) (b : Body.t) (db : Db)
    : outcome * Db :=
  if match Body.status b with
     | Some s => negb (JS.includes STATUSES s)
     | None => false
     end
  then (json 400 (JError "Invalid status"), db)
  else if match Body.priority b with
          | Some p => negb (JS.includes PRIORITIES p)
          | None => false
          end
  then (json 400 (JError "Invalid priority"), db)
  else
    let values := patch_values b in
    if (length values =? 0)%nat
    then
      match select_tasks [IdEq id; UserIdEq userId] db with
      | PgErr e => (NextErr e, db)
      | PgOk [] => (task_not_found, db)
      | PgOk (existing :: _) => (json 200 (JTask (rowToTask existing)), db)
      end
    else
      match update_tasks now values [IdEq id; UserIdEq userId] db with
      | PgErr e => (NextErr e, db)
      | PgOk ([], db') => (task_not_found, db')
      | PgOk (row :: _, db') => (json 200 (JTask (rowToTask row)), db')
      end.

(** DELETE /:id *)
Definition delete_task (userId id : string) (db : Db) : outcome * Db :=
  match delete_tasks [IdEq id; UserIdEq userId] db with
  | PgErr e => (NextErr e, db)
  | PgOk (rowCount, db') =>
      if rowCount =? 0 then (task_not_found, db')
      else (json 204 NoBody, db')
  end.

End TaskRoutes.

(** ** config/config.ts *)

(** [Number(v)] for an environment variable ([VNum] or [VNaN]). *)
Class Runtime := {
  Number : option string -> JS.value
}.

(** The object built by config.ts from [process.env] (after [dotenv.config()]);
    its properties are [port], [nodeEnv] and [databaseUrl]. *)
Definition config `{Runtime} (env : gmap string string) : gmap string JS.value :=
  {[ "port" := (if JS.truthy_value (Number (env !! "PORT"))
                then Number (env !! "PORT") else JS.VNum 3000);
     "nodeEnv" := JS.VStr (JS.str_or (env !! "NODE_ENV") "development");
     "databaseUrl" := (match env !! "DATABASE_URL" with
                       | Some u => JS.VStr u
                       | None => JS.VUndefined
                       end) ]}.

(** ** jsonwebtoken and bcrypt *)

(** The errors [jwt.verify] passes to its callback, by [err.name]. *)
Inductive jwt_error :=
| TokenExpiredError (message : string) (expiredAt : Z)
| NotBeforeError (message : string) (date : Z)
| JsonWebTokenError (message : string).

Inductive jwt_result :=
| Decoded (userId email : string)
| Failed (err : jwt_error).

Class Jwt := {
  (** [jwt.sign({ userId, email }, secret, { expiresIn })] at time [now] *)
  jwt_sign : string -> string -> JS.value -> Z -> Z -> string;
  (** [jwt.verify(token, secret, callback)] at time [now] *)
  jwt_verify : string -> JS.value -> Z -> jwt_result
}.

Class Bcrypt := {
  (** [bcrypt.hash(password, rounds)] with the salt it draws *)
  bcrypt_hash : string -> Z -> string -> string;
  (** [bcrypt.compare(password, hash)] *)
  bcrypt_compare : string -> string -> bool
}.

(** ** middleware/auth.ts *)

(** [req.user] *)
Record AuthUser := {
  userId : string;
  email : string
}.

Inductive auth_outcome :=
| Responded (r : response)
| Next (user : AuthUser).

Definition respond (st : Z) (b : body) : auth_outcome :=
  Responded {| status := st; payload := b |}.

Definition authenticate `{Jwt} (config : gmap string JS.value)
    (authorization : option string) (now : Z) : auth_outcome :=
  let token : option string :=
    match authorization with
    | Some authHeader =>
        if JS.startsWith authHeader "Bearer " then Some (JS.slice 7 authHeader) else None
    | None => None
    end in
  match token with
  | None => respond 401 (JError "No token provided")
  | Some token =>
      if negb (JS.truthy token) then respond 401 (JError "No token provided")
      else
        if negb (JS.truthy_value (JS.get config "jwtSecret"))
        then respond 500 (JError "Server misconfiguration")
        else
          match jwt_verify token (JS.get config "jwtSecret") now with
          | Failed (TokenExpiredError _ expiredAt) =>
              respond 401 (JTokenExpired "Token expired" expiredAt "TOKEN_EXPIRED")
          | Failed (NotBeforeError _ date) =>
              respond 401 (JTokenNotActive "Token not yet valid" date "TOKEN_NOT_ACTIVE")
          | Failed (JsonWebTokenError message) =>
              respond 401 (JTokenInvalid "Invalid token" message "TOKEN_INVALID")
          | Decoded userId email =>
              Next {| userId := userId; email := email |}
          end
  end.

(** ** The auth router: POST /register and POST /login *)

Module Credentials.
Record t := {
  email : option string;
  password : option string;
  name : option string
}.
End Credentials.

Definition SALT_ROUNDS : Z := 10.

(** [expiresIn: '7d'], in seconds. *)
Definition SEVEN_DAYS : Z := 7 * 24 * 60 * 60.

Section AuthRoutes.
Context `{Pg} `{Jwt} `{Bcrypt}.

(** POST /register; [salt] is the salt bcrypt draws, [fresh] and [now] the
    values of [gen_random_uuid()] and [now()]. *)
Definition register (salt fresh : string) (now : Z) (b : Credentials.t) (db : Db)
    : outcome * Db :=
  match Credentials.email b, Credentials.password b with
  | Some email, Some password =>
      if negb (JS.truthy email) || negb (JS.truthy password)
      then (json 400 (JError "Email and password are required"), db)
      else
        let password_hash := bcrypt_hash password SALT_ROUNDS salt in
        match insert_user fresh now (JS.trim email) password_hash
                (match JS.trim <$> Credentials.name b with
                 | Some n => if JS.truthy n then Some n else None
                 | None => None
                 end) db with
        | PgOk (user, db') =>
            (json 201 (JUser (User.id user) (User.email user) (User.name user)
                         (User.created_at user) (User.updated_at user)), db')
        | PgErr e =>
            if String.eqb e "23505"
            then (json 409 (JError "Email already registered"), db)
            else (NextErr e, db)
        end
  | _, _ => (json 400 (JError "Email and password are required"), db)
  end.

(** POST /login *)
Definition login (config : gmap string JS.value) (now : Z) (b : Credentials.t)
    (db : Db) : outcome :=
  match Credentials.email b, Credentials.password b with
  | Some email, Some password =>
      if negb (JS.truthy email) || negb (JS.truthy password)
      then json 400 (JError "Email and password are required")
      else
        match select_users_by_email (JS.trim email) db with
        | [] => json 401 (JError "Invalid email or password")
        | row :: _ =>
            if negb (bcrypt_compare password (User.password_hash row))
            then json 401 (JError "Invalid email or password")
            else
              if negb (JS.truthy_value (JS.get config "jwtSecret"))
              then json 500 (JError "Server misconfiguration")
              else
                let token := jwt_sign (User.id row) (User.email row)
                               (JS.get config "jwtSecret") SEVEN_DAYS now in
                json 200 (JLogin token (User.id row) (User.email row) (User.name row))
        end
  | _, _ => json 400 (JError "Email and password are required")
  end.

End AuthRoutes.

(** ** Row orders an execution of [ORDER BY created_at DESC] may emit *)

(** A list is in descending creation order. *)
Definition created_desc (l : list Task.row) : Prop :=
  StronglySorted (fun a b => Task.created_at b <= Task.created_at a) l.

(** [order_by] implements [ORDER BY created_at DESC]: whatever rows match, it
    emits each of them once, newest first.  The statement names no further
    sort key, so rows created at the same instant may come in any order. *)
Definition orders_by_created_desc (order_by : list Task.row -> list Task.row) : Prop :=
  forall rows, Permutation rows (order_by rows) /\ created_desc (order_by rows).

(** Insertion before the rows that are not newer: ties keep heap order. *)
Fixpoint insert_before_ties (r : Task.row) (l : list Task.row) : list Task.row :=
  match l with
  | [] => [r]
  | x :: l' =>
      if Task.created_at x <=? Task.created_at r then r :: l
      else x :: insert_before_ties r l'
  end.

(** Insertion after the rows that are not older: ties come in reverse heap order. *)
Fixpoint insert_after_ties (r : Task.row) (l : list Task.row) : list Task.row :=
  match l with
  | [] => [r]
  | x :: l' =>
      if Task.created_at x <? Task.created_at r then r :: l
      else x :: insert_after_ties r l'
  end.

(** Newest first, rows of one instant in insertion order. *)
Definition sort_ties_oldest_first (rows : list Task.row) : list Task.row :=
  fold_right insert_before_ties [] rows.

(** Newest first, rows of one instant in reverse insertion order. *)
Definition sort_ties_newest_first (rows : list Task.row) : list Task.row :=
  fold_right insert_after_ties [] rows.

(** The rows of [db] a list request of [userId] with query [q] matches. *)
Definition matching (userId : string) (q : Query.t) (db : Db) : list Task.row :=
  List.filter (fun r =>
      String.eqb (Task.user_id r) userId
      && (if JS.truthy_opt (Query.status q)
          then String.eqb (Task.status r) (JS.String_ (Query.status q)) else true)
      && (if JS.truthy_opt (Query.priority q)
          then String.eqb (Task.priority r) (JS.String_ (Query.priority q)) else true))
    (tasks db).

(** The primary keys of [tasks] are pairwise distinct. *)
Definition tasks_pkey (db : Db) : Prop :=
  NoDup (map Task.id (tasks db)).

(** Two list requests differ at most in their page number. *)
Definition same_listing (q q' : Query.t) : Prop :=
  Query.limit q' = Query.limit q /\ Query.status q' = Query.status q
  /\ Query.priority q' = Query.priority q.

(** The [data] of a response to GET /, empty for any other outcome. *)
Definition data_of (o : outcome) : list Task.row :=
  match o with
  | Sent {| payload := JTaskList data _ _ _ |} => data
  | _ => []
  end.

(** The supplied limit clamped to the interval from 1 to 100. *)
Definition clamp_limit (n : Z) : Z := Z.min 100 (Z.max 1 n).

(** A title is blank: empty, or white space only. *)
Definition blank (s : string) : Prop := JS.trim s = "".

(** ** Sample instances of the interfaces and sample data *)

(** A server that takes the 36-character texts as canonical uuids and knows
    one timestamp literal. *)
Definition sample_pg : Pg := {|
  uuid_in s := if (String.length s =? 36)%nat then Some s else None;
  timestamptz_in s :=
    if String.eqb s "2026-01-01T00:00:00Z" then Some 1767225600 else None
|}.

(** [Number] on the texts [parseInt] reads; NaN elsewhere. *)
Definition sample_runtime : Runtime := {|
  Number v :=
    match v ≫= JS.parseInt with
    | Some n => JS.VNum n
    | None => JS.VNaN
    end
|}.

(** A stand-in for bcrypt: the hash is the 22-character salt followed by the
    password. *)
Definition sample_bcrypt : Bcrypt := {|
  bcrypt_hash password _ salt := salt +:+ password;
  bcrypt_compare password hash := String.eqb (JS.slice 22 hash) password
|}.

(** A stand-in for jsonwebtoken that never accepts a token. *)
Definition sample_jwt : Jwt := {|
  jwt_sign userId email _ _ _ := userId +:+ "." +:+ email;
  jwt_verify _ _ _ := Failed (JsonWebTokenError "jwt malformed")
|}.

Definition alice : string := "00000000-0000-4000-8000-00000000000a".
Definition bob : string := "00000000-0000-4000-8000-00000000000b".
Definition task1 : string := "00000000-0000-4000-8000-000000000001".
Definition task2 : string := "00000000-0000-4000-8000-000000000002".
Definition task3 : string := "00000000-0000-4000-8000-000000000003".
Definition sample_salt : string := "abcdefghijklmnopqrstuv".

Definition alice_row : User.row :=
  {| User.id := alice; User.email := "alice@example.com";
     User.password_hash := sample_salt +:+ "secret123"; User.name := None;
     User.created_at := 100; User.updated_at := 100 |}.

Definition bob_row : User.row :=
  {| User.id := bob; User.email := "bob@example.com";
     User.password_hash := sample_salt +:+ "hunter2"; User.name := Some "Bob";
     User.created_at := 101; User.updated_at := 101 |}.

Definition milk : Task.row :=
  {| Task.id := task1; Task.user_id := alice; Task.title := "Buy milk";
     Task.description := None; Task.status := "todo"; Task.priority := "medium";
     Task.due_date := Some 1767225600; Task.created_at := 200; Task.updated_at := 200 |}.

(** Created at the same instant as [milk], inserted after it. *)
Definition eggs : Task.row :=
  {| Task.id := task2; Task.user_id := alice; Task.title := "Buy eggs";
     Task.description := Some "a dozen"; Task.status := "todo"; Task.priority := "high";
     Task.due_date := None; Task.created_at := 200; Task.updated_at := 200 |}.

Definition report : Task.row :=
  {| Task.id := task3; Task.user_id := bob; Task.title := "Write report";
     Task.description := None; Task.status := "in_progress"; Task.priority := "low";
     Task.due_date := None; Task.created_at := 300; Task.updated_at := 300 |}.

Definition sample_db : Db :=
  {| users := [alice_row; bob_row]; tasks := [milk; eggs; report] |}.

Definition no_users : Db := {| users := []; tasks := [] |}.

Definition empty_body : Body.t :=
  {| Body.title := None; Body.description := None; Body.status := None;
     Body.priority := None; Body.due_date := None |}.

Definition empty_query : Query.t :=
  {| Query.page := None; Query.limit := None; Query.status := None;
     Query.priority := None |}.

(** [{ status: "done" }] *)
Definition done_body : Body.t :=
  {| Body.title := None; Body.description := None; Body.status := Some "done";
     Body.priority := None; Body.due_date := None |}.

(** [{ title: "   " }] *)
Definition blank_title_body : Body.t :=
  {| Body.title := Some "   "; Body.description := None; Body.status := None;
     Body.priority := None; Body.due_date := None |}.

(** [{ title: "Buy milk" }] *)
Definition milk_body : Body.t :=
  {| Body.title := Some "Buy milk"; Body.description := None; Body.status := None;
     Body.priority := None; Body.due_date := None |}.

(** [{ title: "Buy milk", due_date: "" }] *)
Definition milk_no_date_body : Body.t :=
  {| Body.title := Some "Buy milk"; Body.description := None; Body.status := None;
     Body.priority := None; Body.due_date := Some (Some "") |}.

(** [{ due_date: null }] *)
Definition clear_date_body : Body.t :=
  {| Body.title := None; Body.description := None; Body.status := None;
     Body.priority := None; Body.due_date := Some None |}.

Definition task9 : string := "00000000-0000-4000-8000-000000000009".


(** [?limit=0] *)
Definition zero_limit_query : Query.t :=
  {| Query.page := None; Query.limit := Some "0"; Query.status := None;
     Query.priority := None |}.

(** [?page=-3&limit=500] *)
Definition wild_query : Query.t :=
  {| Query.page := Some "-3"; Query.limit := Some "500"; Query.status := None;
     Query.priority := None |}.

(** [?page=1&limit=1] and [?page=2&limit=1] *)
Definition first_of_one : Query.t :=
  {| Query.page := Some "1"; Query.limit := Some "1"; Query.status := None;
     Query.priority := None |}.
Definition second_of_one : Query.t :=
  {| Query.page := Some "2"; Query.limit := Some "1"; Query.status := None;
     Query.priority := None |}.

Definition alice_login : Credentials.t :=
  {| Credentials.email := Some "alice@example.com";
     Credentials.password := Some "secret123"; Credentials.name := None |}.



(** An environment that does provide a signing secret. *)
Definition sample_env : gmap string string :=
  {[ "JWT_SECRET" := "change-me"; "PORT" := "3000" ]}.


(** [eggs], created later than [milk]. *)
Definition late_eggs : Task.row :=
  {| Task.id := task2; Task.user_id := alice; Task.title := "Buy eggs";
     Task.description := Some "a dozen"; Task.status := "todo"; Task.priority := "high";
     Task.due_date := None; Task.created_at := 250; Task.updated_at := 250 |}.

Definition spaced_db : Db :=
  {| users := [alice_row; bob_row]; tasks := [milk; late_eggs; report] |}.

(** The requests for pages 1, 2, ... with one row per page. *)
Definition one_per_page (k : nat) : Query.t :=
  match k with
  | O => first_of_one
  | _ => second_of_one
  end.

(** Executions that alternate between the two sample orders. *)
Definition alternating (k : nat) : list Task.row -> list Task.row :=
  if Nat.even k then sort_ties_oldest_first else sort_ties_newest_first.


(** ** Readings of the specification used in the statements *)

(** A PATCH body that passes the enumeration checks of the handler and whose
    parameters the store can bind. *)
Definition patch_accepted `{Pg} (b : Body.t) : Prop :=
  (forall s, Body.status b = Some s -> JS.includes STATUSES s = true)
  /\ (forall p, Body.priority b = Some p -> JS.includes PRIORITIES p = true)
  /\ (forall v, Body.title b = Some v -> strlen (JS.trim v) <= 500)
  /\ (forall v, Body.due_date b = Some (Some v) -> v <> "" ->
        is_Some (timestamptz_in v)).

(** Partial update as the specification words it: a field present in the
    body takes the supplied value, an absent field keeps the stored one, and
    [updated_at] is refreshed. *)
Definition patched `{Pg} (now : Z) (b : Body.t) (r : Task.row) : Task.row :=
  {| Task.id := Task.id r;
     Task.user_id := Task.user_id r;
     Task.title :=
       match Body.title b with Some v => JS.trim v | None => Task.title r end;
     Task.description :=
       match Body.description b with
       | Some v => Some (JS.trim v)
       | None => Task.description r
       end;
     Task.status :=
       match Body.status b with Some v => v | None => Task.status r end;
     Task.priority :=
       match Body.priority b with Some v => v | None => Task.priority r end;
     Task.due_date :=
       match Body.due_date b with
       | Some (Some v) => if String.eqb v "" then None else timestamptz_in v
       | Some None => None
       | None => Task.due_date r
       end;
     Task.created_at := Task.created_at r;
     Task.updated_at := now |}.

(** A POST body the handler and the store accept from [caller], with [fresh]
    the key the store draws. *)
Definition create_accepted `{Pg} (fresh caller : string) (b : Body.t) (db : Db) : Prop :=
  (exists title, Body.title b = Some title /\ ~ blank title
                 /\ strlen (JS.trim title) <= 500)
  /\ JS.includes STATUSES (JS.str_or (JS.trim <$> Body.status b) "todo") = true
  /\ JS.includes PRIORITIES (JS.str_or (JS.trim <$> Body.priority b) "medium") = true
  /\ (forall v, Body.due_date b = Some (Some v) -> v <> "" ->
        is_Some (timestamptz_in v))
  /\ (forall t, In t (tasks db) -> Task.id t <> fresh)
  /\ (exists u, In u (users db) /\ User.id u = caller).

(** The row POST / inserts for an accepted body. *)
Definition created `{Pg} (fresh : string) (now : Z) (caller : string) (b : Body.t)
    : Task.row :=
  {| Task.id := fresh;
     Task.user_id := caller;
     Task.title := JS.trim (default "" (Body.title b));
     Task.description :=
       match Body.description b with
       | Some d => if JS.truthy (JS.trim d) then Some (JS.trim d) else None
       | None => None
       end;
     Task.status := JS.str_or (JS.trim <$> Body.status b) "todo";
     Task.priority := JS.str_or (JS.trim <$> Body.priority b) "medium";
     Task.due_date :=
       match Body.due_date b with
       | Some (Some v) => if String.eqb v "" then None else timestamptz_in v
       | _ => None
       end;
     Task.created_at := now;
     Task.updated_at := now |}.


(** The request filters are absent or in the enumerations. *)
Definition filters_accepted (q : Query.t) : Prop :=
  (JS.truthy_opt (Query.status q) = true ->
     JS.includes STATUSES (JS.String_ (Query.status q)) = true)
  /\ (JS.truthy_opt (Query.priority q) = true ->
        JS.includes PRIORITIES (JS.String_ (Query.priority q)) = true).

(** Page and offset are numbers JavaScript represents exactly. *)
Definition exact_paging (q : Query.t) : Prop :=
  page_of q * limit_of q <= JS.MAX_SAFE_INTEGER.

(** The e-mail addresses of [users] are pairwise distinct (UNIQUE). *)
Definition users_email_key (db : Db) : Prop :=
  NoDup (map User.email (users db)).


(** The table after row [r] alone was replaced by [r']. *)
Definition replace_row (r r' : Task.row) (db : Db) : Db :=
  {| users := users db;
     tasks := map (fun x => if String.eqb (Task.id x) (Task.id r) then r' else x)
                  (tasks db) |}.

(** The table after [row] was appended. *)
Definition with_task (row : Task.row) (db : Db) : Db :=
  {| users := users db; tasks := tasks db ++ [row] |}.

(** An order of the matching rows never invents rows. *)
Definition emits_matching_rows (order_by : list Task.row -> list Task.row) : Prop :=
  forall rows r, In r (order_by rows) -> In r rows.

(** No row of the table has both this key and this owner. *)
Definition unmatched (db : Db) (i u : string) : Prop :=
  forall r, In r (tasks db) -> where_ [IdEq i; UserIdEq u] r = false.

(** What PATCH answers when no row has the key and the owner: a function of
    the body alone. *)
Definition unmatched_patch_outcome `{Pg} (b : Body.t) : outcome :=
  if match Body.status b with
     | Some s => negb (JS.includes STATUSES s)
     | None => false
     end
  then json 400 (JError "Invalid status")
  else if match Body.priority b with
          | Some p => negb (JS.includes PRIORITIES p)
          | None => false
          end
  then json 400 (JError "Invalid priority")
  else
    match first_error assignment_error (patch_values b) with
    | Some e => NextErr e
    | None => task_not_found
    end.

(** ** The rest of the routers *)

Section GuardedRoutes.
Context `{Pg} `{Jwt}.

(** [SELECT id, email, name, created_at, updated_at FROM users WHERE id = $1] *)
Definition select_users_by_id (id : string) (db : Db) : pg (list User.row) :=
  match uuid_in id with
  | None => PgErr invalid_text_representation
  | Some i => PgOk (List.filter (fun u => String.eqb (User.id u) i) (users db))
  end.

(** The handler of GET /me, run with the [req.user] the middleware attached. *)
Definition me (user : AuthUser) (db : Db) : outcome :=
  match select_users_by_id (userId user) db with
  | PgErr e => NextErr e
  | PgOk [] => json 404 (JError "User not found")
  | PgOk (u :: _) =>
      json 200 (JUser (User.id u) (User.email u) (User.name u)
                  (User.created_at u) (User.updated_at u))
  end.

(** [router.get('/me', authenticate, asyncHandler(...))] *)
Definition get_me (config : gmap string JS.value) (authorization : option string)
    (now : Z) (db : Db) : outcome :=
  match authenticate config authorization now with
  | Responded r => Sent r
  | Next user => me user db
  end.

(** A request to the tasks router: the route with its parameters, and what
    the store draws while serving it. *)
Inductive task_request :=
| GetTasks (order_by : list Task.row -> list Task.row) (query : Query.t)
| PostTask (fresh : string) (b : Body.t)
| GetTask (id : string)
| PatchTask (id : string) (b : Body.t)
| DeleteTask (id : string).

(** The tasks router: [router.use(authenticate)], then the route handlers,
    each with [req.user.userId]. *)
Definition tasks_router (config : gmap string JS.value)
    (authorization : option string) (now : Z) (req : task_request) (db : Db)
    : outcome * Db :=
  match authenticate config authorization now with
  | Responded r => (Sent r, db)
  | Next user =>
      match req with
      | GetTasks order_by query => (list_tasks order_by (userId user) query db, db)
      | PostTask fresh b => create_task fresh now (userId user) b db
      | GetTask id => (get_task (userId user) id db, db)
      | PatchTask id b => update_task now (userId user) id b db
      | DeleteTask id => delete_task (userId user) id db
      end
  end.

(** The row belongs to the user a [userId] text denotes. *)
Definition owned_by (userId : string) (r : Task.row) : bool :=
  match uuid_in userId with
  | Some u => String.eqb (Task.user_id r) u
  | None => false
  end.

End GuardedRoutes.

(** The rows of other owners, in table order. *)
Definition foreign_rows `{Pg} (userId : string) (db : Db) : list Task.row :=
  List.filter (fun r => negb (owned_by userId r)) (tasks db).

(** Every code unit of the text is white space. *)
Fixpoint all_white (s : string) : bool :=
  match s with
  | EmptyString => true
  | String a s' => JS.isWhiteSpace a && all_white s'
  end.

(** The text neither starts nor ends with white space. *)
Definition no_outer_space (s : string) : Prop :=
  JS.trimStart s = s /\ JS.trimEnd s = s.

(** The status of a response that was sent; 0 when the error went to [next]. *)
Definition status_of (o : outcome) : Z :=
  match o with
  | Sent r => status r
  | NextErr _ => 0
  end.

(** The response is an error object [{ error }]. *)
Definition error_text (o : outcome) : option string :=
  match o with
  | Sent {| payload := JError e |} => Some e
  | _ => None
  end.

(** The constraints of the schema on a state of the store: primary keys,
    unique e-mail addresses, column checks of [tasks] and [users], and the
    foreign key of [tasks.user_id]. *)
Definition schema_ok (db : Db) : Prop :=
  tasks_pkey db
  /\ NoDup (map User.id (users db))
  /\ users_email_key db
  /\ (forall r, In r (tasks db) -> task_row_error r = None)
  /\ (forall u, In u (users db) -> user_row_error u = None)
  /\ (forall r, In r (tasks db) -> exists u, In u (users db) /\ User.id u = Task.user_id r).

(** One request served by the backend changes the store from [db] to [db']. *)
Inductive served `{Pg} `{Bcrypt} (db : Db) : Db -> Prop :=
| served_register salt fresh now b :
    served db (snd (register salt fresh now b db))
| served_create fresh now userId b :
    served db (snd (create_task fresh now userId b db))
| served_update now userId id b :
    served db (snd (update_task now userId id b db))
| served_delete userId id :
    served db (snd (delete_task userId id db)).

(** The states the store can be in, starting from the empty tables. *)
Inductive reachable `{Pg} `{Bcrypt} : Db -> Prop :=
| reachable_empty : reachable no_users
| reachable_served db db' : reachable db -> served db db' -> reachable db'.


(** The outcome is the success status [ok] with a body that is no error
    object, or one of the listed error responses, or an error handed to
    [next]. *)
Definition answers (o : outcome) (ok : Z) (errors : list (Z * string)) : Prop :=
  (exists e, o = NextErr e)
  \/ (status_of o = ok /\ error_text o = None)
  \/ (exists st msg, In (st, msg) errors /\ o = json st (JError msg)).

(** The row POST /register inserts. *)
Definition registered `{Bcrypt} (salt fresh : string) (now : Z) (b : Credentials.t)
    : User.row :=
  {| User.id := fresh;
     User.email := JS.trim (default "" (Credentials.email b));
     User.password_hash :=
       bcrypt_hash (default "" (Credentials.password b)) SALT_ROUNDS salt;
     User.name :=
       match Credentials.name b with
       | Some n => if JS.truthy (JS.trim n) then Some (JS.trim n) else None
       | None => None
       end;
     User.created_at := now;
     User.updated_at := now |}.

(** No stored title, description, e-mail address or name starts or ends with
    white space, and no stored name is empty. *)
Definition texts_trimmed (db : Db) : Prop :=
  (forall r, In r (tasks db) ->
     no_outer_space (Task.title r)
     /\ forall d, Task.description r = Some d -> no_outer_space d)
  /\ (forall u, In u (users db) ->
        no_outer_space (User.email u)
        /\ forall n, User.name u = Some n -> no_outer_space n /\ n <> "").


(** ** frontend/src/api/client.ts *)

Module Client.

(** [class ApiError extends Error] *)
Module ApiError.
Record t := {
  message : string;
  status : Z;
  body : option body
}.
End ApiError.

(** [body?.error] on the parsed body of a response of the backend. *)
Definition body_error (b : option body) : option string :=
  match b with
  | Some (JError e) => Some e
  | Some (JTokenExpired e _ _) => Some e
  | Some (JTokenNotActive e _ _) => Some e
  | Some (JTokenInvalid e _ _) => Some e
  | _ => None
  end.

(** [body?.message] on the parsed body of a response of the backend. *)
Definition body_message (b : option body) : option string :=
  match b with
  | Some (JTokenInvalid _ m _) => Some m
  | _ => None
  end.

(** [a ?? b ?? c] on [string | undefined]. *)
Definition nullish (a b : option string) (c : string) : string :=
  match a with
  | Some v => v
  | None => match b with Some v => v | None => c end
  end.

(** [new ApiError(message, status, body)] *)
Definition new_ApiError (message : string) (status : Z) (body : option body)
    : ApiError.t :=
  {| ApiError.message := nullish (body_error body) (body_message body) message;
     ApiError.status := status;
     ApiError.body := body |}.

(** The Authorization header [request] sends: [options.token] when given
    ([Some None] is null), else the token in localStorage. *)
Definition authorization (token_option : option (option string))
    (stored : option string) : option string :=
  let token := match token_option with Some t => t | None => stored end in
  match token with
  | Some t => if JS.truthy t then Some ("Bearer " +:+ t) else None
  | None => None
  end.

(** [res.ok] *)
Definition ok (res : response) : bool :=
  (200 <=? status res) && (status res <=? 299).

(** What [request] does with the response [fetch] resolved with: it throws
    an [ApiError] ([inl]) or returns the parsed body ([inr], undefined for an
    empty text). *)
Definition request (statusText : string) (res : response)
    : ApiError.t + option body :=
  let body := match payload res with NoBody => None | b => Some b end in
  if negb (ok res)
  then inl (new_ApiError (nullish (body_error body) (body_message body) statusText)
              (status res) body)
  else inr body.



End Client.

(** ** frontend/src/pages/LoginPage.tsx *)

Module LoginPage.




End LoginPage.

(** ** frontend/src/context/AuthContext.tsx *)

Module AuthContext.

(** [interface User] of the client. *)
Record User := {
  id : string;
  email : string;
  name : option string
}.

(** The token in localStorage and the state of the provider. *)
Record state := {
  token : option string;
  user : option User;
  isLoading : bool
}.

Definition initial (stored : option string) : state :=
  {| token := stored; user := None; isLoading := true |}.

Definition isAuthenticated (st : state) : bool :=
  match user st with Some _ => true | None => false end.

(** [loadUser]; [me] is what [authApi.me()] returns or throws for the stored
    token. *)
Definition loadUser (me : string -> Client.ApiError.t + User) (st : state) : state :=
  match token st with
  | Some t =>
      if negb (JS.truthy t)
      then {| token := token st; user := None; isLoading := false |}
      else
        match me t with
        | inr u => {| token := token st; user := Some u; isLoading := false |}
        | inl _ => {| token := None; user := None; isLoading := false |}
        end
  | None => {| token := token st; user := None; isLoading := false |}
  end.

(** [login]; the argument is what [authApi.login] returned or threw.  A
    thrown error leaves the state alone and reaches the caller. *)
Definition login (result : Client.ApiError.t + string * User) (st : state) : state :=
  match result with
  | inr (t, u) => {| token := Some t; user := Some u; isLoading := isLoading st |}
  | inl _ => st
  end.

(** [register]: [authApi.register], then [authApi.login]. *)
Definition register (registered : Client.ApiError.t + unit)
    (result : Client.ApiError.t + string * User) (st : state) : state :=
  match registered with
  | inr _ => login result st
  | inl _ => st
  end.

Definition logout (st : state) : state :=
  {| token := None; user := None; isLoading := isLoading st |}.

(** One action of the provider, run from its call to its last state update
    with nothing in between. *)
Inductive step (st : state) : state -> Prop :=
| step_loadUser me : step st (loadUser me st)
| step_login result : step st (login result st)
| step_register registered result : step st (register registered result st)
| step_logout : step st (logout st).

(** The states the provider can be in after a page load. *)
Inductive reachable : state -> Prop :=
| reachable_initial stored : reachable (initial stored)
| reachable_step st st' : reachable st -> step st st' -> reachable st'.

End AuthContext.


(** ** More sample data *)

(** A stand-in for jsonwebtoken whose token is the 36-character user id
    followed by the address, and which accepts every token that long. *)
Definition echo_jwt : Jwt := {|
  jwt_sign userId email _ _ _ := userId +:+ email;
  jwt_verify token _ _ :=
    if (String.length token <? 36)%nat
    then Failed (JsonWebTokenError "jwt malformed")
    else Decoded (String.substring 0 36 token) (JS.slice 36 token)
|}.

(** A stand-in for jsonwebtoken that finds every token expired at 1000. *)
Definition expired_jwt : Jwt := {|
  jwt_sign userId email _ _ _ := userId +:+ email;
  jwt_verify _ _ _ := Failed (TokenExpiredError "jwt expired" 1000)
|}.

(** A configuration object that does hold a signing secret. *)
Definition secret_config : gmap string JS.value :=
  {[ "jwtSecret" := JS.VStr "change-me"; "port" := JS.VNum 3000 ]}.

(** [{ title: "Buy milk", status: " done " }] *)
Definition spaced_status_body : Body.t :=
  {| Body.title := Some "Buy milk"; Body.description := None;
     Body.status := Some " done "; Body.priority := None; Body.due_date := None |}.

(** [?status=todo] and [?status=bogus] *)
Definition todo_query : Query.t :=
  {| Query.page := None; Query.limit := None; Query.status := Some "todo";
     Query.priority := None |}.
Definition bogus_query : Query.t :=
  {| Query.page := None; Query.limit := None; Query.status := Some "bogus";
     Query.priority := None |}.

(** Alice's identity as the middleware attaches it. *)
Definition alice_identity : AuthUser :=
  {| userId := alice; email := "alice@example.com" |}.

(** The store after Alice registered and created "Buy milk". *)
Definition after_two_requests : Db :=
  snd (@create_task sample_pg task9 500 alice milk_body
         (snd (@register sample_bcrypt sample_salt alice 100 alice_login no_users))).

(** The provider after a page load without token and a successful login. *)
Definition logged_in : AuthContext.state :=
  AuthContext.login
    (inr ("token-of-alice",
          {| AuthContext.id := alice; AuthContext.email := "alice@example.com";
             AuthContext.name := None |}))
    (AuthContext.initial None).


(** ** Request bodies of any type *)

(** What [express.json()] hands to a handler. *)
Module Json.

(** The double a numeral parses to: [m * 2 ^ e], or an infinity for a
    numeral out of range. *)
Inductive number :=
| Finite (m e : Z)
| Infinite (negative : bool).

(** A parsed value; [Undefined] is what a missing property reads as. *)
#[warnings="-register-all"]
Inductive t :=
| Undefined
| Null
| Bool (b : bool)
| Num (x : number)
| Str (s : string)
| Arr (items : list t)
| Obj (props : list (string * t)).

(** [!!v] *)
Definition truthy (v : t) : bool :=
  match v with
  | Undefined | Null => false
  | Bool b => b
  | Num (Finite m _) => negb (m =? 0)
  | Num (Infinite _) => true
  | Str s => JS.truthy s
  | Arr _ | Obj _ => true
  end.

(** [v === undefined || v === null] *)
Definition nullish (v : t) : bool :=
  match v with
  | Undefined | Null => true
  | _ => false
  end.

(** [body.k] on a parsed body, whose keys are pairwise distinct. *)
Definition prop (body : t) (k : string) : t :=
  match body with
  | Obj props =>
      match find (fun p => String.eqb (fst p) k) props with
      | Some p => snd p
      | None => Undefined
      end
  | _ => Undefined
  end.

(** A [string | undefined] as a parsed value. *)
Definition of_option (o : option string) : t :=
  match o with
  | Some s => Str s
  | None => Undefined
  end.

End Json.

(** What ends a handler other than a response or an error of the store: a
    property read from undefined or null, a method called on a value that
    has none ([(123).trim()]), or data that [bcrypt] refuses.  [asyncHandler] hands it to [next] like a store
    error. *)
Inductive exception :=
| TypeError
| BcryptArguments.

Inductive handled :=
| Returned (o : outcome)
| Threw (e : exception).

(** [v?.trim()] *)
Definition optional_trim (v : Json.t) : exception + option string :=
  match v with
  | Json.Undefined | Json.Null => inr None
  | Json.Str s => inr (Some (JS.trim s))
  | _ => inl TypeError
  end.

(** node-postgres: the text it sends for a parameter that is a number, a
    boolean, an array or an object. *)
Class Driver := {
  prepareValue : Json.t -> string
}.

(** A Credentials body and a task body as parsed values. *)
Definition json_of_credentials (b : Credentials.t) : Json.t :=
  Json.Obj [("email", Json.of_option (Credentials.email b));
            ("password", Json.of_option (Credentials.password b));
            ("name", Json.of_option (Credentials.name b))].

Definition json_of_body (b : Body.t) : Json.t :=
  Json.Obj [("title", Json.of_option (Body.title b));
            ("description", Json.of_option (Body.description b));
            ("status", Json.of_option (Body.status b));
            ("priority", Json.of_option (Body.priority b));
            ("due_date", match Body.due_date b with
                         | Some (Some v) => Json.Str v
                         | Some None => Json.Null
                         | None => Json.Undefined
                         end)].

Section UntypedBodies.
Context `{Pg} `{Jwt} `{Bcrypt} `{Driver}.

(** POST /login, for any parsed body. *)
Definition login_json (config : gmap string JS.value) (now : Z) (body : Json.t)
    (db : Db) : handled :=
  if Json.nullish body then Threw TypeError else
  let email := Json.prop body "email" in
  let password := Json.prop body "password" in
  if negb (Json.truthy email) || negb (Json.truthy password)
  then Returned (json 400 (JError "Email and password are required"))
  else
    match email with
    | Json.Str email =>
        match select_users_by_email (JS.trim email) db with
        | [] => Returned (json 401 (JError "Invalid email or password"))
        | row :: _ =>
            match password with
            | Json.Str password =>
                if negb (bcrypt_compare password (User.password_hash row))
                then Returned (json 401 (JError "Invalid email or password"))
                else
                  if negb (JS.truthy_value (JS.get config "jwtSecret"))
                  then Returned (json 500 (JError "Server misconfiguration"))
                  else
                    let token := jwt_sign (User.id row) (User.email row)
                                   (JS.get config "jwtSecret") SEVEN_DAYS now in
                    Returned (json 200 (JLogin token (User.id row) (User.email row)
                                          (User.name row)))
            | _ => Threw BcryptArguments
            end
        end
    | _ => Threw TypeError
    end.

(** POST / of the tasks router, for any parsed body. *)
Definition create_task_json (fresh : string) (now : Z) (userId : string)
    (body : Json.t) (db : Db) : handled * Db :=
  if Json.nullish body then (Threw TypeError, db) else
  let description := Json.prop body "description" in
  let status := Json.prop body "status" in
  let priority := Json.prop body "priority" in
  let due_date := Json.prop body "due_date" in
  match Json.prop body "title" with
  | Json.Str title =>
      if negb (JS.truthy title) || negb (JS.truthy (JS.trim title))
      then (Returned (json 400 (JError "Title is required")), db)
      else
        match optional_trim status with
        | inl e => (Threw e, db)
        | inr status =>
            match optional_trim priority with
            | inl e => (Threw e, db)
            | inr priority =>
                let taskStatus := JS.str_or status "todo" in
                let taskPriority := JS.str_or priority "medium" in
                if negb (JS.includes STATUSES taskStatus)
                then (Returned (json 400 (JError "Invalid status")), db)
                else if negb (JS.includes PRIORITIES taskPriority)
                then (Returned (json 400 (JError "Invalid priority")), db)
                else
                  let dueDate :=
                    match due_date with
                    | Json.Null => Json.Null
                    | Json.Str v => if String.eqb v "" then Json.Null else due_date
                    | _ => due_date
                    end in
                  match optional_trim description with
                  | inl e => (Threw e, db)
                  | inr description =>
                      match insert_task fresh now userId (JS.trim title)
                              (match description with
                               | Some d => if JS.truthy d then Some d else None
                               | None => None
                               end)
                              taskStatus taskPriority
                              (if Json.truthy dueDate
                               then Some match dueDate with
                                         | Json.Str v => v
                                         | v => prepareValue v
                                         end
                               else None) db with
                      | PgErr e => (Returned (NextErr e), db)
                      | PgOk (row, db') =>
                          (Returned (json 201 (JTask (rowToTask row))), db')
                      end
                  end
            end
        end
  | _ => (Returned (json 400 (JError "Title is required")), db)
  end.

End UntypedBodies.

(** [err.name] of an error of [jwt.verify]. *)
Definition error_name (err : jwt_error) : string :=
  match err with
  | TokenExpiredError _ _ => "TokenExpiredError"
  | NotBeforeError _ _ => "NotBeforeError"
  | JsonWebTokenError _ => "JsonWebTokenError"
  end.

(** The (id, owner, creation time) of a task row. *)
Definition row_identity (r : Task.row) : string * string * Z :=
  (Task.id r, Task.user_id r, Task.created_at r).

(** A driver that prints nothing a timestamp could be read from. *)
Definition sample_driver : Driver := {| prepareValue _ := "[object]" |}.



(** [{ title: 123 }] *)
Definition number_title_body : Json.t :=
  Json.Obj [("title", Json.Num (Json.Finite 123 0))].


(** * Properties *)

Section Properties.
Context `{Pg}.

Lemma db_eta (db : Db) : {| users := users db; tasks := tasks db |} = db.
Proof. destruct db; reflexivity. Qed.

Lemma filter_nil_iff {A} (f : A -> bool) (l : list A) :
  (forall x, In x l -> f x = false) -> List.filter f l = [].
Proof.
  induction l as [|a l IH]; intros Hf; simpl; [reflexivity|].
  rewrite (Hf a) by (left; reflexivity).
  apply IH. intros x Hx. apply Hf. right; exact Hx.
Qed.

Lemma filter_all {A} (f : A -> bool) (l : list A) :
  (forall x, In x l -> f x = true) -> List.filter f l = l.
Proof.
  induction l as [|a l IH]; intros Hf; simpl; [reflexivity|].
  rewrite (Hf a) by (left; reflexivity).
  f_equal. apply IH. intros x Hx. apply Hf. right; exact Hx.
Qed.

Lemma map_unmatched {A} (f : A -> bool) (g : A -> A) (l : list A) :
  (forall x, In x l -> f x = false) -> map (fun x => if f x then g x else x) l = l.
Proof.
  induction l as [|a l IH]; intros Hf; simpl; [reflexivity|].
  rewrite (Hf a) by (left; reflexivity).
  f_equal. apply IH. intros x Hx. apply Hf. right; exact Hx.
Qed.

(** Two rows of the table with one primary key are one row. *)
Lemma pkey_inj (db : Db) (x y : Task.row) :
  tasks_pkey db -> In x (tasks db) -> In y (tasks db) ->
  Task.id x = Task.id y -> x = y.
Proof.
  unfold tasks_pkey. generalize (tasks db) as l.
  induction l as [|a l IH]; simpl; intros Hnd Hx Hy Heq; [contradiction|].
  inversion Hnd as [|a' l' Hnotin Hnd']; subst.
  destruct Hx as [->|Hx], Hy as [->|Hy]; try reflexivity.
  - exfalso. apply Hnotin. apply list_elem_of_In. rewrite Heq. apply in_map; exact Hy.
  - exfalso. apply Hnotin. apply list_elem_of_In. rewrite <- Heq. apply in_map; exact Hx.
  - apply IH; assumption.
Qed.

Lemma bind_id_owner (id userId i u : string) :
  uuid_in id = Some i -> uuid_in userId = Some u ->
  bind_conditions [IdEq id; UserIdEq userId] = Some [IdEq i; UserIdEq u].
Proof. intros Hi Hu. simpl. rewrite Hi, Hu. reflexivity. Qed.

Lemma where_id_owner (i u : string) (r : Task.row) :
  where_ [IdEq i; UserIdEq u] r
  = String.eqb (Task.id r) i && String.eqb (Task.user_id r) u.
Proof. unfold where_; simpl. rewrite andb_true_r. reflexivity. Qed.

Lemma unmatched_foreign (db : Db) (t : Task.row) (u : string) :
  tasks_pkey db -> In t (tasks db) -> Task.user_id t <> u ->
  unmatched db (Task.id t) u.
Proof.
  intros Hpk Ht Hne r Hr. rewrite where_id_owner.
  destruct (String.eqb (Task.id r) (Task.id t)) eqn:Hid; [|reflexivity].
  apply String.eqb_eq in Hid.
  rewrite (pkey_inj db r t Hpk Hr Ht Hid).
  simpl. apply String.eqb_neq. exact Hne.
Qed.

Lemma unmatched_absent (db : Db) (i u : string) :
  (forall r, In r (tasks db) -> Task.id r <> i) -> unmatched db i u.
Proof.
  intros Habs r Hr. rewrite where_id_owner.
  apply Habs in Hr. apply String.eqb_neq in Hr. rewrite Hr. reflexivity.
Qed.

Lemma select_unmatched (db : Db) (id userId i u : string) :
  uuid_in id = Some i -> uuid_in userId = Some u -> unmatched db i u ->
  select_tasks [IdEq id; UserIdEq userId] db = PgOk [].
Proof.
  intros Hi Hu Hun. unfold select_tasks.
  rewrite (bind_id_owner _ _ _ _ Hi Hu).
  rewrite filter_nil_iff by exact Hun. reflexivity.
Qed.

Lemma get_unmatched (db : Db) (id userId i u : string) :
  uuid_in id = Some i -> uuid_in userId = Some u -> unmatched db i u ->
  get_task userId id db = task_not_found.
Proof.
  intros Hi Hu Hun. unfold get_task.
  rewrite (select_unmatched db id userId i u) by assumption. reflexivity.
Qed.

Lemma delete_unmatched (db : Db) (id userId i u : string) :
  uuid_in id = Some i -> uuid_in userId = Some u -> unmatched db i u ->
  delete_task userId id db = (task_not_found, db).
Proof.
  intros Hi Hu Hun. unfold delete_task, delete_tasks.
  rewrite (bind_id_owner _ _ _ _ Hi Hu).
  rewrite filter_nil_iff by exact Hun.
  rewrite filter_all by (intros x Hx; rewrite (Hun x Hx); reflexivity).
  rewrite db_eta. reflexivity.
Qed.

Lemma update_unmatched (now : Z) (db : Db) (id userId i u : string) (b : Body.t) :
  uuid_in id = Some i -> uuid_in userId = Some u -> unmatched db i u ->
  update_task now userId id b db = (unmatched_patch_outcome b, db).
Proof.
  intros Hi Hu Hun. unfold update_task, unmatched_patch_outcome.
  destruct (match Body.status b with Some s => _ | None => _ end); [reflexivity|].
  destruct (match Body.priority b with Some p => _ | None => _ end); [reflexivity|].
  destruct (patch_values b) as [|a l] eqn:Hv.
  - simpl. rewrite (select_unmatched db id userId i u) by assumption. reflexivity.
  - change ((length (a :: l) =? 0)%nat) with false. cbv iota.
    unfold update_tasks. rewrite (bind_id_owner _ _ _ _ Hi Hu).
    destruct (first_error assignment_error (a :: l)); [reflexivity|].
    rewrite filter_nil_iff by exact Hun.
    rewrite map_unmatched by exact Hun. rewrite db_eta. reflexivity.
Qed.

Lemma bind_list_conditions (userId u : string) (q : Query.t) :
  uuid_in userId = Some u ->
  bind_conditions (list_conditions userId q) = Some (list_conditions u q).
Proof.
  intros Hu. unfold list_conditions.
  destruct (JS.truthy_opt (Query.status q)), (JS.truthy_opt (Query.priority q));
    simpl; rewrite Hu; reflexivity.
Qed.

Lemma where_list_conditions (u : string) (q : Query.t) (db : Db) :
  List.filter (where_ (list_conditions u q)) (tasks db) = matching u q db.
Proof.
  unfold matching. apply filter_ext. intros r. unfold where_, list_conditions.
  destruct (JS.truthy_opt (Query.status q)), (JS.truthy_opt (Query.priority q));
    simpl; rewrite ?andb_true_r, ?andb_assoc; reflexivity.
Qed.

(** The rows GET / matches belong to the caller. *)
Lemma matching_owner (u : string) (q : Query.t) (db : Db) (r : Task.row) :
  In r (matching u q db) -> In r (tasks db) /\ Task.user_id r = u.
Proof.
  unfold matching. rewrite filter_In. intros [Hin Hc]. split; [exact Hin|].
  apply andb_true_iff in Hc as [Hc _]. apply andb_true_iff in Hc as [Hc _].
  apply String.eqb_eq. exact Hc.
Qed.

(** GET / in closed form. *)
Lemma list_tasks_eq (order_by : list Task.row -> list Task.row)
    (userId u : string) (q : Query.t) (db : Db) :
  uuid_in userId = Some u ->
  list_tasks order_by userId q db =
    if JS.truthy_opt (Query.status q)
       && negb (JS.includes STATUSES (JS.String_ (Query.status q)))
    then json 400 (JError "Invalid status")
    else if JS.truthy_opt (Query.priority q)
            && negb (JS.includes PRIORITIES (JS.String_ (Query.priority q)))
    then json 400 (JError "Invalid priority")
    else json 200
           (JTaskList
              (map rowToTask
                 (take (Z.to_nat (limit_of q))
                    (drop (Z.to_nat (offset_of q)) (order_by (matching u q db)))))
              (Z.of_nat (length (matching u q db))) (page_of q) (limit_of q)).
Proof.
  intros Hu. unfold list_tasks, select_count, select_page, select_tasks.
  rewrite (bind_list_conditions _ _ _ Hu), where_list_conditions.
  reflexivity.
Qed.

Lemma in_take_drop {A} (n m : nat) (l : list A) (x : A) :
  In x (take n (drop m l)) -> In x l.
Proof.
  intros Hx. apply list_elem_of_In in Hx. apply list_elem_of_In.
  apply elem_of_take in Hx as (i & Hi & _).
  rewrite lookup_drop in Hi. eapply list_elem_of_lookup_2; exact Hi.
Qed.

(** Every task GET / returns is a stored task of the caller. *)
Lemma list_tasks_scoped (order_by : list Task.row -> list Task.row)
    (userId u : string) (q : Query.t) (db : Db) (x : Task.row) :
  emits_matching_rows order_by ->
  uuid_in userId = Some u ->
  In x (data_of (list_tasks order_by userId q db)) ->
  exists r, In r (tasks db) /\ Task.user_id r = u /\ x = rowToTask r.
Proof.
  intros Hob Hu. rewrite (list_tasks_eq _ _ _ _ _ Hu).
  destruct (_ && _); [intros []|].
  destruct (_ && _); [intros []|].
  simpl. rewrite in_map_iff. intros (r & <- & Hr).
  apply in_take_drop, Hob, matching_owner in Hr as [Hin Hown].
  exists r. auto.
Qed.

Lemma first_error_app {A} (f : A -> option string) (l1 l2 : list A) :
  first_error f (l1 ++ l2) =
    match first_error f l1 with
    | Some e => Some e
    | None => first_error f l2
    end.
Proof.
  induction l1 as [|a l1 IH]; simpl; [reflexivity|].
  destruct (f a); [reflexivity|exact IH].
Qed.

Lemma includes_STATUSES (s : string) :
  JS.includes STATUSES s = true -> s = "todo" \/ s = "in_progress" \/ s = "done".
Proof.
  unfold JS.includes, STATUSES; simpl. rewrite orb_false_r.
  rewrite !orb_true_iff, !String.eqb_eq. tauto.
Qed.

Lemma includes_PRIORITIES (s : string) :
  JS.includes PRIORITIES s = true -> s = "low" \/ s = "medium" \/ s = "high".
Proof.
  unfold JS.includes, PRIORITIES; simpl. rewrite orb_false_r.
  rewrite !orb_true_iff, !String.eqb_eq. tauto.
Qed.

(** The store binds every parameter of an accepted PATCH body. *)
Lemma patch_accepted_binds (b : Body.t) :
  patch_accepted b -> first_error assignment_error (patch_values b) = None.
Proof.
  intros (Hs & Hp & Ht & Hd). unfold patch_values.
  rewrite !first_error_app.
  assert (first_error assignment_error
            match Body.title b with Some v => [SetTitle (JS.trim v)] | None => [] end
          = None) as ->.
  { destruct (Body.title b) as [v|]; [|reflexivity]. simpl.
    specialize (Ht v eq_refl). apply Z.ltb_ge in Ht. rewrite Ht. reflexivity. }
  assert (first_error assignment_error
            match Body.description b with
            | Some v => [SetDescription (JS.trim v)]
            | None => []
            end = None) as ->.
  { destruct (Body.description b); reflexivity. }
  assert (first_error assignment_error
            match Body.status b with Some v => [SetStatus v] | None => [] end
          = None) as ->.
  { destruct (Body.status b) as [v|]; [|reflexivity].
    destruct (includes_STATUSES v (Hs v eq_refl)) as [->|[->| ->]]; reflexivity. }
  assert (first_error assignment_error
            match Body.priority b with Some v => [SetPriority v] | None => [] end
          = None) as ->.
  { destruct (Body.priority b) as [v|]; [|reflexivity].
    destruct (includes_PRIORITIES v (Hp v eq_refl)) as [->|[->| ->]]; reflexivity. }
  destruct (Body.due_date b) as [[d|]|]; try reflexivity. simpl.
  destruct (String.eqb d "") eqn:Hd0; [reflexivity|].
  apply String.eqb_neq in Hd0. destruct (Hd d eq_refl Hd0) as [z ->].
  reflexivity.
Qed.

Lemma patch_accepted_unmatched (b : Body.t) :
  patch_accepted b -> unmatched_patch_outcome b = task_not_found.
Proof.
  intros Hacc. unfold unmatched_patch_outcome.
  rewrite (patch_accepted_binds b Hacc).
  destruct Hacc as (Hs & Hp & _).
  destruct (Body.status b) as [s|]; [rewrite (Hs s eq_refl)|];
    (destruct (Body.priority b) as [p|]; [rewrite (Hp p eq_refl)|]); reflexivity.
Qed.

(** C1 (row-level scoping).  For a caller and a stored task owned by someone
    else: GET, DELETE and every accepted PATCH of that task answer 404
    "Task not found" and leave the store as it was; for every body, the three
    answers are the ones given for an id that names no row at all; and no
    list request of the caller, whatever its filter, page and limit and
    whatever order the store emits rows in, returns that task or any task
    owned by someone else. *)
Theorem row_level_scoping (db : Db) (t : Task.row) (userId caller id : string) :
  tasks_pkey db ->
  In t (tasks db) ->
  uuid_in userId = Some caller ->
  Task.user_id t <> caller ->
  uuid_in id = Some (Task.id t) ->
  get_task userId id db = task_not_found
  /\ delete_task userId id db = (task_not_found, db)
  /\ (forall now b, patch_accepted b ->
        update_task now userId id b db = (task_not_found, db))
  /\ (forall id' i',
        uuid_in id' = Some i' ->
        (forall r, In r (tasks db) -> Task.id r <> i') ->
        get_task userId id' db = get_task userId id db
        /\ delete_task userId id' db = delete_task userId id db
        /\ forall now b,
             update_task now userId id' b db = update_task now userId id b db)
  /\ (forall order_by q x,
        emits_matching_rows order_by ->
        In x (data_of (list_tasks order_by userId q db)) ->
        Task.user_id x = caller /\ Task.id x <> Task.id t).
Proof.
  intros Hpk Ht Hu Hne Hid.
  pose proof (unmatched_foreign db t caller Hpk Ht Hne) as Hun.
  repeat split.
  - eapply get_unmatched; eassumption.
  - eapply delete_unmatched; eassumption.
  - intros now b Hacc.
    rewrite (update_unmatched now db id userId _ _ b Hid Hu Hun).
    rewrite (patch_accepted_unmatched b Hacc). reflexivity.
  - rewrite (get_unmatched db id userId _ _ Hid Hu Hun).
    eapply get_unmatched; eauto using unmatched_absent.
  - rewrite (delete_unmatched db id userId _ _ Hid Hu Hun).
    eapply delete_unmatched; eauto using unmatched_absent.
  - intros now b.
    rewrite (update_unmatched now db id userId _ _ b Hid Hu Hun).
    eapply update_unmatched; eauto using unmatched_absent.
  - destruct (list_tasks_scoped order_by userId caller q db x) as (r & _ & Hown & ->);
      assumption.
  - destruct (list_tasks_scoped order_by userId caller q db x) as (r & Hr & Hown & ->);
      try assumption.
    simpl. intros Heq. apply Hne. rewrite <- Hown.
    f_equal. symmetry. eapply pkey_inj; eassumption.
Qed.

(** The SET clauses the handler builds compute the partial update. *)
Lemma set_row_patched (now : Z) (b : Body.t) (r : Task.row) :
  set_row now (patch_values b) r = patched now b r.
Proof.
  unfold set_row, patch_values, patched.
  destruct b as [ti de st pr du]; simpl.
  destruct ti, de, st, pr, du as [[d|]|]; simpl; try reflexivity;
    destruct (String.eqb d ""); reflexivity.
Qed.

Lemma patch_values_nil (b : Body.t) :
  patch_values b = [] <-> b = empty_body.
Proof.
  split.
  - destruct b as [ti de st pr du]; unfold patch_values; simpl.
    destruct ti, de, st, pr, du as [[d|]|]; simpl; try discriminate.
    reflexivity.
  - intros ->. reflexivity.
Qed.

(** The one row with the key and the owner. *)
Lemma filter_owned (db : Db) (r : Task.row) (u : string) :
  tasks_pkey db -> In r (tasks db) -> Task.user_id r = u ->
  List.filter (where_ [IdEq (Task.id r); UserIdEq u]) (tasks db) = [r].
Proof.
  unfold tasks_pkey. intros Hnd Hin Hu. revert Hnd Hin.
  generalize (tasks db) as l.
  induction l as [|a l IH]; cbn [List.filter map In]; intros Hnd Hin;
    [contradiction|].
  inversion Hnd as [|a' l' Hnotin Hnd']; subst a' l'.
  rewrite where_id_owner.
  destruct Hin as [->|Hin].
  - rewrite Hu, !String.eqb_refl. cbn [andb]. f_equal.
    apply filter_nil_iff. intros x Hx. rewrite where_id_owner.
    destruct (String.eqb (Task.id x) (Task.id r)) eqn:E; [|reflexivity].
    exfalso. apply Hnotin. apply list_elem_of_In.
    apply String.eqb_eq in E. rewrite <- E. apply in_map; exact Hx.
  - destruct (String.eqb (Task.id a) (Task.id r)) eqn:E.
    + exfalso. apply Hnotin. apply list_elem_of_In.
      apply String.eqb_eq in E. rewrite E. apply in_map; exact Hin.
    + cbn [andb]. apply IH; assumption.
Qed.

Lemma where_owned_iff (db : Db) (r x : Task.row) (u : string) :
  tasks_pkey db -> In r (tasks db) -> In x (tasks db) -> Task.user_id r = u ->
  where_ [IdEq (Task.id r); UserIdEq u] x = String.eqb (Task.id x) (Task.id r).
Proof.
  intros Hpk Hr Hx Hu. rewrite where_id_owner.
  destruct (String.eqb (Task.id x) (Task.id r)) eqn:E; [|reflexivity].
  apply String.eqb_eq in E.
  rewrite (pkey_inj db x r Hpk Hx Hr E), Hu, String.eqb_refl. reflexivity.
Qed.

Lemma task_row_error_None (r : Task.row) :
  task_row_error r = None <->
  strlen (Task.title r) <= 500
  /\ JS.includes ["todo"; "in_progress"; "done"] (Task.status r) = true
  /\ JS.includes ["low"; "medium"; "high"] (Task.priority r) = true.
Proof.
  unfold task_row_error. split.
  - destruct (_ || _) eqn:E1; [discriminate|].
    destruct (negb _ || _) eqn:E2; [discriminate|]. intros _.
    apply orb_false_iff in E1 as [E1 _]. apply orb_false_iff in E1 as [E1 _].
    apply orb_false_iff in E2 as [E2 E3].
    apply negb_false_iff in E2, E3. apply Z.ltb_ge in E1. auto.
  - intros (Ht & Hs & Hp). rewrite Hs, Hp. simpl.
    apply Z.ltb_ge in Ht. rewrite Ht. simpl.
    destruct (includes_STATUSES _ Hs) as [->|[->| ->]];
      destruct (includes_PRIORITIES _ Hp) as [->|[->| ->]]; reflexivity.
Qed.

(** An accepted partial update of a lawful row is a lawful row. *)
Lemma patched_lawful (now : Z) (b : Body.t) (r : Task.row) :
  patch_accepted b -> task_row_error r = None ->
  task_row_error (patched now b r) = None.
Proof.
  intros (Hs & Hp & Ht & _). rewrite !task_row_error_None.
  intros (Rt & Rs & Rp). unfold patched; simpl. repeat split.
  - destruct (Body.title b) as [v|]; [apply (Ht v eq_refl)|exact Rt].
  - destruct (Body.status b) as [v|]; [apply (Hs v eq_refl)|exact Rs].
  - destruct (Body.priority b) as [v|]; [apply (Hp v eq_refl)|exact Rp].
Qed.

(** PATCH of an owned row with at least one field. *)
Lemma update_owned (now : Z) (db : Db) (r : Task.row) (userId u id : string)
    (b : Body.t) :
  tasks_pkey db -> In r (tasks db) -> task_row_error r = None ->
  uuid_in userId = Some u -> Task.user_id r = u ->
  uuid_in id = Some (Task.id r) ->
  patch_accepted b -> b <> empty_body ->
  update_task now userId id b db =
    (json 200 (JTask (rowToTask (patched now b r))),
     replace_row r (patched now b r) db).
Proof.
  intros Hpk Hin Hlaw Hu Hown Hid Hacc Hne. unfold update_task.
  pose proof Hacc as (Hs & Hp & _).
  assert ((match Body.status b with
           | Some s => negb (JS.includes STATUSES s)
           | None => false
           end) = false) as ->.
  { destruct (Body.status b) as [s|]; [rewrite (Hs s eq_refl)|]; reflexivity. }
  assert ((match Body.priority b with
           | Some p => negb (JS.includes PRIORITIES p)
           | None => false
           end) = false) as ->.
  { destruct (Body.priority b) as [p|]; [rewrite (Hp p eq_refl)|]; reflexivity. }
  destruct (patch_values b) as [|a l] eqn:Hv.
  { exfalso. apply Hne. apply patch_values_nil. exact Hv. }
  change ((length (a :: l) =? 0)%nat) with false. cbv iota.
  rewrite <- Hv. unfold update_tasks.
  rewrite (bind_id_owner _ _ _ _ Hid Hu).
  rewrite (patch_accepted_binds b Hacc).
  rewrite (filter_owned db r u Hpk Hin Hown).
  cbn [map first_error]. rewrite set_row_patched.
  rewrite (patched_lawful now b r Hacc Hlaw).
  unfold replace_row. do 2 f_equal.
  apply map_ext_in. intros x Hx.
  rewrite (where_owned_iff db r x u Hpk Hin Hx Hown).
  destruct (String.eqb (Task.id x) (Task.id r)) eqn:E; [|reflexivity].
  apply String.eqb_eq in E. rewrite (pkey_inj db x r Hpk Hx Hin E).
  apply set_row_patched.
Qed.

(** PATCH of an owned row with no field: one SELECT, no write. *)
Lemma update_no_field (now : Z) (db : Db) (r : Task.row) (userId u id : string) :
  tasks_pkey db -> In r (tasks db) ->
  uuid_in userId = Some u -> Task.user_id r = u ->
  uuid_in id = Some (Task.id r) ->
  update_task now userId id empty_body db = (json 200 (JTask (rowToTask r)), db).
Proof.
  intros Hpk Hin Hu Hown Hid. unfold update_task; simpl.
  unfold select_tasks. rewrite (bind_id_owner _ _ _ _ Hid Hu).
  rewrite (filter_owned db r u Hpk Hin Hown). reflexivity.
Qed.

Lemma empty_body_accepted : patch_accepted empty_body.
Proof. repeat split; simpl; intros; discriminate. Qed.

(** C3 (partial update, as the handler implements it).  A PATCH of an owned
    task that supplies at least one field stores, for every field, the
    supplied value when the field is present and the stored value when it is
    absent, refreshes [updated_at], leaves every other row alone and returns
    the stored record.  A PATCH without any field writes nothing: it returns
    the current record, [updated_at] included, and leaves the store as it was;
    it still checks ownership, so another user gets 404. *)
Theorem partial_update (now : Z) (db : Db) (r : Task.row)
    (userId caller id : string) (b : Body.t) :
  tasks_pkey db -> In r (tasks db) -> task_row_error r = None ->
  uuid_in userId = Some caller -> Task.user_id r = caller ->
  uuid_in id = Some (Task.id r) ->
  patch_accepted b ->
  (b <> empty_body ->
     update_task now userId id b db =
       (json 200 (JTask (rowToTask (patched now b r))),
        replace_row r (patched now b r) db))
  /\ update_task now userId id empty_body db = (json 200 (JTask (rowToTask r)), db)
  /\ (forall other stranger,
        uuid_in other = Some stranger -> stranger <> caller ->
        update_task now other id empty_body db = (task_not_found, db)).
Proof.
  intros Hpk Hin Hlaw Hu Hown Hid Hacc. repeat split.
  - intros Hne. eapply update_owned; eassumption.
  - eapply update_no_field; eassumption.
  - intros other stranger Ho Hs.
    rewrite (update_unmatched now db id other (Task.id r) stranger empty_body Hid Ho).
    + rewrite (patch_accepted_unmatched _ empty_body_accepted). reflexivity.
    + apply unmatched_foreign; [assumption..|]. rewrite Hown. auto.
Qed.

Lemma truthy_true (s : string) : s <> "" -> JS.truthy s = true.
Proof. intros Hs. unfold JS.truthy. apply String.eqb_neq in Hs. rewrite Hs. reflexivity. Qed.

Lemma not_blank_nonempty (s : string) : ~ blank s -> s <> "".
Proof. intros Hb ->. apply Hb. reflexivity. Qed.

Lemma existsb_false {A} (f : A -> bool) (l : list A) :
  (forall x, In x l -> f x = false) -> existsb f l = false.
Proof.
  induction l as [|a l IH]; intros Hf; simpl; [reflexivity|].
  rewrite (Hf a) by (left; reflexivity). apply IH.
  intros x Hx. apply Hf. right; exact Hx.
Qed.

Lemma existsb_false_inv {A} (f : A -> bool) (l : list A) (x : A) :
  existsb f l = false -> In x l -> f x = false.
Proof.
  intros Hex Hin. destruct (f x) eqn:E; [|reflexivity].
  rewrite <- Hex. symmetry. apply existsb_exists. exists x. auto.
Qed.

(** POST / with a blank title is refused before the store is touched. *)
Lemma create_blank_title_rejected (fresh : string) (now : Z) (userId title : string)
    (b : Body.t) (db : Db) :
  Body.title b = Some title -> blank title ->
  create_task fresh now userId b db = (json 400 (JError "Title is required"), db).
Proof.
  intros Ht Hb. unfold create_task. rewrite Ht.
  unfold blank in Hb. rewrite Hb. simpl. rewrite orb_true_r. reflexivity.
Qed.

(** POST / without a title is refused as well. *)
Lemma create_no_title_rejected (fresh : string) (now : Z) (userId : string)
    (b : Body.t) (db : Db) :
  Body.title b = None ->
  create_task fresh now userId b db = (json 400 (JError "Title is required"), db).
Proof. intros Ht. unfold create_task. rewrite Ht. reflexivity. Qed.

(** POST / with an accepted body inserts [created] and returns it. *)
Lemma create_task_ok (fresh : string) (now : Z) (userId caller : string)
    (b : Body.t) (db : Db) :
  uuid_in userId = Some caller ->
  create_accepted fresh caller b db ->
  create_task fresh now userId b db =
    (json 201 (JTask (rowToTask (created fresh now caller b))),
     with_task (created fresh now caller b) db).
Proof.
  intros Hu ((title & Ht & Hnb & Hlen) & Hs & Hp & Hd & Hfresh & (u & Hin & Huid)).
  unfold create_task. rewrite Ht.
  rewrite (truthy_true title (not_blank_nonempty _ Hnb)).
  rewrite (truthy_true (JS.trim title) Hnb). cbn [negb orb].
  rewrite Hs, Hp. cbn [negb].
  assert (insert_task fresh now userId (JS.trim title)
            match JS.trim <$> Body.description b with
            | Some d => if JS.truthy d then Some d else None
            | None => None
            end
            (JS.str_or (JS.trim <$> Body.status b) "todo")
            (JS.str_or (JS.trim <$> Body.priority b) "medium")
            match
              match Body.due_date b with
              | Some (Some v) => if String.eqb v "" then None else Some v
              | Some None => None
              | None => None
              end
            with
            | Some d => if JS.truthy d then Some d else None
            | None => None
            end db
          = PgOk (created fresh now caller b, with_task (created fresh now caller b) db))
    as ->; [|reflexivity].
  unfold insert_task. rewrite Hu.
  assert (exists due,
            match
              match
                match Body.due_date b with
                | Some (Some v) => if String.eqb v "" then None else Some v
                | Some None => None
                | None => None
                end
              with
              | Some d => if JS.truthy d then Some d else None
              | None => None
              end
            with
            | Some d => Some <$> timestamptz_in d
            | None => Some None
            end = Some due
            /\ due = match Body.due_date b with
                     | Some (Some v) => if String.eqb v "" then None else timestamptz_in v
                     | _ => None
                     end) as (due & -> & ->).
  { destruct (Body.due_date b) as [[v|]|]; try (eexists; split; reflexivity).
    destruct (String.eqb v "") eqn:E; [eexists; split; reflexivity|].
    apply String.eqb_neq in E. rewrite (truthy_true v E).
    destruct (Hd v eq_refl E) as [z Hz]. rewrite Hz.
    eexists; split; reflexivity. }
  assert (created fresh now caller b =
          {| Task.id := fresh; Task.user_id := caller; Task.title := JS.trim title;
             Task.description :=
               match JS.trim <$> Body.description b with
               | Some d => if JS.truthy d then Some d else None
               | None => None
               end;
             Task.status := JS.str_or (JS.trim <$> Body.status b) "todo";
             Task.priority := JS.str_or (JS.trim <$> Body.priority b) "medium";
             Task.due_date :=
               match Body.due_date b with
               | Some (Some v) => if String.eqb v "" then None else timestamptz_in v
               | _ => None
               end;
             Task.created_at := now; Task.updated_at := now |}) as <-.
  { unfold created. rewrite Ht. destruct (Body.description b); reflexivity. }
  assert (task_row_error (created fresh now caller b) = None) as ->.
  { apply task_row_error_None. unfold created; simpl. rewrite Ht. auto. }
  rewrite existsb_false.
  2:{ intros x Hx. apply String.eqb_neq. apply Hfresh. exact Hx. }
  assert (existsb (fun u0 => String.eqb (User.id u0) caller) (users db) = true) as ->.
  { apply existsb_exists. exists u. split; [exact Hin|].
    apply String.eqb_eq. exact Huid. }
  reflexivity.
Qed.

Lemma replace_row_In (r r' : Task.row) (db : Db) :
  In r (tasks db) -> In r' (tasks (replace_row r r' db)).
Proof.
  intros Hin. unfold replace_row; simpl. apply in_map_iff.
  exists r. rewrite String.eqb_refl. auto.
Qed.

(** C4 (creation defaults, as the handler implements them).  An accepted
    create call inserts one row with the drawn id, the caller as owner and both
    timestamps set to the time of the insert; an omitted status is stored as
    todo, an omitted priority as medium, an omitted description and an omitted
    due date as null.  The returned record carries the id, owner, title,
    status, priority, due date and timestamps of the stored row; its
    description is the stored one, except that null is returned as the empty
    string. *)
Theorem create_defaults (fresh : string) (now : Z) (userId caller : string)
    (b : Body.t) (db : Db) :
  uuid_in userId = Some caller ->
  create_accepted fresh caller b db ->
  exists row returned,
    create_task fresh now userId b db = (json 201 (JTask returned), with_task row db)
    /\ Task.id row = fresh /\ Task.user_id row = caller
    /\ Task.created_at row = now /\ Task.updated_at row = now
    /\ (Body.status b = None -> Task.status row = "todo")
    /\ (Body.priority b = None -> Task.priority row = "medium")
    /\ (Body.description b = None -> Task.description row = None)
    /\ (Body.due_date b = None -> Task.due_date row = None)
    /\ Task.id returned = Task.id row
    /\ Task.user_id returned = Task.user_id row
    /\ Task.title returned = Task.title row
    /\ Task.status returned = Task.status row
    /\ Task.priority returned = Task.priority row
    /\ Task.due_date returned = Task.due_date row
    /\ Task.created_at returned = Task.created_at row
    /\ Task.updated_at returned = Task.updated_at row
    /\ Task.description returned = Some (default "" (Task.description row)).
Proof.
  intros Hu Hacc.
  exists (created fresh now caller b), (rowToTask (created fresh now caller b)).
  split; [apply create_task_ok; assumption|].
  unfold created; simpl.
  repeat split; try (intros ->; reflexivity).
Qed.

(** C5 (the title of a stored task).  A PATCH of an owned task whose title is
    empty or white space only is accepted: it answers 200 and the stored title
    becomes the empty string. *)
Theorem blank_title_update_stored (now : Z) (db : Db) (r : Task.row)
    (userId caller id title : string) (b : Body.t) :
  tasks_pkey db -> In r (tasks db) -> task_row_error r = None ->
  uuid_in userId = Some caller -> Task.user_id r = caller ->
  uuid_in id = Some (Task.id r) ->
  patch_accepted b ->
  Body.title b = Some title -> blank title ->
  exists r',
    update_task now userId id b db =
      (json 200 (JTask (rowToTask r')), replace_row r r' db)
    /\ In r' (tasks (replace_row r r' db))
    /\ Task.title r' = "".
Proof.
  intros Hpk Hin Hlaw Hu Hown Hid Hacc Ht Hb.
  exists (patched now b r). split; [|split].
  - eapply update_owned; try eassumption.
    intros ->. discriminate.
  - apply replace_row_In. exact Hin.
  - unfold patched; simpl. rewrite Ht. exact Hb.
Qed.

(** C10 (clearing the due date).  An accepted create call whose due_date is
    null or the empty string stores a null due date, whatever the caller
    owns already.  A PATCH of an owned task whose due_date is null or the
    empty string stores a null due date, and a PATCH that omits due_date
    leaves the stored due date as it was. *)
Theorem due_date_null_or_empty (fresh : string) (now : Z) (db : Db) (r : Task.row)
    (userId caller id : string) (b p : Body.t) :
  (uuid_in userId = Some caller ->
   create_accepted fresh caller b db ->
   Body.due_date b = Some None \/ Body.due_date b = Some (Some "") ->
   exists row,
     create_task fresh now userId b db =
       (json 201 (JTask (rowToTask row)), with_task row db)
     /\ Task.due_date row = None)
  /\ (uuid_in userId = Some caller ->
      tasks_pkey db -> In r (tasks db) -> task_row_error r = None ->
      Task.user_id r = caller -> uuid_in id = Some (Task.id r) ->
      patch_accepted p ->
      (Body.due_date p = Some None \/ Body.due_date p = Some (Some "") ->
         exists r',
           update_task now userId id p db =
             (json 200 (JTask (rowToTask r')), replace_row r r' db)
           /\ In r' (tasks (replace_row r r' db))
           /\ Task.due_date r' = None)
      /\ (Body.due_date p = None ->
            exists r' db',
              update_task now userId id p db =
                (json 200 (JTask (rowToTask r')), db')
              /\ In r' (tasks db')
              /\ Task.id r' = Task.id r
              /\ Task.due_date r' = Task.due_date r)).
Proof.
  split; [intros Hu Hcr Hd|intros Hu Hpk Hin Hlaw Hown Hid Hacc; split].
  - exists (created fresh now caller b).
    split; [apply create_task_ok; assumption|].
    unfold created; simpl. destruct Hd as [-> | ->]; reflexivity.
  - intros Hd. exists (patched now p r). split; [|split].
    + eapply update_owned; try eassumption.
      intros ->. destruct Hd; discriminate.
    + apply replace_row_In. exact Hin.
    + unfold patched; simpl. destruct Hd as [-> | ->]; reflexivity.
  - intros Hd.
    destruct (patch_values p) as [|a l] eqn:Hv.
    + apply patch_values_nil in Hv. subst p.
      exists r, db. split; [|auto].
      eapply update_no_field; eassumption.
    + exists (patched now p r), (replace_row r (patched now p r) db).
      split; [|split; [|split]].
      * eapply update_owned; try eassumption.
        intros ->. discriminate.
      * apply replace_row_In. exact Hin.
      * reflexivity.
      * unfold patched; simpl. rewrite Hd. reflexivity.
Qed.

Lemma filters_accepted_pass (q : Query.t) :
  filters_accepted q ->
  JS.truthy_opt (Query.status q)
    && negb (JS.includes STATUSES (JS.String_ (Query.status q))) = false
  /\ JS.truthy_opt (Query.priority q)
       && negb (JS.includes PRIORITIES (JS.String_ (Query.priority q))) = false.
Proof.
  intros [Hs Hp]. split.
  - destruct (JS.truthy_opt (Query.status q)); [|reflexivity].
    rewrite (Hs eq_refl). reflexivity.
  - destruct (JS.truthy_opt (Query.priority q)); [|reflexivity].
    rewrite (Hp eq_refl). reflexivity.
Qed.

(** C7 (page and limit, as the handler computes them).  The effective limit
    is 20 when [limit] is absent, does not start with an integer or reads as
    0, and otherwise the integer read clamped to the interval from 1 to 100;
    the effective page is 1 when [page] is absent or does not start with an
    integer, and otherwise the integer read raised to at least 1.  The
    response echoes both and holds the rows left after skipping
    [(page - 1) * limit] of the matching rows, at most [limit] of them.  So
    limit=500 behaves as limit=100 and page=0 or a negative page as page=1. *)
Theorem list_paging (order_by : list Task.row -> list Task.row)
    (userId caller : string) (q : Query.t) (db : Db) :
  uuid_in userId = Some caller ->
  filters_accepted q ->
  exact_paging q ->
  limit_of q =
    match JS.parseInt (JS.String_ (Query.limit q)) with
    | Some n => if n =? 0 then 20 else clamp_limit n
    | None => 20
    end
  /\ page_of q =
       match JS.parseInt (JS.String_ (Query.page q)) with
       | Some n => Z.max 1 n
       | None => 1
       end
  /\ (Query.limit q = None -> limit_of q = 20)
  /\ (Query.page q = None -> page_of q = 1)
  /\ (forall n, JS.parseInt (JS.String_ (Query.limit q)) = Some n ->
        100 <= n -> limit_of q = 100)
  /\ (forall n, JS.parseInt (JS.String_ (Query.page q)) = Some n ->
        n <= 0 -> page_of q = 1)
  /\ list_tasks order_by userId q db =
       json 200
         (JTaskList
            (map rowToTask
               (take (Z.to_nat (limit_of q))
                  (drop (Z.to_nat ((page_of q - 1) * limit_of q))
                     (order_by (matching caller q db)))))
            (Z.of_nat (length (matching caller q db))) (page_of q) (limit_of q)).
Proof.
  intros Hu Hf _. unfold limit_of, page_of, clamp_limit, JS.num_or.
  repeat split.
  - destruct (JS.parseInt (JS.String_ (Query.limit q))) as [n|]; [|reflexivity].
    destruct (n =? 0); reflexivity.
  - destruct (JS.parseInt (JS.String_ (Query.page q))) as [n|]; [|reflexivity].
    destruct (n =? 0) eqn:E; [|reflexivity].
    apply Z.eqb_eq in E. subst n. reflexivity.
  - intros ->. reflexivity.
  - intros ->. reflexivity.
  - intros n -> Hn. destruct (n =? 0) eqn:E; [apply Z.eqb_eq in E|]; lia.
  - intros n -> Hn. destruct (n =? 0); lia.
  - rewrite (list_tasks_eq order_by userId caller q db Hu).
    destruct (filters_accepted_pass q Hf) as [-> ->]. reflexivity.
Qed.

(** The object config.ts builds has no [jwtSecret] property, whatever the
    environment holds. *)
Lemma config_jwtSecret `{Runtime} (env : gmap string string) :
  JS.get (config env) "jwtSecret" = JS.VUndefined.
Proof.
  unfold JS.get, config.
  rewrite !lookup_insert_ne by discriminate.
  rewrite lookup_singleton_ne by discriminate. reflexivity.
Qed.

(** With the configuration of config.ts, a request carrying
    [Authorization: Bearer] and a non-empty token is answered 500
    "Server misconfiguration" for every environment and every token:
    [jwt.verify] is not reached. *)
Lemma authenticate_bearer_misconfigured `{Runtime} `{Jwt}
    (env : gmap string string) (c : ascii) (token : string) (now : Z) :
  authenticate (config env) (Some ("Bearer " +:+ String c token)) now
  = respond 500 (JError "Server misconfiguration").
Proof.
  unfold authenticate. simpl JS.startsWith. cbv iota.
  change (JS.slice 7 ("Bearer " +:+ String c token)) with (String c token).
  change (JS.truthy (String c token)) with true. cbv iota. cbn [negb].
  rewrite config_jwtSecret. reflexivity.
Qed.

(** The middleware answers 401 "No token provided" when the header is absent,
    does not start with "Bearer " or carries an empty token. *)
Lemma authenticate_no_token `{Jwt} (cfg : gmap string JS.value)
    (authorization : option string) (now : Z) :
  match authorization with
  | None => True
  | Some h => JS.startsWith h "Bearer " = false \/ h = "Bearer "
  end ->
  authenticate cfg authorization now = respond 401 (JError "No token provided").
Proof.
  unfold authenticate. destruct authorization as [h|]; [|reflexivity].
  intros [-> | ->]; reflexivity.
Qed.

(** The answer of the middleware to a failed verification, by error. *)
Lemma authenticate_verify_failed `{Jwt} (cfg : gmap string JS.value)
    (c : ascii) (token : string) (now : Z) (e : jwt_error) :
  JS.truthy_value (JS.get cfg "jwtSecret") = true ->
  jwt_verify (String c token) (JS.get cfg "jwtSecret") now = Failed e ->
  authenticate cfg (Some ("Bearer " +:+ String c token)) now =
    match e with
    | TokenExpiredError _ expiredAt =>
        respond 401 (JTokenExpired "Token expired" expiredAt "TOKEN_EXPIRED")
    | NotBeforeError _ date =>
        respond 401 (JTokenNotActive "Token not yet valid" date "TOKEN_NOT_ACTIVE")
    | JsonWebTokenError message =>
        respond 401 (JTokenInvalid "Invalid token" message "TOKEN_INVALID")
    end.
Proof.
  intros Hs Hv. unfold authenticate. simpl JS.startsWith. cbv iota.
  change (JS.slice 7 ("Bearer " +:+ String c token)) with (String c token).
  change (JS.truthy (String c token)) with true. cbv iota. cbn [negb].
  rewrite Hs. cbn [negb]. rewrite Hv. reflexivity.
Qed.

(** C9 (the failures of the middleware).  The middleware answers 401
    "No token provided" when the Authorization header is absent or is not
    "Bearer " followed by a token.  With a signing secret configured, a
    token that [jwt.verify] rejects is answered 401 with the failure the
    library reported and a code of its own: TOKEN_EXPIRED together with the
    expiry time, TOKEN_NOT_ACTIVE together with the start of validity, or
    TOKEN_INVALID together with the library's message.  Such an answer is
    never the one for a missing token, and two of them are equal only for
    errors of the same name. *)
Theorem authenticate_failures `{Jwt} (cfg : gmap string JS.value) (now : Z) :
  (forall authorization,
     match authorization with
     | None => True
     | Some h => JS.startsWith h "Bearer " = false \/ h = "Bearer "
     end ->
     authenticate cfg authorization now = respond 401 (JError "No token provided"))
  /\ (JS.truthy_value (JS.get cfg "jwtSecret") = true ->
      (forall token err,
         token <> "" ->
         jwt_verify token (JS.get cfg "jwtSecret") now = Failed err ->
         authenticate cfg (Some ("Bearer " +:+ token)) now =
           respond 401
             match err with
             | TokenExpiredError _ expiredAt =>
                 JTokenExpired "Token expired" expiredAt "TOKEN_EXPIRED"
             | NotBeforeError _ date =>
                 JTokenNotActive "Token not yet valid" date "TOKEN_NOT_ACTIVE"
             | JsonWebTokenError message =>
                 JTokenInvalid "Invalid token" message "TOKEN_INVALID"
             end
         /\ authenticate cfg (Some ("Bearer " +:+ token)) now
            <> respond 401 (JError "No token provided"))
      /\ (forall token token' err err',
            token <> "" -> token' <> "" ->
            jwt_verify token (JS.get cfg "jwtSecret") now = Failed err ->
            jwt_verify token' (JS.get cfg "jwtSecret") now = Failed err' ->
            authenticate cfg (Some ("Bearer " +:+ token)) now
            = authenticate cfg (Some ("Bearer " +:+ token')) now ->
            error_name err = error_name err')).
Proof.
  split.
  - intros authorization Hh. apply authenticate_no_token. exact Hh.
  - intros Hs.
    assert (forall token err, token <> "" ->
              jwt_verify token (JS.get cfg "jwtSecret") now = Failed err ->
              authenticate cfg (Some ("Bearer " +:+ token)) now =
                respond 401
                  match err with
                  | TokenExpiredError _ expiredAt =>
                      JTokenExpired "Token expired" expiredAt "TOKEN_EXPIRED"
                  | NotBeforeError _ date =>
                      JTokenNotActive "Token not yet valid" date "TOKEN_NOT_ACTIVE"
                  | JsonWebTokenError message =>
                      JTokenInvalid "Invalid token" message "TOKEN_INVALID"
                  end) as Hfail.
    { intros token err Hne Hv. destruct token as [|c token]; [contradiction|].
      rewrite (authenticate_verify_failed cfg c token now err Hs Hv).
      destruct err; reflexivity. }
    split.
    + intros token err Hne Hv. split; [apply Hfail; assumption|].
      rewrite (Hfail token err Hne Hv). destruct err; discriminate.
    + intros token token' err err' Hne Hne' Hv Hv'.
      rewrite (Hfail token err Hne Hv), (Hfail token' err' Hne' Hv').
      destruct err, err'; (reflexivity || discriminate).
Qed.

(** The one user row with a given e-mail address. *)
Lemma select_by_email_unique (db : Db) (row : User.row) (e : string) :
  users_email_key db -> In row (users db) -> User.email row = e ->
  select_users_by_email e db = [row].
Proof.
  unfold users_email_key, select_users_by_email. intros Hnd Hin He. subst e.
  revert Hnd Hin. generalize (users db) as l.
  induction l as [|a l IH]; cbn [List.filter map In]; intros Hnd Hin;
    [contradiction|].
  inversion Hnd as [|a' l' Hnotin Hnd']; subst a' l'.
  destruct Hin as [->|Hin].
  - rewrite String.eqb_refl. f_equal.
    apply filter_nil_iff. intros x Hx. apply String.eqb_neq. intros E.
    apply Hnotin. apply list_elem_of_In. rewrite <- E. apply in_map; exact Hx.
  - destruct (String.eqb (User.email a) (User.email row)) eqn:E.
    + exfalso. apply Hnotin. apply list_elem_of_In.
      apply String.eqb_eq in E. rewrite E. apply in_map; exact Hin.
    + apply IH; assumption.
Qed.


(** On a body of the types the handler declares, [login_json] is [login]. *)
Lemma login_json_typed `{Jwt} `{Bcrypt} (cfg : gmap string JS.value) (now : Z)
    (b : Credentials.t) (db : Db) :
  login_json cfg now (json_of_credentials b) db = Returned (login cfg now b db).
Proof.
  unfold login_json, login, json_of_credentials.
  cbn [Json.nullish Json.prop find fst snd String.eqb Ascii.eqb Bool.eqb].
  destruct (Credentials.email b) as [e|], (Credentials.password b) as [pw|];
    cbn [Json.of_option Json.truthy negb orb]; try reflexivity.
  - destruct (JS.truthy e); cbn [negb orb]; [|reflexivity].
    destruct (JS.truthy pw); cbn [negb]; [|reflexivity].
    destruct (select_users_by_email (JS.trim e) db) as [|row rows]; [reflexivity|].
    destruct (bcrypt_compare pw (User.password_hash row)); cbn [negb];
      [|reflexivity].
    destruct (JS.truthy_value (JS.get cfg "jwtSecret")); reflexivity.
  - destruct (JS.truthy e); reflexivity.
Qed.


(** C2 (register, then login).  With the configuration of config.ts, after a
    registration answered 201 the login with the same e-mail address and
    password finds the user and the password matches, and the answer is 500
    "Server misconfiguration" for every environment: no token is issued. *)
Theorem register_then_login_misconfigured `{Runtime} `{Jwt} `{Bcrypt}
    (env : gmap string string) (salt fresh : string) (now later : Z)
    (creds : Credentials.t) (e p : string) (db db' : Db) (created_user : body) :
  Credentials.email creds = Some e -> Credentials.password creds = Some p ->
  bcrypt_compare p (bcrypt_hash p SALT_ROUNDS salt) = true ->
  register salt fresh now creds db = (json 201 created_user, db') ->
  login (config env) later creds db' = json 500 (JError "Server misconfiguration").
Proof.
  intros He Hp Hcmp. unfold register, login. rewrite He, Hp.
  destruct (negb (JS.truthy e) || negb (JS.truthy p)); [discriminate|].
  unfold insert_user.
  destruct (user_row_error _) as [code|];
    [destruct (String.eqb code "23505"); discriminate|].
  destruct (existsb _ (users db)) eqn:Hex; [discriminate|].
  intros [= _ <-]. cbn [users].
  unfold select_users_by_email. cbn [users]. rewrite List.filter_app.
  rewrite filter_nil_iff.
  2:{ intros u Hu. apply existsb_false_inv with (x := u) in Hex; [|exact Hu].
      apply orb_false_iff in Hex as [_ Hex]. exact Hex. }
  cbn [List.filter User.email app]. rewrite String.eqb_refl.
  cbn [User.password_hash]. rewrite Hcmp. cbn [negb].
  rewrite config_jwtSecret. reflexivity.
Qed.

(** *** ORDER BY created_at DESC *)

Lemma insert_before_ties_perm (r : Task.row) (l : list Task.row) :
  Permutation (r :: l) (insert_before_ties r l).
Proof.
  induction l as [|x l IH]; simpl; [reflexivity|].
  destruct (Task.created_at x <=? Task.created_at r); [reflexivity|].
  rewrite perm_swap. apply perm_skip. exact IH.
Qed.

Lemma insert_after_ties_perm (r : Task.row) (l : list Task.row) :
  Permutation (r :: l) (insert_after_ties r l).
Proof.
  induction l as [|x l IH]; simpl; [reflexivity|].
  destruct (Task.created_at x <? Task.created_at r); [reflexivity|].
  rewrite perm_swap. apply perm_skip. exact IH.
Qed.

Lemma created_desc_cons (a : Task.row) (l : list Task.row) :
  created_desc (a :: l) <->
  created_desc l /\ (forall x, In x l -> Task.created_at x <= Task.created_at a).
Proof.
  unfold created_desc. split.
  - intros Hs. apply StronglySorted_inv in Hs as [Hs Hall].
    split; [exact Hs|]. intros x Hx.
    rewrite List.Forall_forall in Hall. apply Hall. exact Hx.
  - intros [Hs Hall]. constructor; [exact Hs|].
    apply List.Forall_forall. exact Hall.
Qed.

Lemma insert_before_ties_desc (r : Task.row) (l : list Task.row) :
  created_desc l -> created_desc (insert_before_ties r l).
Proof.
  induction l as [|x l IH]; simpl; intros Hs.
  - apply created_desc_cons. split; [exact Hs|]. intros y [].
  - destruct (Task.created_at x <=? Task.created_at r) eqn:E.
    + apply Z.leb_le in E. apply created_desc_cons. split; [exact Hs|].
      apply created_desc_cons in Hs as [_ Hall].
      intros y [<-|Hy]; [exact E|]. specialize (Hall y Hy). lia.
    + apply Z.leb_gt in E. apply created_desc_cons in Hs as [Hs Hall].
      apply created_desc_cons. split; [apply IH; exact Hs|].
      intros y Hy.
      apply (Permutation_in _ (Permutation_sym (insert_before_ties_perm r l))) in Hy.
      destruct Hy as [<-|Hy]; [lia|apply Hall; exact Hy].
Qed.

Lemma insert_after_ties_desc (r : Task.row) (l : list Task.row) :
  created_desc l -> created_desc (insert_after_ties r l).
Proof.
  induction l as [|x l IH]; simpl; intros Hs.
  - apply created_desc_cons. split; [exact Hs|]. intros y [].
  - destruct (Task.created_at x <? Task.created_at r) eqn:E.
    + apply Z.ltb_lt in E. apply created_desc_cons. split; [exact Hs|].
      apply created_desc_cons in Hs as [_ Hall].
      intros y [<-|Hy]; [lia|]. specialize (Hall y Hy). lia.
    + apply Z.ltb_ge in E. apply created_desc_cons in Hs as [Hs Hall].
      apply created_desc_cons. split; [apply IH; exact Hs|].
      intros y Hy.
      apply (Permutation_in _ (Permutation_sym (insert_after_ties_perm r l))) in Hy.
      destruct Hy as [<-|Hy]; [lia|apply Hall; exact Hy].
Qed.

(** Both sample orders are executions of [ORDER BY created_at DESC]. *)
Lemma sort_ties_oldest_first_ok : orders_by_created_desc sort_ties_oldest_first.
Proof.
  intros rows. unfold sort_ties_oldest_first.
  induction rows as [|r rows [IHp IHs]]; simpl.
  - split; [reflexivity|constructor].
  - split.
    + rewrite <- insert_before_ties_perm. apply perm_skip. exact IHp.
    + apply insert_before_ties_desc. exact IHs.
Qed.

Lemma sort_ties_newest_first_ok : orders_by_created_desc sort_ties_newest_first.
Proof.
  intros rows. unfold sort_ties_newest_first.
  induction rows as [|r rows [IHp IHs]]; simpl.
  - split; [reflexivity|constructor].
  - split.
    + rewrite <- insert_after_ties_perm. apply perm_skip. exact IHp.
    + apply insert_after_ties_desc. exact IHs.
Qed.

Lemma orders_emit_matching (order_by : list Task.row -> list Task.row) :
  orders_by_created_desc order_by -> emits_matching_rows order_by.
Proof.
  intros Hob rows r Hr. destruct (Hob rows) as [Hp _].
  eapply Permutation_in; [symmetry; exact Hp|exact Hr].
Qed.

(** Rows with pairwise distinct creation times have one descending order. *)
Lemma created_desc_unique (l1 l2 : list Task.row) :
  NoDup (map Task.created_at l1) ->
  Permutation l1 l2 -> created_desc l1 -> created_desc l2 -> l1 = l2.
Proof.
  revert l2. induction l1 as [|a l1 IH]; intros l2 Hnd Hp H1 H2.
  - apply Permutation_nil in Hp. subst. reflexivity.
  - destruct l2 as [|b l2].
    { apply Permutation_sym, Permutation_nil in Hp. discriminate. }
    cbn [map] in Hnd. inversion Hnd as [|a' l' Hnotin Hnd']; subst a' l'.
    apply created_desc_cons in H1 as [H1 Ha].
    apply created_desc_cons in H2 as [H2 Hb].
    assert (a = b) as <-.
    { assert (In b (a :: l1)) as Hb1
        by (eapply Permutation_in; [symmetry; exact Hp|left; reflexivity]).
      assert (In a (b :: l2)) as Ha2
        by (eapply Permutation_in; [exact Hp|left; reflexivity]).
      destruct Hb1 as [Heq|Hb1]; [exact Heq|].
      destruct Ha2 as [Heq|Ha2]; [symmetry; exact Heq|].
      specialize (Ha b Hb1). specialize (Hb a Ha2).
      exfalso. apply Hnotin. apply list_elem_of_In.
      replace (Task.created_at a) with (Task.created_at b) by lia.
      apply in_map. exact Hb1. }
    f_equal. apply IH; try assumption.
    eapply Permutation_cons_inv. exact Hp.
Qed.

(** With distinct creation times every execution emits the same rows in the
    same order. *)
Lemma order_by_deterministic (order_by : list Task.row -> list Task.row)
    (rows : list Task.row) :
  orders_by_created_desc order_by ->
  NoDup (map Task.created_at rows) ->
  order_by rows = sort_ties_oldest_first rows.
Proof.
  intros Hob Hnd.
  destruct (Hob rows) as [Hp Hs].
  destruct (sort_ties_oldest_first_ok rows) as [Hp' Hs'].
  apply created_desc_unique; try assumption.
  - assert (Permutation (map Task.created_at rows)
              (map Task.created_at (order_by rows))) as Hpm
      by (apply Permutation_map; exact Hp).
    rewrite <- Hpm. exact Hnd.
  - rewrite <- Hp. exact Hp'.
Qed.

(** *** Pages *)

Lemma concat_pages {A} (L n : nat) (l : list A) :
  (0 < L)%nat -> (length l <= n * L)%nat ->
  concat (map (fun k => take L (drop (k * L) l)) (seq 0 n)) = l.
Proof.
  intros HL. revert l. induction n as [|n IH]; intros l Hlen.
  - simpl in *. destruct l; [reflexivity|simpl in Hlen; lia].
  - rewrite <- cons_seq, <- seq_shift. cbn [map concat]. rewrite List.map_map.
    rewrite Nat.mul_0_l, drop_0.
    transitivity ((take L l ++ drop L l)%list); [|apply take_drop].
    f_equal.
    transitivity (concat (map (fun k => take L (drop (k * L) (drop L l))) (seq 0 n))).
    + f_equal. apply map_ext. intros k.
      rewrite drop_drop. do 2 f_equal; lia.
    + apply IH. rewrite length_drop. lia.
Qed.

Lemma limit_of_bounds (q : Query.t) : 1 <= limit_of q <= 100.
Proof. unfold limit_of. lia. Qed.

Lemma same_listing_matching (u : string) (q q' : Query.t) (db : Db) :
  same_listing q q' -> matching u q' db = matching u q db.
Proof.
  intros (_ & Hs & Hp). unfold matching. rewrite Hs, Hp. reflexivity.
Qed.

Lemma same_listing_limit (q q' : Query.t) :
  same_listing q q' -> limit_of q' = limit_of q.
Proof. intros (Hl & _). unfold limit_of. rewrite Hl. reflexivity. Qed.

Lemma same_listing_filters (q q' : Query.t) :
  same_listing q q' -> filters_accepted q -> filters_accepted q'.
Proof.
  intros (_ & Hs & Hp). unfold filters_accepted. rewrite Hs, Hp. auto.
Qed.

Lemma created_desc_take_drop (n m : nat) (l : list Task.row) :
  created_desc l -> created_desc (take n (drop m l)).
Proof.
  intros Hs.
  assert (created_desc (drop m l)) as Hd.
  { clear n. revert l Hs. induction m as [|m IH]; intros l Hs; [exact Hs|].
    destruct l as [|a l]; [exact Hs|]. simpl.
    apply IH. apply created_desc_cons in Hs as [Hs _]. exact Hs. }
  clear Hs. revert n. generalize dependent (drop m l). clear l m.
  intros l Hs. induction l as [|a l IH]; intros n.
  - destruct n; constructor.
  - destruct n as [|n]; [constructor|]. simpl.
    apply created_desc_cons in Hs as [Hs Hall].
    apply created_desc_cons. split; [apply IH; exact Hs|].
    intros x Hx. apply Hall. apply (in_take_drop n 0 l x). exact Hx.
Qed.

(** The rows of page [S k]. *)
Lemma page_data (order_by : list Task.row -> list Task.row)
    (userId caller : string) (q q' : Query.t) (db : Db) (k : nat) :
  uuid_in userId = Some caller ->
  filters_accepted q ->
  same_listing q q' -> page_of q' = Z.of_nat (S k) ->
  data_of (list_tasks order_by userId q' db) =
    map rowToTask
      (take (Z.to_nat (limit_of q))
         (drop (k * Z.to_nat (limit_of q)) (order_by (matching caller q db)))).
Proof.
  intros Hu Hf Hsame Hpage.
  rewrite (list_tasks_eq order_by userId caller q' db Hu).
  destruct (filters_accepted_pass q' (same_listing_filters q q' Hsame Hf)) as [-> ->].
  cbn [data_of json payload].
  rewrite (same_listing_matching caller q q' db Hsame).
  unfold offset_of. rewrite (same_listing_limit q q' Hsame), Hpage.
  pose proof (limit_of_bounds q) as Hl.
  replace (Z.to_nat ((Z.of_nat (S k) - 1) * limit_of q))
    with (k * Z.to_nat (limit_of q))%nat; [reflexivity|].
  replace (Z.of_nat (S k) - 1) with (Z.of_nat k) by lia.
  rewrite Z2Nat.inj_mul by lia. rewrite Nat2Z.id. reflexivity.
Qed.

(** C6 (order of a list and its pages, as the store guarantees them).  Every
    page holds matching rows in descending order of creation time; the
    statement names no second sort key, so the order among rows created at the
    same instant is the store's choice.  When the matching tasks have pairwise
    distinct creation times the order is the same for every execution, and
    the pages 1 to n of one listing, taken with no write in between, are
    consecutive slices of it: together they hold each matching task exactly
    once. *)
Theorem list_pages_partition (ob : nat -> list Task.row -> list Task.row)
    (qs : nat -> Query.t) (userId caller : string) (q : Query.t) (db : Db)
    (n : nat) :
  uuid_in userId = Some caller ->
  filters_accepted q ->
  (forall k, orders_by_created_desc (ob k)) ->
  (forall k, (k < n)%nat ->
     same_listing q (qs k) /\ page_of (qs k) = Z.of_nat (S k)) ->
  Z.of_nat n * limit_of q <= JS.MAX_SAFE_INTEGER ->
  (forall k, (k < n)%nat ->
     exists rows,
       data_of (list_tasks (ob k) userId (qs k) db) = map rowToTask rows
       /\ created_desc rows
       /\ forall r, In r rows -> In r (matching caller q db))
  /\ (NoDup (map Task.created_at (matching caller q db)) ->
      (length (matching caller q db) <= n * Z.to_nat (limit_of q))%nat ->
      concat (map (fun k => data_of (list_tasks (ob k) userId (qs k) db)) (seq 0 n))
      = map rowToTask (sort_ties_oldest_first (matching caller q db))
      /\ Permutation (sort_ties_oldest_first (matching caller q db))
           (matching caller q db)).
Proof.
  intros Hu Hf Hob Hqs _. split.
  - intros k Hk. destruct (Hqs k Hk) as [Hsame Hpage].
    eexists. split; [apply (page_data (ob k) userId caller q (qs k) db k); assumption|].
    destruct (Hob k (matching caller q db)) as [Hp Hs].
    split; [apply created_desc_take_drop; exact Hs|].
    intros r Hr. apply in_take_drop in Hr.
    eapply Permutation_in; [symmetry; exact Hp|exact Hr].
  - intros Hnd Hlen. split.
    + transitivity
        (concat (map (fun k =>
                        map rowToTask
                          (take (Z.to_nat (limit_of q))
                             (drop (k * Z.to_nat (limit_of q))
                                (sort_ties_oldest_first (matching caller q db)))))
                   (seq 0 n))).
      * f_equal. apply map_ext_in. intros k Hk. apply in_seq in Hk.
        destruct (Hqs k) as [Hsame Hpage]; [lia|].
        rewrite (page_data (ob k) userId caller q (qs k) db k) by assumption.
        rewrite (order_by_deterministic (ob k) _ (Hob k) Hnd). reflexivity.
      * rewrite <- (List.map_map
                     (fun k => take (Z.to_nat (limit_of q))
                                 (drop (k * Z.to_nat (limit_of q))
                                    (sort_ties_oldest_first (matching caller q db))))
                     (map rowToTask)).
        rewrite <- List.concat_map. f_equal.
        apply concat_pages.
        -- pose proof (limit_of_bounds q). lia.
        -- destruct (sort_ties_oldest_first_ok (matching caller q db)) as [Hp _].
           rewrite <- (Permutation_length Hp). exact Hlen.
    + symmetry. apply sort_ties_oldest_first_ok.
Qed.

End Properties.

(** * The properties on the sample data *)

Section Samples.
#[local] Existing Instances sample_pg sample_runtime sample_bcrypt sample_jwt.

Example parseInt_samples :
  JS.parseInt "500" = Some 500 /\ JS.parseInt "  -12px" = Some (-12)
  /\ JS.parseInt "0" = Some 0 /\ JS.parseInt "abc" = None
  /\ JS.parseInt "undefined" = None /\ JS.parseInt "+7.9" = Some 7.
Proof. repeat split. Qed.

Example trim_samples :
  JS.trim "  Buy milk  " = "Buy milk" /\ JS.trim "   " = "" /\ JS.trim "" = "".
Proof. repeat split. Qed.

Example bearer_samples :
  JS.startsWith "Bearer abc" "Bearer " = true
  /\ JS.slice 7 "Bearer abc" = "abc"
  /\ JS.startsWith "bearer abc" "Bearer " = false
  /\ JS.slice 7 "Bearer " = "".
Proof. repeat split. Qed.

(** config.ts keeps nothing of JWT_SECRET. *)
Example sample_config :
  config sample_env =
    {[ "port" := JS.VNum 3000; "nodeEnv" := JS.VStr "development";
       "databaseUrl" := JS.VUndefined ]}.
Proof. reflexivity. Qed.

Lemma sample_db_pkey : tasks_pkey sample_db.
Proof.
  unfold tasks_pkey. apply (bool_decide_unpack _). vm_compute. exact I.
Qed.

(** Alice asks for Bob's task. *)
Lemma row_level_scoping_witness :
  get_task alice task3 sample_db = task_not_found
  /\ delete_task alice task3 sample_db = (task_not_found, sample_db).
Proof.
  destruct (@row_level_scoping sample_pg sample_db report alice alice task3)
    as (Hget & Hdel & _).
  - exact sample_db_pkey.
  - simpl; auto.
  - reflexivity.
  - discriminate.
  - reflexivity.
  - split; assumption.
Defined.

Lemma done_body_accepted : patch_accepted done_body.
Proof.
  repeat split; simpl; try discriminate.
  intros s [= <-]. reflexivity.
Qed.

(** Alice marks her task done. *)
Lemma partial_update_witness :
  update_task 999 alice task1 done_body sample_db =
    (json 200 (JTask (rowToTask (patched 999 done_body milk))),
     replace_row milk (patched 999 done_body milk) sample_db).
Proof.
  destruct (@partial_update sample_pg 999 sample_db milk alice alice task1 done_body)
    as (Hset & _).
  - exact sample_db_pkey.
  - simpl; auto.
  - reflexivity.
  - reflexivity.
  - reflexivity.
  - reflexivity.
  - exact done_body_accepted.
  - apply Hset. discriminate.
Defined.

(** C3, as the specification words it, fails: a PATCH without fields at time
    999 answers 200 with [updated_at] still 200 and writes nothing. *)
Lemma no_field_update_keeps_updated_at :
  exists row,
    update_task 999 alice task1 empty_body sample_db =
      (json 200 (JTask row), sample_db)
    /\ Task.updated_at row = 200
    /\ Task.updated_at row <> 999.
Proof.
  exists (rowToTask milk). split; [reflexivity|]. split; [reflexivity|discriminate].
Qed.

Lemma milk_body_accepted (b : Body.t) :
  Body.title b = Some "Buy milk" -> Body.status b = None -> Body.priority b = None ->
  Body.due_date b = None \/ Body.due_date b = Some (Some "") ->
  create_accepted task9 alice b sample_db.
Proof.
  intros Ht Hs Hp Hd. unfold create_accepted. rewrite Hs, Hp. repeat split.
  - exists "Buy milk". repeat split; [exact Ht|discriminate|].
    vm_compute. discriminate.
  - intros v Hv. destruct Hd as [Hd|Hd]; rewrite Hd in Hv; [discriminate|].
    injection Hv as <-. intros Hne. contradiction.
  - intros t [<-|[<-|[<-|[]]]]; discriminate.
  - exists alice_row. split; [left|]; reflexivity.
Qed.

(** Alice creates "Buy milk" with a title only. *)
Lemma create_defaults_witness :
  exists row returned,
    create_task task9 500 alice milk_body sample_db =
      (json 201 (JTask returned), with_task row sample_db)
    /\ Task.status row = "todo" /\ Task.priority row = "medium"
    /\ Task.description row = None /\ Task.due_date row = None
    /\ Task.description returned = Some "".
Proof.
  destruct (@create_defaults sample_pg task9 500 alice alice milk_body sample_db)
    as (row & returned & Heq & _ & _ & _ & _ & Hs & Hp & Hd & Hdue & Hret).
  - reflexivity.
  - apply milk_body_accepted; auto.
  - exists row, returned.
    rewrite (Hs eq_refl), (Hp eq_refl), (Hd eq_refl), (Hdue eq_refl).
    repeat split; try assumption.
    destruct Hret as (_ & _ & _ & _ & _ & _ & _ & _ & ->).
    rewrite (Hd eq_refl). reflexivity.
Defined.

(** C4, as the specification words it, fails: the returned description is
    the empty string, not null, so the returned record is not the stored row. *)
Lemma created_description_not_null :
  exists row returned,
    create_task task9 500 alice milk_body sample_db =
      (json 201 (JTask returned), with_task row sample_db)
    /\ Task.description row = None
    /\ Task.description returned <> None
    /\ returned <> row.
Proof.
  exists (created task9 500 alice milk_body).
  exists (rowToTask (created task9 500 alice milk_body)).
  split; [reflexivity|]. split; [reflexivity|]. split; discriminate.
Qed.

Lemma blank_title_body_accepted : patch_accepted blank_title_body.
Proof.
  repeat split; simpl; try discriminate.
  intros v [= <-]. vm_compute. discriminate.
Qed.

(** Alice blanks the title of her task. *)
Lemma blank_title_update_stored_witness :
  exists r',
    update_task 999 alice task1 blank_title_body sample_db =
      (json 200 (JTask (rowToTask r')), replace_row milk r' sample_db)
    /\ In r' (tasks (replace_row milk r' sample_db))
    /\ Task.title r' = "".
Proof.
  apply (@blank_title_update_stored sample_pg 999 sample_db milk alice alice task1
           "   " blank_title_body).
  - exact sample_db_pkey.
  - simpl; auto.
  - reflexivity.
  - reflexivity.
  - reflexivity.
  - reflexivity.
  - exact blank_title_body_accepted.
  - reflexivity.
  - reflexivity.
Defined.

Lemma clear_date_body_accepted : patch_accepted clear_date_body.
Proof. repeat split; simpl; intros; discriminate. Qed.

(** Alice creates a task with [due_date: ""] and clears the date of another. *)
Lemma due_date_null_or_empty_witness :
  (exists row,
     create_task task9 500 alice milk_no_date_body sample_db =
       (json 201 (JTask (rowToTask row)), with_task row sample_db)
     /\ Task.due_date row = None)
  /\ (exists r',
        update_task 500 alice task1 clear_date_body sample_db =
          (json 200 (JTask (rowToTask r')), replace_row milk r' sample_db)
        /\ In r' (tasks (replace_row milk r' sample_db))
        /\ Task.due_date r' = None).
Proof.
  destruct (@due_date_null_or_empty sample_pg task9 500 sample_db milk alice alice
              task1 milk_no_date_body clear_date_body) as (Hc & Hu).
  split.
  - apply Hc; [reflexivity|apply milk_body_accepted; auto|right; reflexivity].
  - destruct Hu as (Hclear & _).
    + reflexivity.
    + exact sample_db_pkey.
    + simpl; auto.
    + reflexivity.
    + reflexivity.
    + reflexivity.
    + exact clear_date_body_accepted.
    + apply Hclear. left. reflexivity.
Defined.

(** [?page=-3&limit=500] is served as page 1 with limit 100. *)
Lemma list_paging_witness :
  limit_of wild_query = 100 /\ page_of wild_query = 1
  /\ list_tasks sort_ties_oldest_first alice wild_query sample_db =
       json 200 (JTaskList (map rowToTask [milk; eggs]) 2 1 100).
Proof.
  destruct (@list_paging sample_pg sort_ties_oldest_first alice alice wild_query
              sample_db) as (_ & _ & _ & _ & Hlimit & Hpage & Hlist).
  - reflexivity.
  - split; intros; discriminate.
  - vm_compute. discriminate.
  - split; [apply (Hlimit 500); [reflexivity|lia]|].
    split; [apply (Hpage (-3)); [reflexivity|lia]|].
    rewrite Hlist. reflexivity.
Defined.

(** C7, as the specification words it, fails: a supplied limit of 0 is not
    clamped to 1 but replaced by the default 20, and the page holds more than
    one row. *)
Lemma limit_zero_is_default :
  JS.parseInt (JS.String_ (Query.limit zero_limit_query)) = Some 0
  /\ clamp_limit 0 = 1
  /\ limit_of zero_limit_query = 20
  /\ list_tasks sort_ties_oldest_first alice zero_limit_query sample_db =
       json 200 (JTaskList (map rowToTask [milk; eggs]) 2 1 20).
Proof. repeat split. Qed.

Lemma sample_db_email_key : users_email_key sample_db.
Proof.
  unfold users_email_key. apply (bool_decide_unpack _). vm_compute. exact I.
Qed.



(** Alice registers and logs in, in an environment that sets JWT_SECRET. *)
Lemma register_then_login_misconfigured_witness :
  register sample_salt alice 100 alice_login no_users
  = (json 201 (JUser alice "alice@example.com" None 100 100),
     {| users := [alice_row]; tasks := [] |})
  /\ login
       (config sample_env) 200 alice_login
       {| users := [alice_row]; tasks := [] |}
     = json 500 (JError "Server misconfiguration").
Proof.
  split; [reflexivity|].
  apply (@register_then_login_misconfigured sample_runtime sample_jwt sample_bcrypt
           sample_env sample_salt alice 100 200 alice_login
           "alice@example.com" "secret123" no_users
           {| users := [alice_row]; tasks := [] |}
           (JUser alice "alice@example.com" None 100 100)).
  - reflexivity.
  - reflexivity.
  - reflexivity.
  - reflexivity.
Defined.

(** Alice pages through two tasks created at different instants. *)
Lemma list_pages_partition_witness :
  concat (map (fun k => data_of (list_tasks (alternating k) alice (one_per_page k)
                                   spaced_db)) (seq 0 2))
  = map rowToTask [late_eggs; milk].
Proof.
  destruct (@list_pages_partition sample_pg alternating one_per_page alice alice
              first_of_one spaced_db 2) as (_ & Hpages).
  - reflexivity.
  - split; intros; discriminate.
  - intros k. unfold alternating. destruct (Nat.even k).
    + apply sort_ties_oldest_first_ok.
    + apply sort_ties_newest_first_ok.
  - intros [|[|k]] Hk; [repeat split..|lia].
  - vm_compute. discriminate.
  - destruct Hpages as [Hconcat _].
    + apply (bool_decide_unpack _). vm_compute. exact I.
    + vm_compute. lia.
    + rewrite Hconcat. reflexivity.
Defined.

(** C6, as the specification words it, fails: [milk] and [eggs] were created
    at the same instant, [milk] inserted first.  Both sample orders are
    executions of the list statement; the second puts [eggs] before [milk];
    and when page 1 is served in the first order and page 2 in the second,
    [milk] is returned twice and [eggs] never. *)
Lemma ties_break_pagination :
  orders_by_created_desc sort_ties_oldest_first
  /\ orders_by_created_desc sort_ties_newest_first
  /\ Task.created_at milk = Task.created_at eggs
  /\ data_of (list_tasks sort_ties_newest_first alice first_of_one sample_db)
     = [rowToTask eggs]
  /\ data_of (list_tasks sort_ties_oldest_first alice first_of_one sample_db)
     = [rowToTask milk]
  /\ data_of (list_tasks sort_ties_newest_first alice second_of_one sample_db)
     = [rowToTask milk].
Proof.
  split; [exact sort_ties_oldest_first_ok|].
  split; [exact sort_ties_newest_first_ok|].
  repeat split.
Qed.

End Samples.

(** * Further properties of the routes *)

Section Coverage.
Context `{Pg}.

(** *** White space *)

Lemma trimStart_empty (s : string) : JS.trimStart s = "" <-> all_white s = true.
Proof.
  induction s as [|a s IH]; simpl; [tauto|].
  destruct (JS.isWhiteSpace a); simpl; [exact IH|].
  split; discriminate.
Qed.

Lemma trimEnd_empty (s : string) : JS.trimEnd s = "" <-> all_white s = true.
Proof.
  induction s as [|a s IH]; simpl; [tauto|].
  destruct (JS.trimEnd s) eqn:E.
  - destruct (JS.isWhiteSpace a); simpl; [tauto|]. split; discriminate.
  - split; [discriminate|]. intros Hw. apply andb_true_iff in Hw as [_ Hw].
    apply IH in Hw. discriminate.
Qed.

Lemma all_white_trimStart (s : string) :
  all_white (JS.trimStart s) = all_white s.
Proof.
  induction s as [|a s IH]; simpl; [reflexivity|].
  destruct (JS.isWhiteSpace a) eqn:E; simpl; [exact IH|].
  rewrite E. reflexivity.
Qed.

(** A text is blank exactly when it consists of white space only. *)
Lemma blank_all_white (s : string) : blank s <-> all_white s = true.
Proof.
  unfold blank, JS.trim. rewrite trimEnd_empty, all_white_trimStart. tauto.
Qed.

Lemma trimStart_head (s : string) :
  match JS.trimStart s with
  | EmptyString => True
  | String a _ => JS.isWhiteSpace a = false
  end.
Proof.
  induction s as [|a s IH]; simpl; [exact I|].
  destruct (JS.isWhiteSpace a) eqn:E; [exact IH|exact E].
Qed.

Lemma trimEnd_cons (a : ascii) (s : string) :
  JS.trimEnd (String a s) =
    match JS.trimEnd s with
    | EmptyString => if JS.isWhiteSpace a then EmptyString else String a EmptyString
    | t => String a t
    end.
Proof. reflexivity. Qed.

Lemma trimEnd_idempotent (s : string) : JS.trimEnd (JS.trimEnd s) = JS.trimEnd s.
Proof.
  induction s as [|a s IH]; [reflexivity|].
  rewrite trimEnd_cons.
  destruct (JS.trimEnd s) as [|b t] eqn:E.
  - destruct (JS.isWhiteSpace a) eqn:Ea; [reflexivity|].
    rewrite trimEnd_cons. simpl. rewrite Ea. reflexivity.
  - rewrite trimEnd_cons, IH. reflexivity.
Qed.

Lemma trimEnd_head (a : ascii) (s : string) :
  JS.isWhiteSpace a = false ->
  exists t, JS.trimEnd (String a s) = String a t.
Proof.
  intros Ha. simpl. destruct (JS.trimEnd s) as [|b t].
  - rewrite Ha. eexists; reflexivity.
  - eexists; reflexivity.
Qed.

(** What [trim] returns neither starts nor ends with white space. *)
Lemma trim_no_outer_space (s : string) : no_outer_space (JS.trim s).
Proof.
  unfold no_outer_space, JS.trim. split; [|apply trimEnd_idempotent].
  pose proof (trimStart_head s) as Hh.
  destruct (JS.trimStart s) as [|a t]; [reflexivity|].
  destruct (trimEnd_head a t Hh) as [t' ->].
  simpl. rewrite Hh. reflexivity.
Qed.


(** *** What a write leaves behind *)

Lemma filter_nil_inv {A} (f : A -> bool) (l : list A) (x : A) :
  List.filter f l = [] -> In x l -> f x = false.
Proof.
  intros Hf Hx. destruct (f x) eqn:E; [|reflexivity].
  assert (In x (List.filter f l)) as Hin by (apply filter_In; auto).
  rewrite Hf in Hin. destruct Hin.
Qed.

Lemma assign_keeps (r : Task.row) (a : assignment) :
  Task.id (assign r a) = Task.id r
  /\ Task.user_id (assign r a) = Task.user_id r
  /\ Task.created_at (assign r a) = Task.created_at r.
Proof. destruct a; simpl; auto. Qed.

Lemma set_row_keeps (now : Z) (sets : list assignment) (r : Task.row) :
  Task.id (set_row now sets r) = Task.id r
  /\ Task.user_id (set_row now sets r) = Task.user_id r
  /\ Task.created_at (set_row now sets r) = Task.created_at r.
Proof.
  unfold set_row.
  assert (forall x,
            Task.id (fold_left assign sets x) = Task.id x
            /\ Task.user_id (fold_left assign sets x) = Task.user_id x
            /\ Task.created_at (fold_left assign sets x) = Task.created_at x) as Hfold.
  { induction sets as [|a sets IH]; intros x; simpl; [auto|].
    destruct (IH (assign x a)) as (-> & -> & ->). apply assign_keeps. }
  destruct (Hfold (touch now r)) as (-> & -> & ->). auto.
Qed.

Lemma first_error_None {A} (f : A -> option string) (l : list A) (x : A) :
  first_error f l = None -> In x l -> f x = None.
Proof.
  induction l as [|a l IH]; simpl; [intros _ []|].
  destruct (f a) eqn:E; [discriminate|].
  intros Hl [<-|Hx]; [exact E|apply IH; assumption].
Qed.

(** The table PATCH leaves: every row is as before or the partial update of
    itself, and only rows with the requested key and the caller as owner are
    updated. *)
Lemma update_task_shape (now : Z) (userId id : string) (b : Body.t) (db : Db) :
  snd (update_task now userId id b db) = db
  \/ exists i u,
       uuid_in id = Some i /\ uuid_in userId = Some u
       /\ status_of (fst (update_task now userId id b db)) = 200
       /\ snd (update_task now userId id b db) =
            {| users := users db;
               tasks := map (fun r => if where_ [IdEq i; UserIdEq u] r
                                      then patched now b r else r) (tasks db) |}
       /\ forall r, In r (tasks db) -> where_ [IdEq i; UserIdEq u] r = true ->
                    task_row_error (patched now b r) = None.
Proof.
  unfold update_task.
  destruct (match Body.status b with Some s => _ | None => _ end); [left; reflexivity|].
  destruct (match Body.priority b with Some p => _ | None => _ end); [left; reflexivity|].
  destruct (length (patch_values b) =? 0)%nat.
  { left. destruct (select_tasks _ db) as [[|? ?]|]; reflexivity. }
  unfold update_tasks.
  destruct (uuid_in id) as [i|] eqn:Hi; [|left; simpl; rewrite Hi; reflexivity].
  destruct (uuid_in userId) as [u|] eqn:Hu;
    [|left; simpl; rewrite Hi, Hu; reflexivity].
  rewrite (bind_id_owner _ _ _ _ Hi Hu).
  destruct (first_error assignment_error (patch_values b)); [left; reflexivity|].
  destruct (first_error task_row_error _) eqn:Hrows; [left; reflexivity|].
  destruct (List.filter (where_ [IdEq i; UserIdEq u]) (tasks db)) as [|r0 rest] eqn:Hf.
  - left. cbn [map snd]. rewrite map_unmatched; [apply db_eta|].
    intros x Hx. eapply filter_nil_inv; eassumption.
  - right. exists i, u. cbn [map fst snd status_of json status].
    repeat split.
    + f_equal. apply map_ext. intros r. rewrite set_row_patched. reflexivity.
    + intros r Hr Hw. rewrite <- set_row_patched.
      apply (first_error_None _ _ _ Hrows).
      rewrite <- Hf. apply in_map. apply filter_In. auto.
Qed.

(** The table DELETE leaves. *)
Lemma delete_task_shape (userId id : string) (db : Db) :
  snd (delete_task userId id db) = db
  \/ exists i u,
       uuid_in id = Some i /\ uuid_in userId = Some u
       /\ fst (delete_task userId id db) = json 204 NoBody
       /\ snd (delete_task userId id db) =
            {| users := users db;
               tasks := List.filter (fun r => negb (where_ [IdEq i; UserIdEq u] r))
                          (tasks db) |}.
Proof.
  unfold delete_task, delete_tasks.
  destruct (uuid_in id) as [i|] eqn:Hi; [|left; simpl; rewrite Hi; reflexivity].
  destruct (uuid_in userId) as [u|] eqn:Hu;
    [|left; simpl; rewrite Hi, Hu; reflexivity].
  rewrite (bind_id_owner _ _ _ _ Hi Hu).
  destruct (List.filter (where_ [IdEq i; UserIdEq u]) (tasks db)) as [|r0 rest] eqn:Hf.
  - left. cbn [length Z.of_nat Z.eqb snd].
    rewrite filter_all; [apply db_eta|].
    intros x Hx. rewrite (filter_nil_inv _ _ x Hf Hx). reflexivity.
  - right. exists i, u. repeat split.
Qed.

(** POST / answers 201 exactly for the accepted bodies; every other request
    leaves the store as it was. *)
Lemma create_task_cases (fresh : string) (now : Z) (userId : string) (b : Body.t)
    (db : Db) :
  (exists caller, uuid_in userId = Some caller /\ create_accepted fresh caller b db)
  \/ (snd (create_task fresh now userId b db) = db
      /\ status_of (fst (create_task fresh now userId b db)) <> 201).
Proof.
  unfold create_task.
  destruct (Body.title b) as [title|] eqn:Ht; [|right; split; [reflexivity|discriminate]].
  destruct (JS.truthy title) eqn:Et1; [|right; split; [reflexivity|discriminate]].
  destruct (JS.truthy (JS.trim title)) eqn:Et2;
    [|right; split; [reflexivity|discriminate]].
  cbn [negb orb].
  destruct (JS.includes STATUSES _) eqn:Es; [|right; split; [reflexivity|discriminate]].
  destruct (JS.includes PRIORITIES _) eqn:Ep; [|right; split; [reflexivity|discriminate]].
  cbn [negb]. unfold insert_task.
  destruct (uuid_in userId) as [caller|] eqn:Hu;
    [|right; split; [reflexivity|discriminate]].
  destruct (match
               match
                 match Body.due_date b with
                 | Some (Some v) => if String.eqb v "" then None else Some v
                 | Some None => None
                 | None => None
                 end
               with
               | Some d => if JS.truthy d then Some d else None
               | None => None
               end
             with
             | Some d => Some <$> timestamptz_in d
             | None => Some None
             end) as [due|] eqn:Hdue;
    [|right; split; [reflexivity|discriminate]].
  destruct (task_row_error _) eqn:Hrow; [right; split; [reflexivity|discriminate]|].
  destruct (existsb _ (tasks db)) eqn:Hfresh;
    [right; split; [reflexivity|discriminate]|].
  destruct (existsb _ (users db)) eqn:Huser; cbn [negb];
    [|right; split; [reflexivity|discriminate]].
  left. exists caller. split; [reflexivity|].
  apply task_row_error_None in Hrow. cbn [Task.title] in Hrow.
  destruct Hrow as (Hlen & _).
  unfold create_accepted. rewrite Ht. repeat split; try assumption.
  - exists title. repeat split; [|exact Hlen].
    unfold blank. intros Hb. rewrite Hb in Et2. discriminate.
  - intros v Hv Hne. rewrite Hv in Hdue.
    apply String.eqb_neq in Hne. rewrite Hne in Hdue.
    unfold JS.truthy in Hdue. rewrite Hne in Hdue. cbn [negb] in Hdue.
    destruct (timestamptz_in v); [eexists; reflexivity|discriminate].
  - intros t Hin. apply String.eqb_neq.
    apply (existsb_false_inv _ _ t Hfresh Hin).
  - apply existsb_exists in Huser as (u & Hin & Heq).
    exists u. split; [exact Hin|]. apply String.eqb_eq. exact Heq.
Qed.

Lemma owned_by_where (userId i u : string) (r : Task.row) :
  uuid_in userId = Some u ->
  where_ [IdEq i; UserIdEq u] r = true -> owned_by userId r = true.
Proof.
  intros Hu Hw. unfold owned_by. rewrite Hu.
  rewrite where_id_owner in Hw. apply andb_true_iff in Hw as [_ Hw]. exact Hw.
Qed.

Lemma filter_map_fixed {A} (p : A -> bool) (g : A -> A) (l : list A) :
  (forall x, In x l -> p x = true -> g x = x) ->
  (forall x, In x l -> p (g x) = p x) ->
  List.filter p (map g l) = List.filter p l.
Proof.
  induction l as [|a l IH]; intros Hfix Hsame; simpl; [reflexivity|].
  rewrite (Hsame a) by (left; reflexivity).
  destruct (p a) eqn:E.
  - rewrite (Hfix a) by (auto; left; reflexivity).
    f_equal. apply IH; intros; [apply Hfix|apply Hsame]; auto; right; assumption.
  - apply IH; intros; [apply Hfix|apply Hsame]; auto; right; assumption.
Qed.

Lemma filter_filter_implied {A} (p q : A -> bool) (l : list A) :
  (forall x, In x l -> p x = true -> q x = true) ->
  List.filter p (List.filter q l) = List.filter p l.
Proof.
  induction l as [|a l IH]; intros Himp; simpl; [reflexivity|].
  destruct (q a) eqn:Eq; simpl.
  - destruct (p a); [f_equal|]; apply IH; intros; apply Himp; auto; right; assumption.
  - destruct (p a) eqn:Ep.
    + rewrite (Himp a) in Eq by (auto; left; reflexivity). discriminate.
    + apply IH; intros; apply Himp; auto; right; assumption.
Qed.

Lemma create_foreign_rows (fresh : string) (now : Z) (userId : string)
    (b : Body.t) (db : Db) :
  foreign_rows userId (snd (create_task fresh now userId b db)) = foreign_rows userId db
  /\ users (snd (create_task fresh now userId b db)) = users db.
Proof.
  destruct (create_task_cases fresh now userId b db)
    as [(caller & Hu & Hacc)|[-> _]]; [|auto].
  rewrite (create_task_ok fresh now userId caller b db Hu Hacc).
  cbn [snd]. unfold foreign_rows, with_task. cbn [tasks users].
  rewrite List.filter_app. cbn [List.filter].
  unfold owned_by at 2. rewrite Hu. cbn [created Task.user_id].
  rewrite String.eqb_refl. cbn [negb]. rewrite app_nil_r. auto.
Qed.

Lemma update_foreign_rows (now : Z) (userId id : string) (b : Body.t) (db : Db) :
  foreign_rows userId (snd (update_task now userId id b db)) = foreign_rows userId db
  /\ users (snd (update_task now userId id b db)) = users db.
Proof.
  destruct (update_task_shape now userId id b db)
    as [->|(i & u & Hi & Hu & _ & -> & _)]; [auto|].
  unfold foreign_rows. cbn [tasks users]. split; [|reflexivity].
  apply filter_map_fixed.
  - intros x _ Hx. destruct (where_ [IdEq i; UserIdEq u] x) eqn:Hw; [|reflexivity].
    rewrite (owned_by_where userId i u x Hu Hw) in Hx. discriminate.
  - intros x _. destruct (where_ [IdEq i; UserIdEq u] x); [|reflexivity].
    unfold owned_by. destruct (uuid_in userId); reflexivity.
Qed.

Lemma delete_foreign_rows (userId id : string) (db : Db) :
  foreign_rows userId (snd (delete_task userId id db)) = foreign_rows userId db
  /\ users (snd (delete_task userId id db)) = users db.
Proof.
  destruct (delete_task_shape userId id db)
    as [->|(i & u & Hi & Hu & _ & ->)]; [auto|].
  unfold foreign_rows. cbn [tasks users]. split; [|reflexivity].
  apply filter_filter_implied.
  intros x _ Hx. destruct (where_ [IdEq i; UserIdEq u] x) eqn:Hw; [|reflexivity].
  rewrite (owned_by_where userId i u x Hu Hw) in Hx. discriminate.
Qed.

(** X1 (no write touches another owner's rows).  Whatever the request holds,
    POST, PATCH and DELETE by one caller leave the rows of every other owner
    exactly as they were, in the same order, and leave the users table as it
    was. *)
Theorem writes_leave_foreign_rows (fresh : string) (now : Z) (userId id : string)
    (b : Body.t) (db : Db) :
  (foreign_rows userId (snd (create_task fresh now userId b db)) = foreign_rows userId db
   /\ users (snd (create_task fresh now userId b db)) = users db)
  /\ (foreign_rows userId (snd (update_task now userId id b db)) = foreign_rows userId db
      /\ users (snd (update_task now userId id b db)) = users db)
  /\ (foreign_rows userId (snd (delete_task userId id db)) = foreign_rows userId db
      /\ users (snd (delete_task userId id db)) = users db).
Proof.
  split; [|split].
  - apply create_foreign_rows.
  - apply update_foreign_rows.
  - apply delete_foreign_rows.
Qed.

(** X2 (a request that fails writes nothing).  A POST that is not answered
    201, a PATCH that is not answered 200 and a DELETE that is not answered 204
    leave both tables exactly as they were, whether the handler refused the
    request or the store did. *)
Theorem unsuccessful_writes_change_nothing (fresh : string) (now : Z)
    (userId id : string) (b : Body.t) (db : Db) :
  (status_of (fst (create_task fresh now userId b db)) = 201
   \/ snd (create_task fresh now userId b db) = db)
  /\ (status_of (fst (update_task now userId id b db)) = 200
      \/ snd (update_task now userId id b db) = db)
  /\ (status_of (fst (delete_task userId id db)) = 204
      \/ snd (delete_task userId id db) = db).
Proof.
  split; [|split].
  - destruct (create_task_cases fresh now userId b db)
      as [(caller & Hu & Hacc)|[Hdb _]]; [left|right; exact Hdb].
    rewrite (create_task_ok fresh now userId caller b db Hu Hacc). reflexivity.
  - destruct (update_task_shape now userId id b db)
      as [Hdb|(i & u & _ & _ & Hst & _)]; [right; exact Hdb|left; exact Hst].
  - destruct (delete_task_shape userId id db)
      as [Hdb|(i & u & _ & _ & Hst & _)]; [right; exact Hdb|left].
    rewrite Hst. reflexivity.
Qed.

(** X3 (what PATCH cannot change).  Whatever the body holds, PATCH adds no
    task row and removes none, and it changes the id, the owner and the
    creation time of no row: the (id, owner, creation time) triples of the
    table are the same collection before and after, in whatever order the
    table holds its rows.  The users table is left alone. *)
Theorem patch_keeps_identity (now : Z) (userId id : string) (b : Body.t) (db : Db) :
  Permutation (map row_identity (tasks (snd (update_task now userId id b db))))
    (map row_identity (tasks db))
  /\ users (snd (update_task now userId id b db)) = users db.
Proof.
  destruct (update_task_shape now userId id b db)
    as [->|(i & u & _ & _ & _ & -> & _)]; [auto|].
  cbn [tasks users]. split; [|reflexivity].
  rewrite List.map_map.
  erewrite map_ext; [reflexivity|].
  intros r. destruct (where_ [IdEq i; UserIdEq u] r); reflexivity.
Qed.

(** X4 (delete).  The owner's DELETE of a stored task answers 204 with no
    body and removes that row and no other; repeating it answers 404
    "Task not found" and changes nothing, as does a GET of the deleted id. *)
Theorem delete_owned_then_gone (db : Db) (r : Task.row) (userId caller id : string) :
  tasks_pkey db -> In r (tasks db) ->
  uuid_in userId = Some caller -> Task.user_id r = caller ->
  uuid_in id = Some (Task.id r) ->
  exists db',
    delete_task userId id db = (json 204 NoBody, db')
    /\ users db' = users db
    /\ tasks db' = List.filter (fun x => negb (String.eqb (Task.id x) (Task.id r)))
                     (tasks db)
    /\ (forall x, In x (tasks db') <-> In x (tasks db) /\ x <> r)
    /\ delete_task userId id db' = (task_not_found, db')
    /\ get_task userId id db' = task_not_found.
Proof.
  intros Hpk Hin Hu Hown Hid.
  assert (List.filter (fun x => negb (where_ [IdEq (Task.id r); UserIdEq caller] x))
            (tasks db)
          = List.filter (fun x => negb (String.eqb (Task.id x) (Task.id r))) (tasks db))
    as Hfilter.
  { apply filter_ext_in. intros x Hx.
    rewrite (where_owned_iff db r x caller Hpk Hin Hx Hown). reflexivity. }
  exists {| users := users db;
            tasks := List.filter (fun x => negb (String.eqb (Task.id x) (Task.id r)))
                       (tasks db) |}.
  assert (unmatched
            {| users := users db;
               tasks := List.filter (fun x => negb (String.eqb (Task.id x) (Task.id r)))
                          (tasks db) |} (Task.id r) caller) as Hun.
  { intros x Hx. cbn [tasks] in Hx. apply filter_In in Hx as [_ Hx].
    rewrite where_id_owner. apply negb_true_iff in Hx. rewrite Hx. reflexivity. }
  split; [|split; [reflexivity|split; [reflexivity|split; [|split]]]].
  - unfold delete_task, delete_tasks.
    rewrite (bind_id_owner _ _ _ _ Hid Hu).
    rewrite (filter_owned db r caller Hpk Hin Hown), Hfilter. reflexivity.
  - intros x. cbn [tasks]. rewrite filter_In, negb_true_iff, String.eqb_neq.
    split; intros [Hx Hne]; (split; [exact Hx|]).
    + intros ->. apply Hne. reflexivity.
    + intros Heq. apply Hne. eapply pkey_inj; eassumption.
  - eapply delete_unmatched; eassumption.
  - eapply get_unmatched; eassumption.
Qed.

(** X5 (create, then read).  After an accepted create, a GET of the new id by
    the same caller returns exactly the record the create returned, while the
    same GET before the create answered 404. *)
Theorem create_then_get (fresh : string) (now : Z) (userId caller id : string)
    (b : Body.t) (db : Db) :
  uuid_in userId = Some caller ->
  create_accepted fresh caller b db ->
  uuid_in id = Some fresh ->
  exists returned db',
    create_task fresh now userId b db = (json 201 (JTask returned), db')
    /\ get_task userId id db' = json 200 (JTask returned)
    /\ get_task userId id db = task_not_found.
Proof.
  intros Hu Hacc Hid.
  exists (rowToTask (created fresh now caller b)), (with_task (created fresh now caller b) db).
  pose proof Hacc as (_ & _ & _ & _ & Hfresh & _).
  assert (unmatched db fresh caller) as Hun
    by (apply unmatched_absent; exact Hfresh).
  split; [apply create_task_ok; assumption|]. split.
  - unfold get_task, select_tasks. rewrite (bind_id_owner _ _ _ _ Hid Hu).
    unfold with_task. cbn [tasks]. rewrite List.filter_app.
    rewrite filter_nil_iff by exact Hun.
    cbn [List.filter app]. rewrite where_id_owner.
    cbn [created Task.id Task.user_id]. rewrite !String.eqb_refl. reflexivity.
  - eapply get_unmatched; eassumption.
Qed.

(** On a body of the types the handler declares, [create_task_json] is
    [create_task]. *)
Lemma create_task_json_typed `{Driver} (fresh : string) (now : Z) (userId : string)
    (b : Body.t) (db : Db) :
  create_task_json fresh now userId (json_of_body b) db =
    (Returned (fst (create_task fresh now userId b db)),
     snd (create_task fresh now userId b db)).
Proof.
  unfold create_task_json, create_task, json_of_body.
  cbn [Json.nullish Json.prop find fst snd String.eqb Ascii.eqb Bool.eqb].
  destruct (Body.title b) as [title|]; cbn [Json.of_option]; [|reflexivity].
  destruct (negb (JS.truthy title) || negb (JS.truthy (JS.trim title)));
    [reflexivity|].
  destruct (Body.status b) as [st|], (Body.priority b) as [pr|];
    cbn [Json.of_option optional_trim fmap option_fmap option_map];
    (destruct (negb (JS.includes STATUSES _)); [reflexivity|]);
    (destruct (negb (JS.includes PRIORITIES _)); [reflexivity|]);
    (destruct (Body.description b) as [d|];
     cbn [Json.of_option optional_trim fmap option_fmap option_map]);
    (destruct (Body.due_date b) as [[v|]|]; cbn [Json.truthy];
     [destruct (String.eqb v "") eqn:Ev; cbn [Json.truthy]| |]);
    match goal with
    | |- context [insert_task ?a ?b ?c ?d ?e ?f ?g ?h ?i] =>
        destruct (insert_task a b c d e f g h i) as [[row db']|e']; reflexivity
    end.
Qed.

(** X6 (the title a create needs).  For every parsed body, POST / answers
    400 "Title is required" and stores nothing exactly when the body is
    there and its title is missing, is not a string, is empty or is made of
    white space only. *)
Theorem create_title_required `{Driver} (fresh : string) (now : Z)
    (userId : string) (body : Json.t) (db : Db) :
  create_task_json fresh now userId body db =
    (Returned (json 400 (JError "Title is required")), db)
  <-> Json.nullish body = false
      /\ match Json.prop body "title" with
         | Json.Str title => all_white title = true
         | _ => True
         end.
Proof.
  unfold create_task_json.
  destruct (Json.nullish body); [split; [discriminate|intros [? _]; discriminate]|].
  destruct (Json.prop body "title") as [| |t|x|title|items|props];
    try (split; [intros _; split; [reflexivity|exact I]|reflexivity]).
  split.
  - destruct (all_white title) eqn:Hw; [split; reflexivity|]. intros Hc. exfalso.
    assert (~ blank title) as Hnb
      by (rewrite blank_all_white, Hw; discriminate).
    revert Hc.
    rewrite (truthy_true title (not_blank_nonempty _ Hnb)).
    rewrite (truthy_true (JS.trim title) Hnb). cbn [negb orb].
    destruct (optional_trim (Json.prop body "status")) as [e|st];
      [discriminate|].
    destruct (optional_trim (Json.prop body "priority")) as [e|pr];
      [discriminate|].
    destruct (negb (JS.includes STATUSES _)); [discriminate|].
    destruct (negb (JS.includes PRIORITIES _)); [discriminate|].
    destruct (optional_trim (Json.prop body "description")) as [e|d];
      [discriminate|].
    destruct (insert_task _ _ _ _ _ _ _ _ _) as [[row db']|e]; discriminate.
  - intros [_ Hw]. apply blank_all_white in Hw. unfold blank in Hw.
    rewrite Hw. cbn [JS.truthy]. rewrite Bool.orb_true_r. reflexivity.
Qed.

(** *** Lists *)

Lemma matching_In (u : string) (q : Query.t) (db : Db) (r : Task.row) :
  In r (matching u q db) <->
  In r (tasks db) /\ Task.user_id r = u
  /\ (forall s, Query.status q = Some s -> s <> "" -> Task.status r = s)
  /\ (forall p, Query.priority q = Some p -> p <> "" -> Task.priority r = p).
Proof.
  unfold matching. rewrite filter_In, !andb_true_iff, String.eqb_eq.
  assert (forall (o : option string) (v : string),
            (if JS.truthy_opt o then String.eqb v (JS.String_ o) else true) = true
            <-> (forall s, o = Some s -> s <> "" -> v = s)) as Hopt.
  { intros [s|] v; simpl.
    - unfold JS.truthy. destruct (String.eqb s "") eqn:E; simpl.
      + apply String.eqb_eq in E. split; [|reflexivity].
        intros _ s' [= <-] Hne. contradiction.
      + apply String.eqb_neq in E. rewrite String.eqb_eq. split.
        * intros -> s' [= <-] _. reflexivity.
        * intros Hs. apply Hs; auto.
    - split; [intros _ s'; discriminate|reflexivity]. }
  rewrite !Hopt. tauto.
Qed.

(** X7 (the filter of a list).  GET / with accepted filters and a page
    whose offset JavaScript represents exactly answers 200;
    every task it returns is a stored task of the caller that has the
    requested status and the requested priority (each only when supplied and
    not empty), and [total] counts all stored tasks of the caller with these
    properties, whatever the page and the limit. *)
Theorem list_filter_conjunction (order_by : list Task.row -> list Task.row)
    (userId caller : string) (q : Query.t) (db : Db) :
  uuid_in userId = Some caller ->
  filters_accepted q ->
  exact_paging q ->
  emits_matching_rows order_by ->
  exists data,
    list_tasks order_by userId q db =
      json 200 (JTaskList data (Z.of_nat (length (matching caller q db)))
                  (page_of q) (limit_of q))
    /\ (forall x, In x data ->
          exists r, x = rowToTask r /\ In r (tasks db) /\ Task.user_id r = caller
                    /\ (forall s, Query.status q = Some s -> s <> "" -> Task.status r = s)
                    /\ (forall p, Query.priority q = Some p -> p <> "" ->
                          Task.priority r = p))
    /\ (forall r, In r (matching caller q db) <->
          In r (tasks db) /\ Task.user_id r = caller
          /\ (forall s, Query.status q = Some s -> s <> "" -> Task.status r = s)
          /\ (forall p, Query.priority q = Some p -> p <> "" -> Task.priority r = p)).
Proof.
  intros Hu Hf _ Hob. eexists. split; [|split].
  - rewrite (list_tasks_eq order_by userId caller q db Hu).
    destruct (filters_accepted_pass q Hf) as [-> ->]. reflexivity.
  - intros x Hx. apply in_map_iff in Hx as (r & <- & Hr).
    apply in_take_drop, Hob in Hr. exists r. split; [reflexivity|].
    apply matching_In. exact Hr.
  - intros r. apply matching_In.
Qed.

(** X8 (the size of a page).  For accepted filters and a page whose offset
    JavaScript represents exactly, when the store emits every matching row once,
    the page of a list holds [min(limit, total - offset)] rows, none when the
    offset is past the end, and never more than 100. *)
Theorem list_page_size (order_by : list Task.row -> list Task.row)
    (userId caller : string) (q : Query.t) (db : Db) :
  uuid_in userId = Some caller ->
  filters_accepted q ->
  exact_paging q ->
  orders_by_created_desc order_by ->
  exists data total,
    list_tasks order_by userId q db =
      json 200 (JTaskList data total (page_of q) (limit_of q))
    /\ total = Z.of_nat (length (matching caller q db))
    /\ Z.of_nat (length data) = Z.max 0 (Z.min (limit_of q) (total - offset_of q))
    /\ Z.of_nat (length data) <= 100.
Proof.
  intros Hu Hf _ Hob. eexists. eexists. split; [|split; [reflexivity|]].
  - rewrite (list_tasks_eq order_by userId caller q db Hu).
    destruct (filters_accepted_pass q Hf) as [-> ->]. reflexivity.
  - destruct (Hob (matching caller q db)) as [Hp _].
    rewrite length_map, length_take, length_drop, <- (Permutation_length Hp).
    pose proof (limit_of_bounds q) as Hl.
    assert (0 <= offset_of q) as Ho.
    { unfold offset_of. assert (1 <= page_of q) by (unfold page_of; lia). nia. }
    split; lia.
Qed.

(** X9 (filters that are refused).  GET / answers 400 "Invalid status" for a
    non-empty status outside the enumeration and, when the status passes, 400
    "Invalid priority" for a non-empty priority outside it, before the store
    is asked anything; an empty filter value is treated as no filter. *)
Theorem list_filter_validation (order_by : list Task.row -> list Task.row)
    (userId : string) (q : Query.t) (db : Db) :
  (forall s, Query.status q = Some s -> s <> "" -> JS.includes STATUSES s = false ->
     list_tasks order_by userId q db = json 400 (JError "Invalid status"))
  /\ (forall p, (forall s, Query.status q = Some s -> s <> "" ->
                   JS.includes STATUSES s = true) ->
        Query.priority q = Some p -> p <> "" -> JS.includes PRIORITIES p = false ->
        list_tasks order_by userId q db = json 400 (JError "Invalid priority"))
  /\ (Query.status q = Some "" ->
        list_tasks order_by userId q db =
          list_tasks order_by userId
            {| Query.page := Query.page q; Query.limit := Query.limit q;
               Query.status := None; Query.priority := Query.priority q |} db)
  /\ (Query.priority q = Some "" ->
        list_tasks order_by userId q db =
          list_tasks order_by userId
            {| Query.page := Query.page q; Query.limit := Query.limit q;
               Query.status := Query.status q; Query.priority := None |} db).
Proof.
  repeat split.
  - intros s Hs Hne Hinc. unfold list_tasks. rewrite Hs. cbn [JS.truthy_opt JS.String_].
    rewrite (truthy_true s Hne), Hinc. reflexivity.
  - intros p Hst Hp Hne Hinc. unfold list_tasks. rewrite Hp.
    cbn [JS.truthy_opt JS.String_]. rewrite (truthy_true p Hne), Hinc.
    destruct (Query.status q) as [s|]; [|reflexivity].
    cbn [JS.truthy_opt JS.String_].
    destruct (JS.truthy s) eqn:Et; [|reflexivity].
    rewrite (Hst s eq_refl); [reflexivity|].
    intros ->. discriminate.
  - intros Hs. unfold list_tasks, list_conditions, page_of, limit_of.
    cbn [Query.status Query.priority Query.page Query.limit]. rewrite Hs. reflexivity.
  - intros Hp. unfold list_tasks, list_conditions, page_of, limit_of.
    cbn [Query.status Query.priority Query.page Query.limit]. rewrite Hp. reflexivity.
Qed.

(** *** Answers *)

Lemma answers_error (st : Z) (msg : string) (ok : Z) (errors : list (Z * string)) :
  In (st, msg) errors -> answers (json st (JError msg)) ok errors.
Proof. intros Hin. right. right. exists st, msg. auto. Qed.


Lemma STATUSES_trimmed (s : string) :
  JS.includes STATUSES s = true -> JS.trim s = s /\ s <> "".
Proof.
  intros Hs. destruct (includes_STATUSES s Hs) as [->|[->| ->]];
    split; (reflexivity || discriminate).
Qed.

(** X11 (white space around a status).  A status that is in the enumeration
    only after trimming is accepted by POST /, which stores the trimmed value,
    but refused by PATCH /:id with 400 "Invalid status": the create handler
    trims the status before checking it, the update handler does not. *)
Theorem status_trimmed_on_create_only (s : string) (fresh : string) (now : Z)
    (userId caller id : string) (b : Body.t) (db : Db) :
  JS.includes STATUSES (JS.trim s) = true ->
  JS.trim s <> s ->
  Body.status b = Some s ->
  update_task now userId id b db = (json 400 (JError "Invalid status"), db)
  /\ (uuid_in userId = Some caller ->
      create_accepted fresh caller b db ->
      exists row,
        create_task fresh now userId b db =
          (json 201 (JTask (rowToTask row)), with_task row db)
        /\ Task.status row = JS.trim s).
Proof.
  intros Hinc Hne Hs. split.
  - unfold update_task. rewrite Hs.
    destruct (JS.includes STATUSES s) eqn:E; [|reflexivity].
    destruct (STATUSES_trimmed s E) as [Ht _]. contradiction.
  - intros Hu Hacc. exists (created fresh now caller b).
    split; [apply create_task_ok; assumption|].
    unfold created; cbn [Task.status]. rewrite Hs. cbn [fmap option_fmap option_map JS.str_or].
    destruct (STATUSES_trimmed _ Hinc) as [_ Hnz].
    rewrite (truthy_true _ Hnz). reflexivity.
Qed.

End Coverage.

(** * Further properties of the identity layer *)

Section CoverageAuth.
Context `{Pg} `{Jwt} `{Bcrypt} `{Runtime}.

(** *** The middleware *)

Lemma startsWith_slice (h p : string) :
  JS.startsWith h p = true -> h = p +:+ JS.slice (String.length p) h.
Proof.
  unfold JS.startsWith. revert h.
  induction p as [|a p IH]; intros h.
  - intros _. destruct h; reflexivity.
  - destruct h as [|c h]; simpl; [discriminate|].
    destruct (ascii_dec a c) as [->|]; [|discriminate].
    intros Hp.
    change (String c h = String c (p +:+ JS.slice (String.length p) h)).
    f_equal. apply IH. exact Hp.
Qed.

Lemma bearer_header (token : string) :
  JS.startsWith ("Bearer " +:+ token) "Bearer " = true
  /\ JS.slice 7 ("Bearer " +:+ token) = token.
Proof.
  split; [|reflexivity].
  unfold JS.startsWith. simpl. destruct token; reflexivity.
Qed.

(** The middleware with a bearer token in hand. *)
Lemma authenticate_bearer (cfg : gmap string JS.value) (token : string) (now : Z) :
  token <> "" ->
  authenticate cfg (Some ("Bearer " +:+ token)) now =
    if negb (JS.truthy_value (JS.get cfg "jwtSecret"))
    then respond 500 (JError "Server misconfiguration")
    else
      match jwt_verify token (JS.get cfg "jwtSecret") now with
      | Failed (TokenExpiredError _ expiredAt) =>
          respond 401 (JTokenExpired "Token expired" expiredAt "TOKEN_EXPIRED")
      | Failed (NotBeforeError _ date) =>
          respond 401 (JTokenNotActive "Token not yet valid" date "TOKEN_NOT_ACTIVE")
      | Failed (JsonWebTokenError message) =>
          respond 401 (JTokenInvalid "Invalid token" message "TOKEN_INVALID")
      | Decoded userId email => Next {| userId := userId; email := email |}
      end.
Proof.
  intros Hne. unfold authenticate.
  destruct (bearer_header token) as [-> ->].
  rewrite (truthy_true token Hne). reflexivity.
Qed.

Lemma authenticate_next_inv (cfg : gmap string JS.value)
    (authorization : option string) (now : Z) (user : AuthUser) :
  authenticate cfg authorization now = Next user ->
  exists token,
    authorization = Some ("Bearer " +:+ token) /\ token <> ""
    /\ JS.truthy_value (JS.get cfg "jwtSecret") = true
    /\ jwt_verify token (JS.get cfg "jwtSecret") now
       = Decoded (userId user) (email user).
Proof.
  unfold authenticate. cbv zeta.
  destruct authorization as [h|]; [|discriminate].
  destruct (JS.startsWith h "Bearer ") eqn:Hp; [|discriminate].
  destruct (JS.truthy (JS.slice 7 h)) eqn:Ht; [|discriminate]. cbn [negb].
  destruct (JS.truthy_value (JS.get cfg "jwtSecret")) eqn:Hs; [|discriminate].
  cbn [negb].
  destruct (jwt_verify _ _ now) as [uid em|[m e|m d|m]] eqn:Hv; try discriminate.
  intros [= <-]. exists (JS.slice 7 h). repeat split.
  - f_equal. apply (startsWith_slice h "Bearer " Hp).
  - intros Hz. rewrite Hz in Ht. discriminate.
  - exact Hv.
Qed.

(** X12 (what the middleware lets through).  [authenticate] calls [next]
    exactly when the header is "Bearer " followed by a non-empty token, a
    signing secret is configured and [jwt.verify] accepts that token with that
    secret; the identity it attaches is the one the token decodes to. *)
Theorem authenticate_sound (cfg : gmap string JS.value)
    (authorization : option string) (now : Z) (user : AuthUser) :
  authenticate cfg authorization now = Next user
  <-> exists token,
        authorization = Some ("Bearer " +:+ token) /\ token <> ""
        /\ JS.truthy_value (JS.get cfg "jwtSecret") = true
        /\ jwt_verify token (JS.get cfg "jwtSecret") now
           = Decoded (userId user) (email user).
Proof.
  split; [apply authenticate_next_inv|].
  intros (token & -> & Hne & Hs & Hv).
  rewrite (authenticate_bearer cfg token now Hne), Hs, Hv.
  destruct user; reflexivity.
Qed.

(** X13 (no token).  [authenticate] answers 401 "No token provided" exactly
    when the header is absent, does not start with "Bearer " (the scheme is
    matched with its capital letter and the space) or ends right after it;
    this does not depend on the configuration or on the token library. *)
Theorem authenticate_no_token_iff (cfg : gmap string JS.value)
    (authorization : option string) (now : Z) :
  authenticate cfg authorization now = respond 401 (JError "No token provided")
  <-> match authorization with
      | None => True
      | Some h => JS.startsWith h "Bearer " = false \/ h = "Bearer "
      end.
Proof.
  split.
  - destruct authorization as [h|]; [|auto].
    destruct (JS.startsWith h "Bearer ") eqn:Hp; [|auto].
    pose proof (startsWith_slice h "Bearer " Hp) as Hh. cbn [String.length] in Hh.
    destruct (JS.slice 7 h) as [|c t] eqn:Hs.
    { intros _. right. rewrite Hh. reflexivity. }
    rewrite Hh, (authenticate_bearer cfg (String c t) now) by discriminate.
    destruct (negb _); [discriminate|].
    destruct (jwt_verify _ _ now) as [uid em|[m e|m d|m]]; discriminate.
  - apply authenticate_no_token.
Qed.

(** X14 (verification failures).  With a signing secret configured, a
    bearer token that [jwt.verify] rejects is answered 401 with a body that
    depends on the kind of error alone: code TOKEN_EXPIRED with the expiry
    time, TOKEN_NOT_ACTIVE with the start of validity, or TOKEN_INVALID with
    the library's message; the three codes differ. *)
Theorem authenticate_reports_failure (cfg : gmap string JS.value) (token : string)
    (now : Z) (err : jwt_error) :
  token <> "" ->
  JS.truthy_value (JS.get cfg "jwtSecret") = true ->
  jwt_verify token (JS.get cfg "jwtSecret") now = Failed err ->
  authenticate cfg (Some ("Bearer " +:+ token)) now =
    respond 401
      match err with
      | TokenExpiredError _ expiredAt =>
          JTokenExpired "Token expired" expiredAt "TOKEN_EXPIRED"
      | NotBeforeError _ date =>
          JTokenNotActive "Token not yet valid" date "TOKEN_NOT_ACTIVE"
      | JsonWebTokenError message =>
          JTokenInvalid "Invalid token" message "TOKEN_INVALID"
      end.
Proof.
  intros Hne Hs Hv.
  rewrite (authenticate_bearer cfg token now Hne), Hs, Hv.
  destruct err; reflexivity.
Qed.

(** *** Register and login *)

(** POST /register with an e-mail address and a password: the statement it
    runs and what becomes of its result. *)
Lemma register_insert (salt fresh : string) (now : Z) (b : Credentials.t)
    (e p : string) (db : Db) :
  Credentials.email b = Some e -> Credentials.password b = Some p ->
  e <> "" -> p <> "" ->
  register salt fresh now b db =
    match user_row_error (registered salt fresh now b) with
    | Some code =>
        if String.eqb code "23505"
        then (json 409 (JError "Email already registered"), db)
        else (NextErr code, db)
    | None =>
        if existsb (fun u => String.eqb (User.id u) fresh
                             || String.eqb (User.email u) (JS.trim e)) (users db)
        then (json 409 (JError "Email already registered"), db)
        else (json 201 (JUser fresh (JS.trim e) (User.name (registered salt fresh now b))
                          now now),
              {| users := users db ++ [registered salt fresh now b];
                 tasks := tasks db |})
    end.
Proof.
  intros He Hp Ne Np. unfold register. rewrite He, Hp.
  rewrite (truthy_true e Ne), (truthy_true p Np). cbn [negb orb].
  unfold insert_user.
  set (nm := match JS.trim <$> Credentials.name b with
             | Some n => if JS.truthy n then Some n else None
             | None => None
             end).
  assert (registered salt fresh now b =
          {| User.id := fresh; User.email := JS.trim e;
             User.password_hash := bcrypt_hash p SALT_ROUNDS salt;
             User.name := nm;
             User.created_at := now; User.updated_at := now |}) as ->.
  { unfold registered, nm. rewrite He, Hp.
    destruct (Credentials.name b); reflexivity. }
  cbn [User.name].
  destruct (user_row_error _); [reflexivity|].
  destruct (existsb _ (users db)); reflexivity.
Qed.

Lemma user_row_error_code (r : User.row) (code : string) :
  user_row_error r = Some code -> String.eqb code "23505" = false.
Proof.
  unfold user_row_error. destruct (_ || _); [|discriminate].
  intros [= <-]. reflexivity.
Qed.

Lemma register_cases (salt fresh : string) (now : Z) (b : Credentials.t) (db : Db) :
  (snd (register salt fresh now b db) = db
   /\ status_of (fst (register salt fresh now b db)) <> 201)
  \/ (exists e p,
        Credentials.email b = Some e /\ Credentials.password b = Some p
        /\ e <> "" /\ p <> ""
        /\ user_row_error (registered salt fresh now b) = None
        /\ (forall u, In u (users db) ->
              User.id u <> fresh /\ User.email u <> JS.trim e)
        /\ register salt fresh now b db =
             (json 201 (JUser fresh (JS.trim e)
                          (User.name (registered salt fresh now b)) now now),
              {| users := users db ++ [registered salt fresh now b];
                 tasks := tasks db |})).
Proof.
  destruct (Credentials.email b) as [e|] eqn:He;
    [|left; unfold register; rewrite He; split; [reflexivity|discriminate]].
  destruct (Credentials.password b) as [p|] eqn:Hp;
    [|left; unfold register; rewrite He, Hp; split; [reflexivity|discriminate]].
  destruct (String.eqb e "") eqn:Ee.
  { left. unfold register. rewrite He, Hp. unfold JS.truthy. rewrite Ee.
    split; [reflexivity|discriminate]. }
  destruct (String.eqb p "") eqn:Ep.
  { left. unfold register. rewrite He, Hp. unfold JS.truthy. rewrite Ee, Ep.
    split; [reflexivity|discriminate]. }
  apply String.eqb_neq in Ee, Ep.
  rewrite (register_insert salt fresh now b e p db He Hp Ee Ep).
  destruct (user_row_error _) as [code|] eqn:Hrow.
  { left. rewrite (user_row_error_code _ _ Hrow). split; [reflexivity|discriminate]. }
  destruct (existsb _ (users db)) eqn:Hex; [left; split; [reflexivity|discriminate]|].
  right. exists e, p.
  split; [reflexivity|]. split; [reflexivity|].
  split; [exact Ee|]. split; [exact Ep|].
  split; [reflexivity|]. split; [|reflexivity].
  intros u Hu. pose proof (existsb_false_inv _ _ u Hex Hu) as Hf.
  apply orb_false_iff in Hf as [Hid Hem].
  split; apply String.eqb_neq; assumption.
Qed.

(** X15 (registrations that are refused).  POST /register answers 400 when
    the e-mail address or the password is missing or empty, and 409
    "Email already registered" when a stored user already has the trimmed
    address; in both cases nothing is stored. *)
Theorem register_refusals (salt fresh : string) (now : Z) (b : Credentials.t)
    (db : Db) :
  (JS.truthy_opt (Credentials.email b) = false
   \/ JS.truthy_opt (Credentials.password b) = false ->
   register salt fresh now b db =
     (json 400 (JError "Email and password are required"), db))
  /\ (forall e p u,
        Credentials.email b = Some e -> Credentials.password b = Some p ->
        e <> "" -> p <> "" ->
        user_row_error (registered salt fresh now b) = None ->
        In u (users db) -> User.email u = JS.trim e ->
        register salt fresh now b db =
          (json 409 (JError "Email already registered"), db)).
Proof.
  split.
  - unfold register.
    destruct (Credentials.email b) as [e|], (Credentials.password b) as [p|];
      cbn [JS.truthy_opt]; try reflexivity.
    intros [-> | ->]; [reflexivity|]. rewrite orb_true_r. reflexivity.
  - intros e p u He Hp Ne Np Hrow Hin Hem.
    rewrite (register_insert salt fresh now b e p db He Hp Ne Np), Hrow.
    assert (existsb (fun u0 => String.eqb (User.id u0) fresh
                               || String.eqb (User.email u0) (JS.trim e)) (users db)
            = true) as ->; [|reflexivity].
    apply existsb_exists. exists u. split; [exact Hin|].
    rewrite Hem, String.eqb_refl. apply orb_true_r.
Qed.


(** A login that succeeds, when the configuration holds a signing secret. *)
Lemma login_issues_token (cfg : gmap string JS.value) (now : Z)
    (b : Credentials.t) (e p : string) (row : User.row) (db : Db) :
  Credentials.email b = Some e -> Credentials.password b = Some p ->
  e <> "" -> p <> "" ->
  users_email_key db -> In row (users db) -> User.email row = JS.trim e ->
  bcrypt_compare p (User.password_hash row) = true ->
  JS.truthy_value (JS.get cfg "jwtSecret") = true ->
  login cfg now b db =
    json 200
      (JLogin (jwt_sign (User.id row) (User.email row) (JS.get cfg "jwtSecret")
                 (7 * 24 * 60 * 60) now)
         (User.id row) (User.email row) (User.name row)).
Proof.
  intros He Hp Ne Np Hkey Hin Hem Hcmp Hs. unfold login. rewrite He, Hp.
  rewrite (truthy_true e Ne), (truthy_true p Np). cbn [negb orb].
  rewrite (select_by_email_unique db row _ Hkey Hin Hem).
  rewrite Hcmp, Hs. reflexivity.
Qed.

(** *** GET /me and the guarded routes *)

Lemma select_by_id_unique (db : Db) (u : User.row) :
  NoDup (map User.id (users db)) -> In u (users db) ->
  List.filter (fun x => String.eqb (User.id x) (User.id u)) (users db) = [u].
Proof.
  intros Hnd Hin. revert Hnd Hin. generalize (users db) as l.
  induction l as [|a l IH]; cbn [List.filter map In]; intros Hnd Hin;
    [contradiction|].
  inversion Hnd as [|a' l' Hnotin Hnd']; subst a' l'.
  destruct Hin as [->|Hin].
  - rewrite String.eqb_refl. f_equal.
    apply filter_nil_iff. intros x Hx. apply String.eqb_neq. intros E.
    apply Hnotin. apply list_elem_of_In. rewrite <- E. apply in_map; exact Hx.
  - destruct (String.eqb (User.id a) (User.id u)) eqn:E.
    + exfalso. apply Hnotin. apply list_elem_of_In.
      apply String.eqb_eq in E. rewrite E. apply in_map; exact Hin.
    + apply IH; assumption.
Qed.

Lemma me_found (user : AuthUser) (u : User.row) (db : Db) :
  NoDup (map User.id (users db)) -> In u (users db) ->
  uuid_in (userId user) = Some (User.id u) ->
  me user db =
    json 200 (JUser (User.id u) (User.email u) (User.name u)
                (User.created_at u) (User.updated_at u)).
Proof.
  intros Hnd Hin Hid. unfold me, select_users_by_id. rewrite Hid.
  rewrite (select_by_id_unique db u Hnd Hin). reflexivity.
Qed.

(** X17 (the profile of the caller).  For an identity the middleware
    attached, the handler of GET /me answers 200 with the id, address, name
    and timestamps of the user row that has the identity's id, and 404
    "User not found" when no row has it (a token outlives its user). *)
Theorem me_profile (user : AuthUser) (i : string) (db : Db) :
  NoDup (map User.id (users db)) ->
  uuid_in (userId user) = Some i ->
  (forall u, In u (users db) -> User.id u = i ->
     me user db =
       json 200 (JUser (User.id u) (User.email u) (User.name u)
                   (User.created_at u) (User.updated_at u)))
  /\ ((forall u, In u (users db) -> User.id u <> i) ->
      me user db = json 404 (JError "User not found")).
Proof.
  intros Hnd Hi. split.
  - intros u Hin Hid. apply me_found; [assumption..|]. rewrite Hid. exact Hi.
  - intros Habs. unfold me, select_users_by_id. rewrite Hi.
    rewrite filter_nil_iff; [reflexivity|].
    intros u Hu. apply String.eqb_neq. apply Habs. exact Hu.
Qed.

(** X18 (login, then the token as bearer).  With a signing secret configured
    and a token library that accepts at [later] the token it signed at [now],
    the token a successful login returns, sent back as
    [Authorization: Bearer], makes the middleware attach the id and address of
    the user who logged in, and GET /me answers with that user's own
    profile. *)
Theorem login_token_identifies_user (cfg : gmap string JS.value) (now later : Z)
    (b : Credentials.t) (e p : string) (row : User.row) (db : Db) :
  Credentials.email b = Some e -> Credentials.password b = Some p ->
  e <> "" -> p <> "" ->
  users_email_key db -> NoDup (map User.id (users db)) ->
  In row (users db) -> User.email row = JS.trim e ->
  uuid_in (User.id row) = Some (User.id row) ->
  bcrypt_compare p (User.password_hash row) = true ->
  JS.truthy_value (JS.get cfg "jwtSecret") = true ->
  jwt_sign (User.id row) (User.email row) (JS.get cfg "jwtSecret") SEVEN_DAYS now <> "" ->
  jwt_verify
    (jwt_sign (User.id row) (User.email row) (JS.get cfg "jwtSecret") SEVEN_DAYS now)
    (JS.get cfg "jwtSecret") later
  = Decoded (User.id row) (User.email row) ->
  exists token,
    token = jwt_sign (User.id row) (User.email row) (JS.get cfg "jwtSecret")
              SEVEN_DAYS now
    /\ login cfg now b db =
         json 200 (JLogin token (User.id row) (User.email row) (User.name row))
    /\ authenticate cfg (Some ("Bearer " +:+ token)) later =
         Next {| userId := User.id row; email := User.email row |}
    /\ get_me cfg (Some ("Bearer " +:+ token)) later db =
         json 200 (JUser (User.id row) (User.email row) (User.name row)
                     (User.created_at row) (User.updated_at row)).
Proof.
  intros He Hp Ne Np Hkey Hnd Hin Hem Hcanon Hcmp Hs Htok Hv.
  eexists. split; [reflexivity|]. split; [|split].
  - apply (login_issues_token cfg now b e p row db); assumption.
  - rewrite (authenticate_bearer cfg _ later Htok), Hs, Hv. reflexivity.
  - unfold get_me.
    rewrite (authenticate_bearer cfg _ later Htok), Hs, Hv. cbn [negb].
    apply me_found; assumption.
Qed.

(** X19 (the guard of the tasks router).  Whatever the request, the tasks
    router either sends the middleware's own response and leaves the store as
    it was, or the header carried a token that [jwt.verify] accepted, and then
    the rows of everyone but the token's subject and the users table are left
    exactly as they were. *)
Theorem tasks_router_guard (cfg : gmap string JS.value)
    (authorization : option string) (now : Z) (req : task_request) (db : Db) :
  (exists r, authenticate cfg authorization now = Responded r
             /\ tasks_router cfg authorization now req db = (Sent r, db))
  \/ (exists token subject address,
        authorization = Some ("Bearer " +:+ token)
        /\ jwt_verify token (JS.get cfg "jwtSecret") now = Decoded subject address
        /\ foreign_rows subject (snd (tasks_router cfg authorization now req db))
           = foreign_rows subject db
        /\ users (snd (tasks_router cfg authorization now req db)) = users db).
Proof.
  unfold tasks_router.
  destruct (authenticate cfg authorization now) as [r|user] eqn:Ha.
  - left. exists r. split; reflexivity.
  - right. apply authenticate_next_inv in Ha as (token & -> & _ & _ & Hv).
    exists token, (userId user), (email user).
    split; [reflexivity|]. split; [exact Hv|].
    destruct req as [ob q|fresh b|id|id b|id]; cbn [snd]; auto.
    + apply create_foreign_rows.
    + apply update_foreign_rows.
    + apply delete_foreign_rows.
Qed.

(** X20 (the guarded routes under config.ts).  With the object config.ts
    builds, for every environment, header and request the tasks router and
    GET /me answer with the middleware's 401 "No token provided" or 500
    "Server misconfiguration", and the store is left as it was: no guarded
    handler runs. *)
Theorem guarded_routes_closed (env : gmap string string)
    (authorization : option string) (now : Z) (req : task_request) (db : Db) :
  exists r,
    tasks_router (config env) authorization now req db = (Sent r, db)
    /\ get_me (config env) authorization now db = Sent r
    /\ (r = {| status := 401; payload := JError "No token provided" |}
        \/ r = {| status := 500; payload := JError "Server misconfiguration" |}).
Proof.
  unfold tasks_router, get_me.
  destruct (authenticate (config env) authorization now) as [r|user] eqn:Ha.
  - exists r. split; [reflexivity|]. split; [reflexivity|].
    revert Ha. unfold authenticate. cbv zeta.
    destruct authorization as [h|]; [|intros [= <-]; auto].
    destruct (JS.startsWith h "Bearer "); [|intros [= <-]; auto].
    destruct (JS.truthy (JS.slice 7 h)); [|intros [= <-]; auto].
    rewrite config_jwtSecret. intros [= <-]. auto.
  - apply authenticate_next_inv in Ha as (token & _ & _ & Hs & _).
    rewrite config_jwtSecret in Hs. discriminate.
Qed.

(** *** Invariants of the store *)

Lemma NoDup_map_snoc {A} (f : A -> string) (l : list A) (x : A) :
  NoDup (map f l) -> (forall y, In y l -> f y <> f x) ->
  NoDup (map f (l ++ [x])).
Proof.
  intros Hnd Hfresh. rewrite List.map_app. apply NoDup_app.
  split; [exact Hnd|]. split; [|apply NoDup_singleton].
  intros z Hz Hzx. apply list_elem_of_In in Hz. apply in_map_iff in Hz as (y & <- & Hy).
  apply list_elem_of_In in Hzx. destruct Hzx as [Heq|[]].
  apply (Hfresh y Hy). symmetry. exact Heq.
Qed.

Lemma NoDup_map_filter {A} (f : A -> string) (g : A -> bool) (l : list A) :
  NoDup (map f l) -> NoDup (map f (List.filter g l)).
Proof.
  induction l as [|a l IH]; cbn [map List.filter]; intros Hnd; [exact Hnd|].
  inversion Hnd as [|a' l' Hnotin Hnd']; subst a' l'.
  destruct (g a); [|apply IH; exact Hnd'].
  cbn [map]. constructor; [|apply IH; exact Hnd'].
  intros Hin. apply Hnotin. apply list_elem_of_In. apply list_elem_of_In in Hin.
  apply in_map_iff in Hin as (y & Hy & Hyin). apply in_map_iff.
  exists y. split; [exact Hy|]. apply filter_In in Hyin as [Hyin _]. exact Hyin.
Qed.

(** The row of an accepted create satisfies the checks of the table. *)
Lemma created_lawful (fresh : string) (now : Z) (caller : string) (b : Body.t)
    (db : Db) :
  create_accepted fresh caller b db ->
  task_row_error (created fresh now caller b) = None.
Proof.
  intros ((title & Ht & _ & Hlen) & Hs & Hp & _).
  apply task_row_error_None. unfold created; simpl. rewrite Ht. auto.
Qed.

Lemma served_schema_ok (db db' : Db) : schema_ok db -> served db db' -> schema_ok db'.
Proof.
  intros (Hpk & Huid & Hkey & Hlaw & Hulaw & Hfk) Hstep.
  destruct Hstep as [salt fresh now b|fresh now userId b|now userId id b|userId id].
  - destruct (register_cases salt fresh now b db)
      as [[-> _]|(e & p & He & Hp & _ & _ & Hrow & Hfree & ->)];
      [repeat split; assumption|].
    cbn [snd]. unfold schema_ok, tasks_pkey, users_email_key. cbn [users tasks].
    assert (User.email (registered salt fresh now b) = JS.trim e) as Hem
      by (unfold registered; simpl; rewrite He; reflexivity).
    repeat split; try assumption.
    + apply NoDup_map_snoc; [exact Huid|]. intros y Hy. apply (Hfree y Hy).
    + apply NoDup_map_snoc; [exact Hkey|]. intros y Hy. rewrite Hem.
      apply (Hfree y Hy).
    + intros u Hu. apply in_app_or in Hu as [Hu|[<-|[]]]; [apply Hulaw|]; assumption.
    + intros r Hr. destruct (Hfk r Hr) as (u & Hu & Hid).
      exists u. split; [apply in_or_app; left|]; assumption.
  - destruct (create_task_cases fresh now userId b db)
      as [(caller & Hu & Hacc)|[-> _]]; [|repeat split; assumption].
    rewrite (create_task_ok fresh now userId caller b db Hu Hacc). cbn [snd].
    unfold schema_ok, tasks_pkey, users_email_key, with_task. cbn [users tasks].
    pose proof Hacc as (_ & _ & _ & _ & Hfresh & (u & Hin & Huid')).
    repeat split; try assumption.
    + apply NoDup_map_snoc; [exact Hpk|]. intros y Hy. apply (Hfresh y Hy).
    + intros r Hr. apply in_app_or in Hr as [Hr|[<-|[]]]; [apply Hlaw; exact Hr|].
      apply (created_lawful fresh now caller b db Hacc).
    + intros r Hr. apply in_app_or in Hr as [Hr|[<-|[]]]; [apply Hfk; exact Hr|].
      exists u. split; [exact Hin|exact Huid'].
  - destruct (update_task_shape now userId id b db)
      as [->|(i & u & _ & _ & _ & -> & Hnew)]; [repeat split; assumption|].
    unfold schema_ok, tasks_pkey, users_email_key. cbn [users tasks].
    repeat split; try assumption.
    + rewrite List.map_map.
      rewrite (map_ext _ Task.id); [exact Hpk|].
      intros r. destruct (where_ _ r); reflexivity.
    + intros r' Hr'. apply in_map_iff in Hr' as (r & <- & Hr).
      destruct (where_ _ r) eqn:Hw; [apply Hnew; assumption|apply Hlaw; exact Hr].
    + intros r' Hr'. apply in_map_iff in Hr' as (r & <- & Hr).
      destruct (Hfk r Hr) as (x & Hx & Hid). exists x. split; [exact Hx|].
      rewrite Hid. destruct (where_ _ r); reflexivity.
  - destruct (delete_task_shape userId id db)
      as [->|(i & u & _ & _ & _ & ->)]; [repeat split; assumption|].
    unfold schema_ok, tasks_pkey, users_email_key. cbn [users tasks].
    repeat split; try assumption.
    + apply NoDup_map_filter. exact Hpk.
    + intros r Hr. apply filter_In in Hr as [Hr _]. apply Hlaw; exact Hr.
    + intros r Hr. apply filter_In in Hr as [Hr _]. apply Hfk; exact Hr.
Qed.

Lemma served_texts_trimmed (db db' : Db) :
  texts_trimmed db -> served db db' -> texts_trimmed db'.
Proof.
  intros (Ht & Hu) Hstep.
  destruct Hstep as [salt fresh now b|fresh now userId b|now userId id b|userId id].
  - destruct (register_cases salt fresh now b db)
      as [[-> _]|(e & p & He & Hp & _ & _ & _ & _ & ->)]; [split; assumption|].
    cbn [snd]. split; [exact Ht|]. cbn [users].
    intros u Hin. apply in_app_or in Hin as [Hin|[<-|[]]]; [apply Hu; exact Hin|].
    unfold registered; simpl. split; [apply trim_no_outer_space|].
    intros n. destruct (Credentials.name b) as [n0|]; [|discriminate].
    destruct (JS.truthy (JS.trim n0)) eqn:E; [|discriminate].
    intros [= <-]. split; [apply trim_no_outer_space|].
    intros Hz. rewrite Hz in E. discriminate.
  - destruct (create_task_cases fresh now userId b db)
      as [(caller & Hc & Hacc)|[-> _]]; [|split; assumption].
    rewrite (create_task_ok fresh now userId caller b db Hc Hacc). cbn [snd].
    split; [|exact Hu]. unfold with_task; cbn [tasks].
    intros r Hr. apply in_app_or in Hr as [Hr|[<-|[]]]; [apply Ht; exact Hr|].
    unfold created; simpl. split; [apply trim_no_outer_space|].
    intros d. destruct (Body.description b) as [d0|]; [|discriminate].
    destruct (JS.truthy (JS.trim d0)); [|discriminate].
    intros [= <-]. apply trim_no_outer_space.
  - destruct (update_task_shape now userId id b db)
      as [->|(i & u & _ & _ & _ & -> & _)]; [split; assumption|].
    split; [|exact Hu]. cbn [tasks].
    intros r' Hr'. apply in_map_iff in Hr' as (r & <- & Hr).
    destruct (Ht r Hr) as [Htitle Hdesc].
    destruct (where_ _ r); [|split; assumption].
    unfold patched; simpl. split.
    + destruct (Body.title b); [apply trim_no_outer_space|exact Htitle].
    + intros d. destruct (Body.description b) as [d0|]; [|apply Hdesc].
      intros [= <-]. apply trim_no_outer_space.
  - destruct (delete_task_shape userId id db)
      as [->|(i & u & _ & _ & _ & ->)]; [split; assumption|].
    split; [|exact Hu]. cbn [tasks].
    intros r Hr. apply filter_In in Hr as [Hr _]. apply Ht; exact Hr.
Qed.

(** X21 (the schema holds in every reachable state).  Starting from empty
    tables, after any sequence of register, create, update and delete
    requests, with any inputs and any outcomes, task ids and user ids are
    pairwise distinct, e-mail addresses are unique, every row passes the
    length and enumeration checks of its table, and every task is owned by a
    stored user. *)
Theorem reachable_schema_ok (db : Db) : reachable db -> schema_ok db.
Proof.
  induction 1 as [|db db' _ IH Hstep].
  - unfold schema_ok, tasks_pkey, users_email_key, no_users; simpl.
    repeat split; try constructor; intros ? [].
  - eapply served_schema_ok; eassumption.
Qed.

(** X22 (stored texts are trimmed).  In every reachable state no stored
    title, description, e-mail address or name starts or ends with white
    space, and no stored name is empty: every handler trims these fields
    before it writes them. *)
Theorem reachable_texts_trimmed (db : Db) : reachable db -> texts_trimmed db.
Proof.
  induction 1 as [|db db' _ IH Hstep].
  - split; intros ? [].
  - eapply served_texts_trimmed; eassumption.
Qed.

End CoverageAuth.

(** * Properties of the client against the backend *)

Section CoverageClient.
Context `{Pg} `{Jwt} `{Bcrypt}.

(** X23 (what the client makes of an answer).  For an answer of a backend
    route whose success status is in the 2xx range and whose listed errors are
    not, [request] returns the parsed body (undefined for an empty one) on
    success, and otherwise throws an [ApiError] that carries the status and
    whose message is the [error] text of the response, never the status
    text. *)
Theorem request_on_answers (statusText : string) (r : response) (success : Z)
    (errors : list (Z * string)) :
  answers (Sent r) success errors ->
  200 <= success <= 299 ->
  (forall st msg, In (st, msg) errors -> st < 200 \/ 299 < st) ->
  (status r = success
   /\ Client.request statusText r =
        inr (match payload r with NoBody => None | b => Some b end))
  \/ (exists msg,
        In (status r, msg) errors
        /\ Client.request statusText r =
             inl {| Client.ApiError.message := msg;
                    Client.ApiError.status := status r;
                    Client.ApiError.body := Some (JError msg) |}).
Proof.
  intros [[e He]|[[Hst _]|(st & msg & Hin & Hr)]] Hok Herr; [discriminate| |].
  - left. split; [exact Hst|]. unfold Client.request, Client.ok.
    cbn [status_of] in Hst. rewrite Hst.
    destruct (200 <=? success) eqn:E1; [|apply Z.leb_gt in E1; lia].
    destruct (success <=? 299) eqn:E2; [|apply Z.leb_gt in E2; lia].
    reflexivity.
  - right. exists msg. injection Hr as ->. cbn [status payload].
    split; [exact Hin|]. unfold Client.request, Client.ok. cbn [status payload].
    destruct (Herr st msg Hin) as [Hlow|Hhigh].
    + destruct (200 <=? st) eqn:E1; [apply Z.leb_le in E1; lia|]. reflexivity.
    + destruct (st <=? 299) eqn:E2; [apply Z.leb_le in E2; lia|].
      rewrite andb_false_r. reflexivity.
Qed.

(** X24 (what the client makes of a rejection by the middleware).  Every
    response the middleware sends makes [request] throw an [ApiError] with
    status 401 or 500 whose message is one of the five fixed texts; for a
    token the library rejects the message is "Invalid token", "Token expired"
    or "Token not yet valid", not the library's own message. *)
Theorem request_on_rejection (statusText : string) (cfg : gmap string JS.value)
    (authorization : option string) (now : Z) (r : response) :
  authenticate cfg authorization now = Responded r ->
  exists err,
    Client.request statusText r = inl err
    /\ Client.ApiError.status err = status r
    /\ Client.ApiError.body err = Some (payload r)
    /\ ((status r = 401
         /\ In (Client.ApiError.message err)
              ["No token provided"; "Token expired"; "Token not yet valid";
               "Invalid token"])
        \/ (status r = 500
            /\ Client.ApiError.message err = "Server misconfiguration")).
Proof.
  unfold authenticate. cbv zeta.
  destruct authorization as [h|];
    [|intros [= <-]; eexists; repeat split; left; simpl; auto].
  destruct (JS.startsWith h "Bearer ");
    [|intros [= <-]; eexists; repeat split; left; simpl; auto].
  destruct (negb (JS.truthy (JS.slice 7 h)));
    [intros [= <-]; eexists; repeat split; left; simpl; auto|].
  destruct (negb (JS.truthy_value (JS.get cfg "jwtSecret")));
    [intros [= <-]; eexists; repeat split; right; simpl; auto|].
  destruct (jwt_verify _ _ now) as [uid em|[m e|m d|m]]; [discriminate|..];
    intros [= <-]; eexists; repeat split; left; simpl; auto 6.
Qed.

(** X25 (the header the client sends).  [request] sends no Authorization
    header when it is given a null token or finds no token, or an empty one,
    in localStorage, and the middleware then answers 401 "No token provided";
    for a stored non-empty token it sends "Bearer " and the token, and the
    middleware, given a signing secret, lets the request through exactly when
    [jwt.verify] accepts that very token. *)
Theorem client_header_verified (cfg : gmap string JS.value) (stored : option string)
    (now : Z) :
  authenticate cfg (Client.authorization (Some None) stored) now
    = respond 401 (JError "No token provided")
  /\ (JS.truthy_opt stored = false ->
      authenticate cfg (Client.authorization None stored) now
        = respond 401 (JError "No token provided"))
  /\ (forall t user,
        stored = Some t -> t <> "" ->
        JS.truthy_value (JS.get cfg "jwtSecret") = true ->
        (authenticate cfg (Client.authorization None stored) now = Next user
         <-> jwt_verify t (JS.get cfg "jwtSecret") now
             = Decoded (userId user) (email user))).
Proof.
  split; [reflexivity|]. split.
  - destruct stored as [t|]; [|reflexivity]. cbn [JS.truthy_opt].
    intros Ht. unfold Client.authorization. rewrite Ht. reflexivity.
  - intros t user -> Hne Hs. unfold Client.authorization.
    rewrite (truthy_true t Hne), (authenticate_bearer cfg t now Hne), Hs.
    cbn [negb].
    destruct (jwt_verify t _ now) as [uid em|err].
    + split; [intros [= <-]; reflexivity|].
      destruct user as [uid' em']. intros [= -> ->]. reflexivity.
    + split; [destruct err; discriminate|discriminate].
Qed.





(** X27 (the provider's state).  In every state the auth provider can reach
    after a page load, by any sequence of its actions with any results of the
    API calls, each action running to its end before the next one starts, a
    user is shown as authenticated only while a token is in localStorage; and
    a logout leaves neither. *)
Theorem authenticated_has_token (st : AuthContext.state) :
  AuthContext.reachable st ->
  (AuthContext.isAuthenticated st = true -> exists t, AuthContext.token st = Some t)
  /\ AuthContext.isAuthenticated (AuthContext.logout st) = false
  /\ AuthContext.token (AuthContext.logout st) = None.
Proof.
  intros Hr. split; [|split; reflexivity].
  induction Hr as [stored|st st' _ IH Hstep]; [simpl; discriminate|].
  destruct Hstep as [me|result|registered result|].
  - unfold AuthContext.loadUser.
    destruct (AuthContext.token st) as [t|] eqn:Ht; [|simpl; discriminate].
    destruct (negb (JS.truthy t)); [simpl; discriminate|].
    destruct (me t); [simpl; discriminate|]. intros _. exists t. reflexivity.
  - destruct result as [err|[t u]]; [exact IH|]. intros _. exists t. reflexivity.
  - destruct registered as [err|[]]; [exact IH|].
    destruct result as [err|[t u]]; [exact IH|]. intros _. exists t. reflexivity.
  - simpl; discriminate.
Qed.

End CoverageClient.

(** * The further properties on the sample data *)

Section CoverageSamples.
#[local] Existing Instances sample_pg sample_runtime sample_bcrypt sample_jwt.

Lemma sample_order_emits : emits_matching_rows sort_ties_oldest_first.
Proof. apply orders_emit_matching. apply sort_ties_oldest_first_ok. Qed.

Lemma todo_query_accepted : filters_accepted todo_query.
Proof. split; [reflexivity|discriminate]. Qed.

Lemma todo_query_exact : exact_paging todo_query.
Proof. unfold exact_paging. vm_compute. discriminate. Qed.

(** Alice deletes "Buy milk". *)
Lemma delete_owned_then_gone_witness :
  exists db',
    delete_task alice task1 sample_db = (json 204 NoBody, db')
    /\ tasks db' = [eggs; report]
    /\ delete_task alice task1 db' = (task_not_found, db').
Proof.
  destruct (@delete_owned_then_gone sample_pg sample_db milk alice alice task1)
    as (db' & Hd & _ & Ht & _ & Hagain & _).
  - exact sample_db_pkey.
  - simpl; auto.
  - reflexivity.
  - reflexivity.
  - reflexivity.
  - exists db'. split; [exact Hd|]. split; [rewrite Ht; reflexivity|exact Hagain].
Defined.

(** Alice creates "Buy milk" and reads it back. *)
Lemma create_then_get_witness :
  exists returned db',
    create_task task9 500 alice milk_body sample_db = (json 201 (JTask returned), db')
    /\ get_task alice task9 db' = json 200 (JTask returned)
    /\ get_task alice task9 sample_db = task_not_found.
Proof.
  apply (@create_then_get sample_pg task9 500 alice alice task9 milk_body sample_db).
  - reflexivity.
  - apply milk_body_accepted; auto.
  - reflexivity.
Defined.

(** Alice lists her tasks with [?status=todo]. *)
Lemma list_filter_conjunction_witness :
  exists data,
    list_tasks sort_ties_oldest_first alice todo_query sample_db =
      json 200 (JTaskList data 2 1 20)
    /\ forall x, In x data -> Task.user_id x = alice /\ Task.status x = "todo".
Proof.
  destruct (@list_filter_conjunction sample_pg sort_ties_oldest_first alice alice
              todo_query sample_db) as (data & Heq & Hdata & _).
  - reflexivity.
  - exact todo_query_accepted.
  - exact todo_query_exact.
  - exact sample_order_emits.
  - exists data. split; [exact Heq|].
    intros x Hx. destruct (Hdata x Hx) as (r & -> & _ & Hown & Hst & _).
    split; [exact Hown|]. apply (Hst "todo"); [reflexivity|discriminate].
Defined.

Lemma list_page_size_witness :
  exists data total,
    list_tasks sort_ties_oldest_first alice todo_query sample_db =
      json 200 (JTaskList data total 1 20)
    /\ total = 2 /\ Z.of_nat (length data) = 2.
Proof.
  destruct (@list_page_size sample_pg sort_ties_oldest_first alice alice todo_query
              sample_db) as (data & total & Heq & Htotal & Hlen & _).
  - reflexivity.
  - exact todo_query_accepted.
  - exact todo_query_exact.
  - exact sort_ties_oldest_first_ok.
  - exists data, total. split; [exact Heq|]. split; [exact Htotal|].
    rewrite Hlen, Htotal. reflexivity.
Defined.

(** [?status=bogus] *)
Lemma list_filter_validation_witness :
  list_tasks sort_ties_oldest_first alice bogus_query sample_db
  = json 400 (JError "Invalid status").
Proof.
  destruct (@list_filter_validation sample_pg sort_ties_oldest_first alice
              bogus_query sample_db) as (Hst & _).
  apply (Hst "bogus"); [reflexivity|discriminate|reflexivity].
Defined.

Lemma spaced_status_body_accepted :
  create_accepted task9 alice spaced_status_body sample_db.
Proof.
  unfold create_accepted. repeat split.
  - exists "Buy milk". repeat split; [discriminate|vm_compute; discriminate].
  - intros v Hv. discriminate.
  - intros t [<-|[<-|[<-|[]]]]; discriminate.
  - exists alice_row. split; [left|]; reflexivity.
Qed.

(** [status: " done "] on create and on update. *)
Lemma status_trimmed_on_create_only_witness :
  update_task 999 alice task1 spaced_status_body sample_db
  = (json 400 (JError "Invalid status"), sample_db)
  /\ exists row,
       create_task task9 500 alice spaced_status_body sample_db =
         (json 201 (JTask (rowToTask row)), with_task row sample_db)
       /\ Task.status row = "done".
Proof.
  destruct (@status_trimmed_on_create_only sample_pg " done " task9 500 alice alice
              task1 spaced_status_body sample_db) as (Hup & Hcr).
  - reflexivity.
  - discriminate.
  - reflexivity.
  - split; [exact Hup|].
    apply Hcr; [reflexivity|exact spaced_status_body_accepted].
Defined.

(** Alice registers twice. *)
Lemma register_refusals_witness :
  register sample_salt task9 100 alice_login sample_db
  = (json 409 (JError "Email already registered"), sample_db).
Proof.
  destruct (@register_refusals sample_bcrypt sample_salt task9 100 alice_login
              sample_db) as (_ & Hdup).
  apply (Hdup "alice@example.com" "secret123" alice_row);
    try reflexivity; try discriminate.
  simpl; auto.
Defined.


Lemma sample_db_user_ids : NoDup (map User.id (users sample_db)).
Proof. apply (bool_decide_unpack _). vm_compute. exact I. Qed.

(** Alice asks for her profile. *)
Lemma me_profile_witness :
  me alice_identity sample_db =
    json 200 (JUser alice "alice@example.com" None 100 100).
Proof.
  destruct (@me_profile sample_pg alice_identity alice sample_db) as (Hfound & _).
  - exact sample_db_user_ids.
  - reflexivity.
  - apply (Hfound alice_row); [simpl; auto|reflexivity].
Defined.

(** The store after a registration and a create. *)
Lemma after_two_requests_reachable : reachable after_two_requests.
Proof.
  unfold after_two_requests.
  eapply reachable_served; [|apply served_create].
  eapply reachable_served; [apply reachable_empty|apply served_register].
Qed.

Lemma reachable_schema_ok_witness : schema_ok after_two_requests.
Proof.
  apply (@reachable_schema_ok sample_pg sample_bcrypt after_two_requests).
  exact after_two_requests_reachable.
Defined.

Lemma reachable_texts_trimmed_witness : texts_trimmed after_two_requests.
Proof.
  apply (@reachable_texts_trimmed sample_pg sample_bcrypt after_two_requests).
  exact after_two_requests_reachable.
Defined.

(** The client receives 404 "Task not found". *)
Lemma request_on_answers_witness :
  Client.request "Not Found" {| status := 404; payload := JError "Task not found" |}
  = inl {| Client.ApiError.message := "Task not found";
           Client.ApiError.status := 404;
           Client.ApiError.body := Some (JError "Task not found") |}.
Proof.
  destruct (request_on_answers "Not Found"
              {| status := 404; payload := JError "Task not found" |} 200
              [(404, "Task not found")]) as [[Hst _]|(msg & _ & Heq)].
  - apply answers_error. simpl; auto.
  - lia.
  - intros st msg [[= <- <-]|[]]. lia.
  - discriminate.
  - reflexivity.
Defined.

(** The client sends no header. *)
Lemma request_on_rejection_witness :
  exists err,
    Client.request "Unauthorized"
      {| status := 401; payload := JError "No token provided" |} = inl err
    /\ Client.ApiError.status err = 401.
Proof.
  destruct (@request_on_rejection sample_jwt "Unauthorized" secret_config None 0
              {| status := 401; payload := JError "No token provided" |})
    as (err & Heq & Hst & _).
  - reflexivity.
  - exists err. split; [exact Heq|exact Hst].
Defined.

(** A page load without a token, then a login. *)
Lemma authenticated_has_token_witness :
  exists t, AuthContext.token logged_in = Some t.
Proof.
  destruct (authenticated_has_token logged_in) as (Htok & _).
  - unfold logged_in. eapply AuthContext.reachable_step.
    + apply AuthContext.reachable_initial.
    + apply AuthContext.step_login.
  - apply Htok. reflexivity.
Defined.

End CoverageSamples.

Section CoverageTokenSamples.
#[local] Existing Instances sample_pg sample_runtime sample_bcrypt.

(** A token that has expired. *)
Lemma authenticate_reports_failure_witness :
  @authenticate expired_jwt secret_config (Some "Bearer abc") 2000 =
    respond 401 (JTokenExpired "Token expired" 1000 "TOKEN_EXPIRED").
Proof.
  apply (@authenticate_reports_failure expired_jwt secret_config "abc" 2000
           (TokenExpiredError "jwt expired" 1000)).
  - discriminate.
  - reflexivity.
  - reflexivity.
Defined.

(** Alice logs in and asks for her profile with the token she got. *)
Lemma login_token_identifies_user_witness :
  exists token,
    @login echo_jwt sample_bcrypt secret_config 100 alice_login sample_db =
      json 200 (JLogin token alice "alice@example.com" None)
    /\ @get_me sample_pg echo_jwt secret_config (Some ("Bearer " +:+ token)) 200
         sample_db =
       json 200 (JUser alice "alice@example.com" None 100 100).
Proof.
  destruct (@login_token_identifies_user sample_pg echo_jwt sample_bcrypt
              secret_config 100 200 alice_login "alice@example.com" "secret123"
              alice_row sample_db)
    as (token & _ & Hlogin & _ & Hme);
    try reflexivity; try discriminate.
  - exact sample_db_email_key.
  - exact sample_db_user_ids.
  - simpl; auto.
  - exists token. split; [exact Hlogin|exact Hme].
Defined.

(** A token kept in localStorage. *)
Lemma client_header_verified_witness :
  @authenticate echo_jwt secret_config
    (Client.authorization None (Some (alice +:+ "alice@example.com"))) 200
  = Next alice_identity.
Proof.
  destruct (@client_header_verified echo_jwt secret_config
              (Some (alice +:+ "alice@example.com")) 200) as (_ & _ & Hiff).
  apply (Hiff (alice +:+ "alice@example.com") alice_identity);
    try reflexivity; discriminate.
Defined.

(** An expired token, and a request without a header. *)
Lemma authenticate_failures_witness :
  @authenticate expired_jwt secret_config None 2000 =
    respond 401 (JError "No token provided")
  /\ @authenticate expired_jwt secret_config (Some "Bearer abc") 2000 =
       respond 401 (JTokenExpired "Token expired" 1000 "TOKEN_EXPIRED").
Proof.
  destruct (@authenticate_failures expired_jwt secret_config 2000)
    as (Hnone & Hfailed).
  split; [apply (Hnone None); exact I|].
  destruct Hfailed as (Hcode & _); [reflexivity|].
  apply (Hcode "abc" (TokenExpiredError "jwt expired" 1000));
    [discriminate|reflexivity].
Defined.

(** [{ title: 123 }] is refused like a missing title. *)
Example number_title_refused :
  @create_task_json sample_pg sample_driver task9 500 alice number_title_body
    sample_db
  = (Returned (json 400 (JError "Title is required")), sample_db).
Proof. reflexivity. Qed.

End CoverageTokenSamples.
